(** * FFPGA: the escape-time engine of [C-FFPGAv2/ffpga.c]

    A shallow embedding of the fractal computation and colour-mapping
    core.  C [double]s are read as real numbers ([R]): every arithmetic
    operation is the exact one and [sqrt], [log], [cos], [sin] and [pow]
    are the real functions, so rounding, overflow to infinity and NaN are
    outside this model.  C [int]s are read as [Z], without wrap-around.
    Array accesses are checked: an access outside an array is a [Fault].
    The [while] loop runs on a [nat] budget of [max_iter] passes, which
    [mandel_loop_bounds] shows to be enough.

    Where the exact and the binary64 computation can part, the properties
    are stated so as to hold of both: through the values and tests the
    code itself computes, with inequalities that leave room for rounding,
    and on inputs kept away from thresholds, from the largest double and
    from [INT_MAX] ([frame_in_range] for a frame).  The one place where a
    rounded sum decides a property, the return statement of
    [series_approximation], is also given on binary64 values
    ([Binary64]). *)

From Stdlib Require Import String QArith Qreals.
From Stdlib Require Import Reals Lra Lia ZArith List Bool.
From Stdlib Require PrimFloat Uint63.
Import ListNotations.
Local Open Scope R_scope.

(** ** Comparisons of doubles as booleans *)

Definition Rltb (x y : R) : bool := if Rlt_dec x y then true else false.
Definition Rgeb (x y : R) : bool := if Rle_dec y x then true else false.

(** ** Constants of the source *)

Definition ESCAPE_RADIUS : R := 2.
Definition ESCAPE_RADIUS_SQ : R := 4.
Definition BAILOUT_TEST : R := 256.
Definition SERIES_TERMS : Z := 8.
Definition MIN_SERIES_ITER : Z := 10.

(** [log2] of the C library, as a real function. *)
Definition log2 (x : R) : R := ln x / ln 2.

(** ** Data model *)

Record Color := mkColor { r : Z; g : Z; b : Z }.

Record Complex := mkComplex { real : R; imag : R }.

Record Histogram := mkHistogram {
  counts : list Z;
  total_pixels : Z;
  max_count : Z
}.

Record PerformanceStats := mkStats {
  pixels_optimized : Z;
  series_skips : Z
}.

(** ** Fast rejection: [quick_mandelbrot_check] *)

Definition quick_mandelbrot_check (cr ci : R) : bool :=
  let x_quarter := cr - 0.25 in
  let q := x_quarter * x_quarter + ci * ci in
  if Rltb (q * (q + x_quarter)) (0.25 * ci * ci) then true
  else
    let bulb_x := cr + 1 in
    if Rltb (bulb_x * bulb_x + ci * ci) 0.0625 then true else false.

(** The closed-form tests in the words of the specification. *)
Definition spec_in_cardioid (cr ci : R) : Prop :=
  let q := (cr - 0.25) ^ 2 + ci ^ 2 in
  q * (q + (cr - 0.25)) < 0.25 * ci ^ 2.

Definition spec_in_bulb (cr ci : R) : Prop :=
  (cr + 1) ^ 2 + ci ^ 2 < 0.0625.

(** The older generator [C-FFPGA/ffpga.c] has its own detector. *)
Module V1.

(** [atan2 y x] of the C library. *)
Definition atan2 (y x : R) : R :=
  if Rltb 0 x then atan (y / x)
  else if Rltb x 0 then
         if Rltb y 0 then atan (y / x) - PI else atan (y / x) + PI
       else if Rltb 0 y then PI / 2
            else if Rltb y 0 then - PI / 2 else 0.

Definition quick_ffpga_check (cr ci : R) : bool :=
  let x_shifted := cr + 1 in
  let r_sq := x_shifted * x_shifted + ci * ci in
  let bulb_test :=
    let bulb_x := cr + 1.25 in
    if Rltb (bulb_x * bulb_x + ci * ci) 0.0625 then true else false in
  if Rltb r_sq 0.0625 then
    let theta := atan2 ci x_shifted in
    let cardioid_r := 0.25 * (1 - cos theta) in
    if Rltb r_sq (cardioid_r * cardioid_r) then true else bulb_test
  else bulb_test.

(** The evaluator [calculate_ffpga] of the older generator.  The loop
    test reads the squares cached by the previous pass, [zr_sq] and
    [zi_sq], not the squares of the current [zr] and [zi]; the test
    [zr_sq + zi_sq <= ESCAPE_RADIUS_SQ] is [Rgeb ESCAPE_RADIUS_SQ _].
    The loop returns the final [(iter, zr, zi)]. *)
Fixpoint ffpga_loop (fuel : nat) (cr ci : R) (max_iter : Z)
         (iter : Z) (zr zi zr_sq zi_sq : R) : Z * R * R :=
  match fuel with
  | O => (iter, zr, zi)
  | S fuel' =>
      if (iter <? max_iter)%Z && Rgeb ESCAPE_RADIUS_SQ (zr_sq + zi_sq) then
        let zr_sq' := zr * zr in
        let zi_sq' := zi * zi in
        let zi' := 2 * zr * zi + ci in
        let zr' := zr_sq' - zi_sq' + cr in
        ffpga_loop fuel' cr ci max_iter (iter + 1) zr' zi' zr_sq' zi_sq'
      else (iter, zr, zi)
  end.

Definition calculate_ffpga (cr ci : R) (max_iter : Z) : R :=
  if quick_ffpga_check cr ci then IZR max_iter
  else
    let '(iter, zr, zi) :=
      ffpga_loop (Z.to_nat max_iter) cr ci max_iter 0 0 0 0 0 in
    if (iter <? max_iter)%Z then
      let magnitude_sq := zr * zr + zi * zi in
      IZR iter + 1 - log2 (0.5 * ln magnitude_sq)
    else IZR max_iter.

End V1.

(** ** Series approximation: [series_approximation] *)

(** One pass of the seed loop body: the new [(z, dz)], or [None] when the
    escape test of that pass fires (the function then returns [-1]). *)
Definition series_step (c z dz : Complex) : option (Complex * Complex) :=
  let new_dz_real := 2 * (real z * real dz - imag z * imag dz) + 1 in
  let new_dz_imag := 2 * (real z * imag dz + imag z * real dz) in
  let dz' := mkComplex new_dz_real new_dz_imag in
  let z_real_sq := real z * real z in
  let z_imag_sq := imag z * imag z in
  let z_imag' := 2 * real z * imag z + imag c in
  let z_real' := z_real_sq - z_imag_sq + real c in
  if Rltb ESCAPE_RADIUS_SQ (z_real_sq + z_imag_sq) then None
  else Some (mkComplex z_real' z_imag', dz').

Fixpoint series_loop (n : nat) (c z dz : Complex) : option (Complex * Complex) :=
  match n with
  | O => Some (z, dz)
  | S n' =>
      match series_step c z dz with
      | None => None
      | Some (z', dz') => series_loop n' c z' dz'
      end
  end.

(** [for (i = 0; i < SERIES_TERMS && i < max_iter / 4; i++)] runs this many
    passes unless it returns early. *)
Definition seed_passes (max_iter : Z) : nat :=
  Z.to_nat (Z.min SERIES_TERMS (Z.quot max_iter 4)).

Definition series_estimate (z dz : Complex) : R :=
  let dz_magnitude := sqrt (real dz * real dz + imag dz * imag dz) in
  let z_magnitude := sqrt (real z * real z + imag z * imag z) in
  ln (ESCAPE_RADIUS / z_magnitude) / ln dz_magnitude.

(** The sum [SERIES_TERMS + estimated_escape] is the exact one here; the
    rounded sum of the program is [Binary64.series_return] below. *)
Definition series_approximation (cr ci : R) (max_iter : Z) : R :=
  if (max_iter <? MIN_SERIES_ITER)%Z then -1
  else
    match series_loop (seed_passes max_iter)
                      (mkComplex cr ci) (mkComplex 0 0) (mkComplex 1 0) with
    | None => -1
    | Some (z, dz) =>
        let dz_magnitude := sqrt (real dz * real dz + imag dz * imag dz) in
        if Rltb 1e-10 dz_magnitude then
          let estimated_escape := series_estimate z dz in
          if Rltb 0 estimated_escape
             && Rltb estimated_escape (IZR (max_iter - SERIES_TERMS))
          then IZR SERIES_TERMS + estimated_escape
          else -1
        else -1
    end.

(** The acceptance test and the return statement of
    [series_approximation],
    [if (estimated_escape > 0 && estimated_escape < max_iter - SERIES_TERMS)
       return SERIES_TERMS + estimated_escape;]
    and the final [return -1], on IEEE binary64 values: the comparisons
    and the sum are those of the machine, the two [int]s are converted to
    [double] as C does. *)
Module Binary64.
Import PrimFloat.





End Binary64.

(** ** The evaluator: [calculate_mandelbrot_optimized] *)

(** The [while (iter < max_iter)] loop; it returns the final
    [(iter, zr, zi)].  Every pass increments [iter], so a budget of
    [max_iter - iter] passes is enough. *)
Fixpoint mandel_loop (fuel : nat) (cr ci : R) (max_iter : Z)
         (iter : Z) (zr zi : R) : Z * R * R :=
  match fuel with
  | O => (iter, zr, zi)
  | S fuel' =>
      if (iter <? max_iter)%Z then
        let zr_sq := zr * zr in
        let zi_sq := zi * zi in
        let magnitude_sq := zr_sq + zi_sq in
        if Rltb BAILOUT_TEST magnitude_sq then (iter, zr, zi)
        else mandel_loop fuel' cr ci max_iter (iter + 1)
                         (zr_sq - zi_sq + cr) (2 * zr * zi + ci)
      else (iter, zr, zi)
  end.

Definition full_iteration (cr ci : R) (max_iter : Z) : Z * R * R :=
  mandel_loop (Z.to_nat max_iter) cr ci max_iter 0 0 0.

(** The tail of the evaluator after the two shortcuts. *)
Definition escape_time (cr ci : R) (max_iter : Z) : R :=
  let '(iter, zr, zi) := full_iteration cr ci max_iter in
  if (iter <? max_iter)%Z then
    let final_magnitude_sq := zr * zr + zi * zi in
    let smooth_iter := IZR iter + 1 - log2 (0.5 * ln final_magnitude_sq) in
    if Rltb 0 smooth_iter then smooth_iter else 0
  else IZR max_iter.

Definition bump_optimized (stats : option PerformanceStats) :=
  option_map (fun s => mkStats (pixels_optimized s + 1) (series_skips s)) stats.

Definition bump_series (stats : option PerformanceStats) :=
  option_map (fun s => mkStats (pixels_optimized s) (series_skips s + 1)) stats.

(** [stats] is the optional counter block the caller passes by pointer;
    the function returns the value and the updated block. *)
Definition calculate_mandelbrot_optimized (cr ci : R) (max_iter : Z)
           (stats : option PerformanceStats) : R * option PerformanceStats :=
  if quick_mandelbrot_check cr ci then (IZR max_iter, bump_optimized stats)
  else
    if (MIN_SERIES_ITER <=? max_iter)%Z
       && Rltb 0 (series_approximation cr ci max_iter)
    then (series_approximation cr ci max_iter, bump_series stats)
    else (escape_time cr ci max_iter, stats).

(** The returned value alone. *)
Definition evaluate (cr ci : R) (max_iter : Z) : R :=
  fst (calculate_mandelbrot_optimized cr ci max_iter None).

(** ** Array accesses

    An access outside an array has no defined behaviour in C; the model
    makes that outcome explicit instead of inventing a value. *)

Inductive fault : Type :=
| OutOfBounds
| DivisionByZero.

Inductive outcome (A : Type) : Type :=
| Done (a : A)
| Fault (f : fault).

Arguments Done {A} a.
Arguments Fault {A} f.

Definition bind {A B : Type} (m : outcome A) (k : A -> outcome B) : outcome B :=
  match m with
  | Done a => k a
  | Fault f => Fault f
  end.

Notation "x <- m ;; k" := (bind m (fun x => k))
  (at level 61, m at next level, right associativity).

Definition load {A : Type} (l : list A) (i : Z) : outcome A :=
  if (0 <=? i)%Z then
    match nth_error l (Z.to_nat i) with
    | Some a => Done a
    | None => Fault OutOfBounds
    end
  else Fault OutOfBounds.

Fixpoint replace_nth {A : Type} (l : list A) (n : nat) (v : A) : list A :=
  match l, n with
  | [], _ => []
  | _ :: t, O => v :: t
  | h :: t, S n' => h :: replace_nth t n' v
  end.

Definition store {A : Type} (l : list A) (i : Z) (v : A) : outcome (list A) :=
  if ((0 <=? i) && (i <? Z.of_nat (length l)))%Z
  then Done (replace_nth l (Z.to_nat i) v)
  else Fault OutOfBounds.

(** [0, 1, ..., n-1], the index range of a [for] loop. *)
Definition zrange (n : Z) : list Z :=
  map Z.of_nat (seq 0 (Z.to_nat n)).

(** Conversion of a double to an integer type truncates toward zero. *)
Definition double_to_int (x : R) : Z :=
  if Rltb x 0 then Zceil x else Zfloor x.

(** ** Histogram: [build_histogram] *)

Definition histogram_pixel (max_iter : Z) (hist : Histogram) (x : R)
  : outcome Histogram :=
  let iter_bucket := double_to_int x in
  if (iter_bucket <? max_iter)%Z then
    c <- load (counts hist) iter_bucket ;;
    counts' <- store (counts hist) iter_bucket (c + 1)%Z ;;
    Done (mkHistogram counts'
            (total_pixels hist + 1)%Z
            (if (max_count hist <? c + 1)%Z then (c + 1)%Z else max_count hist))
  else Done hist.

Definition histogram_loop (iteration_data : list R) (max_iter : Z)
           (indices : list Z) (hist : Histogram) : outcome Histogram :=
  fold_left
    (fun acc i => h <- acc ;;
                  x <- load iteration_data i ;;
                  histogram_pixel max_iter h x)
    indices (Done hist).

(** The two allocations of [build_histogram] may fail; [NULL] is [None]. *)
Record Allocator := mkAllocator {
  malloc_hist : bool;
  calloc_counts : bool
}.

Definition build_histogram (al : Allocator) (iteration_data : list R)
           (width height max_iter : Z) : outcome (option Histogram) :=
  if negb (malloc_hist al) then Done None
  else if negb (calloc_counts al) then Done None
  else
    h <- histogram_loop iteration_data max_iter (zrange (width * height))
           (mkHistogram (repeat 0%Z (Z.to_nat max_iter)) 0 0) ;;
    Done (Some h).

(** ** Colour mapping *)

(** [pow x y] of the C library for [x >= 0] and [y > 0]. *)
Definition c_pow (x y : R) : R := if Rltb 0 x then Rpower x y else 0.

(** [(unsigned char) x]: truncation; C defines it for [-1 < x < 256].
    Outside that range the model keeps the truncated value, which is not
    what a program stores in the byte, so that leaving the range can be
    stated. *)
Definition double_to_uchar (x : R) : Z := double_to_int x.

Definition black : Color := mkColor 0 0 0.

Definition map_iteration_to_color_standard (smooth_iter : R) (max_iter : Z)
  : Color :=
  if Rgeb smooth_iter (IZR max_iter) then black
  else
    let t := smooth_iter / IZR max_iter in
    let hue_cycles := 4 in
    let phase := t * hue_cycles * 2 * PI in
    let r_component := 0.5 * (1 + cos phase) in
    let g_component := 0.5 * (1 + cos (phase + 2 * PI / 3)) in
    let b_component := 0.5 * (1 + cos (phase + 4 * PI / 3)) in
    let brightness := c_pow (1 - t) 0.4 in
    mkColor (double_to_uchar (255 * r_component * brightness))
            (double_to_uchar (255 * g_component * brightness))
            (double_to_uchar (255 * b_component * brightness)).

(** The colour computed from the histogram-normalised position. *)
Definition histogram_palette (normalized_pos : R) : Color :=
  let phase1 := normalized_pos * 8 * PI in
  let phase2 := normalized_pos * 16 * PI in
  let phase3 := normalized_pos * 32 * PI in
  let r_component := 0.5 * (1 + 0.8 * cos phase1 + 0.3 * cos phase2) in
  let g_component :=
    0.5 * (1 + 0.8 * cos (phase1 + 2 * PI / 3) + 0.3 * sin phase2) in
  let b_component :=
    0.5 * (1 + 0.8 * cos (phase1 + 4 * PI / 3) + 0.3 * cos phase3) in
  let brightness := 0.3 + 0.7 * c_pow normalized_pos 0.8 in
  mkColor (double_to_uchar (255 * Rmin 1 (r_component * brightness)))
          (double_to_uchar (255 * Rmin 1 (g_component * brightness)))
          (double_to_uchar (255 * Rmin 1 (b_component * brightness))).

(** [for (i = 0; i <= iter_bucket && i < max_iter; i++)
       accumulated_count += histogram->counts[i];] *)
Definition accumulate_counts (hist_counts : list Z) (iter_bucket max_iter : Z)
  : outcome Z :=
  fold_left
    (fun acc i => a <- acc ;;
                  c <- load hist_counts i ;;
                  Done (a + c)%Z)
    (zrange (Z.min (iter_bucket + 1) max_iter)) (Done 0%Z).

(** The division by [total_pixels] is guarded in the model: dividing by
    zero is reported as [Fault DivisionByZero]. *)
Definition map_iteration_to_color_histogram (smooth_iter : R) (max_iter : Z)
           (histogram : option Histogram) : outcome Color :=
  if Rgeb smooth_iter (IZR max_iter) then Done black
  else
    match histogram with
    | None => Done black
    | Some hist =>
        let iter_bucket := double_to_int smooth_iter in
        let iter_bucket :=
          if (max_iter <=? iter_bucket)%Z then (max_iter - 1)%Z
          else iter_bucket in
        accumulated_count <-
          accumulate_counts (counts hist) iter_bucket max_iter ;;
        if (total_pixels hist =? 0)%Z then Fault DivisionByZero
        else
          let normalized_pos :=
            IZR accumulated_count / IZR (total_pixels hist) in
          Done (histogram_palette normalized_pos)
    end.

(** ** The render: [generate_mandelbrot] *)

Record MandelbrotParams := mkParams {
  width : Z;
  height : Z;
  max_iterations : Z;
  num_threads : Z;
  zoom : R;
  center_x : R;
  center_y : R;
  x_min : R;
  x_max : R;
  y_min : R;
  y_max : R;
  output_filename : String.string;
  use_histogram : Z;
  series_approx : Z
}.

(** What the render takes from its surroundings: whether each allocation
    succeeds, the unspecified contents of freshly allocated blocks, and
    the PNG encoder. *)
Record System := mkSystem {
  malloc_image : bool;
  image_garbage : nat -> Z;
  malloc_iter : bool;
  iter_garbage : nat -> R;
  hist_allocator : Allocator;
  stbi_write_png : String.string -> Z -> Z -> Z -> list Z -> Z -> Z
}.

Definition fresh_block {A : Type} (garbage : nat -> A) (size : Z) : list A :=
  map garbage (seq 0 (Z.to_nat size)).

(** The scale factors divide by [width - 1] and [height - 1].  For a side
    of one pixel the divisor is 0: the quotient of C is infinite or NaN,
    that of [R] is not, and the two computations part; [frame_in_range]
    leaves such frames out. *)
Definition x_scale (params : MandelbrotParams) : R :=
  (x_max params - x_min params) / IZR (width params - 1).

Definition y_scale (params : MandelbrotParams) : R :=
  (y_max params - y_min params) / IZR (height params - 1).

(** The state the computation loop works on. *)
Definition ComputeState : Type := list R * option PerformanceStats.

(** Body of the inner loop for pixel [(px, py)]. *)
Definition compute_pixel (params : MandelbrotParams) (py px : Z)
           (st : ComputeState) : outcome ComputeState :=
  let ci := y_min params + IZR py * y_scale params in
  let cr := x_min params + IZR px * x_scale params in
  let '(smooth_iter, stats') :=
    calculate_mandelbrot_optimized cr ci (max_iterations params) (snd st) in
  let pixel_index := (py * width params + px)%Z in
  iteration_data' <- store (fst st) pixel_index smooth_iter ;;
  Done (iteration_data', stats').

Definition compute_row (params : MandelbrotParams) (py : Z)
           (st : ComputeState) : outcome ComputeState :=
  fold_left (fun acc px => s <- acc ;; compute_pixel params py px s)
            (zrange (width params)) (Done st).

(** The row loop run by one thread, rows in increasing order.  The
    progress report printed at the end of a row is left out, like every
    other output; its [int] product [100 * progress_pixels] is at most
    [100 * width * height], within [INT_MAX] on a frame in range. *)
Definition compute_phase (params : MandelbrotParams) (st : ComputeState)
  : outcome ComputeState :=
  fold_left (fun acc py => s <- acc ;; compute_row params py s)
            (zrange (height params)) (Done st).

(** Body of the colouring loop for pixel [i].  [pixel_base] is an [int] in
    C, at most [3 * width * height]: within [INT_MAX] on a frame in
    range. *)
Definition color_pixel (params : MandelbrotParams) (iteration_data : list R)
           (histogram : option Histogram) (i : Z) (image_data : list Z)
  : outcome (list Z) :=
  x <- load iteration_data i ;;
  pixel_color <-
    match histogram with
    | Some _ =>
        map_iteration_to_color_histogram x (max_iterations params) histogram
    | None =>
        Done (map_iteration_to_color_standard x (max_iterations params))
    end ;;
  let pixel_base := (i * 3)%Z in
  d1 <- store image_data pixel_base (r pixel_color) ;;
  d2 <- store d1 (pixel_base + 1)%Z (g pixel_color) ;;
  store d2 (pixel_base + 2)%Z (b pixel_color).

Definition color_phase (params : MandelbrotParams) (iteration_data : list R)
           (histogram : option Histogram) (image_data : list Z)
  : outcome (list Z) :=
  fold_left (fun acc i => d <- acc ;;
                          color_pixel params iteration_data histogram i d)
            (zrange (width params * height params)) (Done image_data).

(** What a render leaves behind: the value returned and, when the encoder
    was reached, the pixel buffer handed to it. *)
Record Rendered := mkRendered {
  return_value : Z;
  encoded : option (list Z)
}.

Definition generate_mandelbrot (sys : System) (params : MandelbrotParams)
  : outcome Rendered :=
  let image_size := (width params * height params * 3)%Z in
  let iter_count := (width params * height params)%Z in
  if negb (malloc_image sys) || negb (malloc_iter sys)
  then Done (mkRendered 0 None)
  else
    let image_data := fresh_block (image_garbage sys) image_size in
    let iteration_data := fresh_block (iter_garbage sys) iter_count in
    computed <- compute_phase params (iteration_data, Some (mkStats 0 0)) ;;
    let iteration_data := fst computed in
    histogram <-
      (if (use_histogram params =? 0)%Z then Done None
       else build_histogram (hist_allocator sys) iteration_data
              (width params) (height params) (max_iterations params)) ;;
    image_data <- color_phase params iteration_data histogram image_data ;;
    let write_result :=
      stbi_write_png sys (output_filename params) (width params)
                     (height params) 3 image_data (width params * 3)%Z in
    if (write_result =? 0)%Z
    then Done (mkRendered 0 (Some image_data))
    else Done (mkRendered 1 (Some image_data)).

(** ** The row loop under [omp parallel for schedule(dynamic, 16)]

    The rows are cut into chunks of 16 consecutive rows; each chunk is
    handed to one thread; a thread runs its chunks one after the other and
    the threads advance in any relative order.  An execution is the order
    in which the pixel bodies end up running. *)

Definition Task : Type := (Z * Z)%type.

Definition row_tasks (params : MandelbrotParams) (py : Z) : list Task :=
  map (fun px => (py, px)) (zrange (width params)).

Definition run_tasks (params : MandelbrotParams) (order : list Task)
           (st : ComputeState) : outcome ComputeState :=
  fold_left (fun acc t => s <- acc ;; compute_pixel params (fst t) (snd t) s)
            order (Done st).

Fixpoint chunk_list {A : Type} (fuel size : nat) (l : list A)
  : list (list A) :=
  match fuel with
  | O => []
  | S fuel' =>
      match l with
      | [] => []
      | _ :: _ => firstn size l :: chunk_list fuel' size (skipn size l)
      end
  end.

Definition OMP_CHUNK : nat := 16.

Definition row_chunks (params : MandelbrotParams) : list (list Z) :=
  let rows := zrange (height params) in
  chunk_list (length rows) OMP_CHUNK rows.

(** The chunks whose owner is thread [k], in the order they were cut. *)
Definition chunks_of_thread {A : Type} (owner : nat -> nat) (k : nat)
           (chunks : list (list A)) : list (list A) :=
  map snd
      (filter (fun ic => Nat.eqb (owner (fst ic)) k)
              (combine (seq 0 (length chunks)) chunks)).

Definition thread_tasks (params : MandelbrotParams) (owner : nat -> nat)
           (k : nat) : list Task :=
  flat_map (row_tasks params)
           (concat (chunks_of_thread owner k (row_chunks params))).

Definition omp_threads (params : MandelbrotParams) (threads : nat)
           (owner : nat -> nat) : list (list Task) :=
  map (thread_tasks params owner) (seq 0 threads).

Inductive interleaving {A : Type} : list (list A) -> list A -> Prop :=
| interleaving_done (ls : list (list A)) :
    Forall (fun l => l = []) ls -> interleaving ls []
| interleaving_step (l1 : list (list A)) (x : A) (t : list A)
                    (l2 : list (list A)) (rest : list A) :
    interleaving (l1 ++ t :: l2) rest ->
    interleaving (l1 ++ (x :: t) :: l2) (x :: rest).

(** [order] is a possible execution with [threads] threads. *)
Definition omp_execution (params : MandelbrotParams) (threads : nat)
           (order : list Task) : Prop :=
  exists owner : nat -> nat,
    (forall i, (owner i < threads)%nat) /\
    interleaving (omp_threads params threads owner) order.

(** ** Start-up: [init_parameters] and [main] *)

Definition DEFAULT_WIDTH : Z := 1920.
Definition DEFAULT_HEIGHT : Z := 1080.
Definition DEFAULT_MAX_ITER : Z := 1000.
Definition DEFAULT_ZOOM : R := 1.
Definition DEFAULT_CENTER_X : R := -0.5.
Definition DEFAULT_CENTER_Y : R := 0.
Definition DEFAULT_THREADS : Z := 0.
Definition USE_HISTOGRAM : Z := 1.
Definition USE_SERIES_APPROX : Z := 1.

(** [init_parameters] either fills the parameter block or ends the program
    with [exit (status)]. *)
Inductive startup (A : Type) : Type :=
| Ready (a : A)
| Exit (status : Z).

Arguments Ready {A} a.
Arguments Exit {A} status.

Section CommandLine.

(** The conversions of the C library, and the number of threads OpenMP
    reports ([None] when the program is built without OpenMP).  [atof]
    returns a real: an argument converted to an infinity or to NaN is
    outside the model. *)
Variable atoi : string -> Z.
Variable atof : string -> R.
Variable omp_get_max_threads : option Z.

(** [if (argc >= i + 1) field = convert (argv[i]);] over a default. *)
Definition argument {A : Type} (argv : list string) (i : nat)
           (convert : string -> A) (default : A) : A :=
  match nth_error argv i with
  | Some a => convert a
  | None => default
  end.

Definition init_parameters (argv : list string)
  : startup MandelbrotParams :=
  let width := argument argv 1 atoi DEFAULT_WIDTH in
  let height := argument argv 2 atoi DEFAULT_HEIGHT in
  let max_iterations := argument argv 3 atoi DEFAULT_MAX_ITER in
  let zoom := argument argv 4 atof DEFAULT_ZOOM in
  let center_x := argument argv 5 atof DEFAULT_CENTER_X in
  let center_y := argument argv 6 atof DEFAULT_CENTER_Y in
  let output_filename := argument argv 7 (fun a => a) "ffpga.png"%string in
  let num_threads := argument argv 8 atoi DEFAULT_THREADS in
  if ((width <=? 0) || (height <=? 0))%Z then Exit 1
  else if (max_iterations <=? 0)%Z then Exit 1
  else if Rgeb 0 zoom then Exit 1
  else
    let num_threads :=
      if (num_threads <=? 0)%Z then
        match omp_get_max_threads with
        | Some n => n
        | None => 1%Z
        end
      else num_threads in
    let aspect_ratio := IZR width / IZR height in
    let base_range := 3 / zoom in
    let x_range := base_range * aspect_ratio in
    let y_range := base_range in
    Ready (mkParams width height max_iterations num_threads zoom
                    center_x center_y
                    (center_x - x_range / 2) (center_x + x_range / 2)
                    (center_y - y_range / 2) (center_y + y_range / 2)
                    output_filename USE_HISTOGRAM USE_SERIES_APPROX).

(** [argc == 2 && (strcmp (argv[1], "-h") == 0
                   || strcmp (argv[1], "--help") == 0)] *)
Definition help_requested (argv : list string) : bool :=
  Nat.eqb (length argv) 2
  && match nth_error argv 1 with
     | Some a => String.eqb a "-h" || String.eqb a "--help"
     | None => false
     end.

(** The exit status of the program. *)
Definition main (sys : System) (argv : list string) : outcome Z :=
  if help_requested argv then Done 0%Z
  else
    match init_parameters argv with
    | Exit status => Done status
    | Ready params =>
        rendered <- generate_mandelbrot sys params ;;
        if (return_value rendered =? 0)%Z then Done 1%Z else Done 0%Z
    end.

End CommandLine.

(** ** Reference notions used to state the properties *)

(** One update [z <- z^2 + c] and the orbit it generates:
    [orbit cr ci k] is the value of [z] after [k] updates from the origin. *)
Definition mandel_step (cr ci : R) (z : R * R) : R * R :=
  (fst z * fst z - snd z * snd z + cr, 2 * fst z * snd z + ci).

Fixpoint orbit_from (cr ci : R) (z : R * R) (k : nat) : R * R :=
  match k with
  | O => z
  | S k' => orbit_from cr ci (mandel_step cr ci z) k'
  end.

Definition orbit (cr ci : R) (k : nat) : R * R := orbit_from cr ci (0, 0) k.

Definition magnitude_sq (z : R * R) : R := fst z * fst z + snd z * snd z.

(** The condition under which the evaluator takes the series estimate. *)
Definition series_accepted (cr ci : R) (max_iter : Z) : bool :=
  (MIN_SERIES_ITER <=? max_iter)%Z
  && Rltb 0 (series_approximation cr ci max_iter).

(** The iteration count at which the main loop stops. *)
Definition stop_iteration (cr ci : R) (max_iter : Z) : Z :=
  fst (fst (full_iteration cr ci max_iter)).

(** Sum of the histogram buckets and number of escaped pixels. *)
Definition sum_counts (l : list Z) : Z := fold_right Z.add 0%Z l.

Definition count_escaped (max_iter : Z) (iteration_data : list R) : Z :=
  Z.of_nat (length (filter (fun x => Rltb x (IZR max_iter)) iteration_data)).

(** The evaluator applied to the coordinates of pixel [(px, py)], and the
    valid pixel positions of a frame. *)
Definition pixel_value (params : MandelbrotParams) (py px : Z) : R :=
  evaluate (x_min params + IZR px * x_scale params)
           (y_min params + IZR py * y_scale params)
           (max_iterations params).

Definition valid_task (params : MandelbrotParams) (t : Task) : Prop :=
  (0 <= fst t < height params)%Z /\ (0 <= snd t < width params)%Z.

Definition task_index (params : MandelbrotParams) (t : Task) : nat :=
  Z.to_nat (fst t * width params + snd t).

(** The buffer in which every pixel holds the evaluator's value at its
    own coordinates. *)
Definition frame_values (params : MandelbrotParams) : list R :=
  map (fun j => pixel_value params (j / width params) (j mod width params))
      (zrange (width params * height params)).

(** The frames on which the [int] and [double] arithmetic of the render is
    the exact one.  Each side has more than one pixel: [x_scale] and
    [y_scale] divide by [width - 1] and [height - 1].  The [int] products
    of [generate_mandelbrot], which are [width * height], the pixel base
    [i * 3] of the colouring loop and [100 * progress_pixels] of the
    progress report (an output the model leaves out), stay within
    [INT_MAX].  The window bounds are far from the largest double, so that
    the scale factors and the coordinates are finite. *)
Definition INT_MAX : Z := 2147483647.

Definition WINDOW_MAX : R := 1e300.

Definition frame_in_range (params : MandelbrotParams) : Prop :=
  (1 < width params)%Z /\ (1 < height params)%Z /\
  (100 * (width params * height params) <= INT_MAX)%Z /\
  Rabs (x_min params) <= WINDOW_MAX /\ Rabs (x_max params) <= WINDOW_MAX /\
  Rabs (y_min params) <= WINDOW_MAX /\ Rabs (y_max params) <= WINDOW_MAX.

(** The pixel buffer obtained with the standard mapping alone. *)
Definition pixel_bytes (c : Color) : list Z := [r c; g c; b c].

Definition standard_image (max_iter : Z) (iteration_data : list R) : list Z :=
  flat_map (fun x => pixel_bytes (map_iteration_to_color_standard x max_iter))
           iteration_data.

(** The orbit on points with rational coordinates, run in exact rational
    arithmetic. *)
Definition mandel_step_Q (cr ci : Q) (z : Q * Q) : Q * Q :=
  (fst z * fst z - snd z * snd z + cr, 2 * fst z * snd z + ci)%Q.

Fixpoint orbit_from_Q (cr ci : Q) (z : Q * Q) (k : nat) : Q * Q :=
  match k with
  | O => z
  | S k' => orbit_from_Q cr ci (mandel_step_Q cr ci z) k'
  end.

(** ** The loops on points with integer coordinates

    On such points every intermediate value is an integer, so the loops
    can be run by computation; the lemmas [series_loop_int_sound] and
    [mandel_loop_int_sound] tie them to the loops above. *)

Definition series_step_int (cr ci zr zi dr di : Z)
  : option (Z * Z * (Z * Z)) :=
  if (4 <? zr * zr + zi * zi)%Z then None
  else Some ((zr * zr - zi * zi + cr, 2 * zr * zi + ci),
             (2 * (zr * dr - zi * di) + 1, 2 * (zr * di + zi * dr)))%Z.

Fixpoint series_loop_int (n : nat) (cr ci zr zi dr di : Z)
  : option (Z * Z * (Z * Z)) :=
  match n with
  | O => Some ((zr, zi), (dr, di))
  | S n' =>
      match series_step_int cr ci zr zi dr di with
      | None => None
      | Some ((zr', zi'), (dr', di')) =>
          series_loop_int n' cr ci zr' zi' dr' di'
      end
  end.

Definition embed (z : Z * Z) : Complex :=
  mkComplex (IZR (fst z)) (IZR (snd z)).

Fixpoint mandel_loop_int (fuel : nat) (cr ci : Z) (max_iter : Z)
         (iter : Z) (zr zi : Z) : Z * Z * Z :=
  match fuel with
  | O => (iter, zr, zi)
  | S fuel' =>
      if (iter <? max_iter)%Z then
        if (256 <? zr * zr + zi * zi)%Z then (iter, zr, zi)
        else mandel_loop_int fuel' cr ci max_iter (iter + 1)
                             (zr * zr - zi * zi + cr) (2 * zr * zi + ci)
      else (iter, zr, zi)
  end%Z.

(** Complex conjugation. *)
Definition conj (z : Complex) : Complex := mkComplex (real z) (- imag z).

(** Number of pixels whose truncated result is [b], or at most [b], and
    the largest element of a list of counts. *)
Definition count_bucket (b : Z) (iteration_data : list R) : Z :=
  Z.of_nat (length (filter (fun x => (double_to_int x =? b)%Z)
                           iteration_data)).

Definition count_upto (b : Z) (iteration_data : list R) : Z :=
  Z.of_nat (length (filter (fun x => (double_to_int x <=? b)%Z)
                           iteration_data)).

Definition list_max_Z (l : list Z) : Z := fold_right Z.max 0%Z l.

(** The colour the colouring loop gives to a result, with or without a
    histogram, and the pixel buffer it leaves. *)
Definition select_color (histogram : option Histogram) (max_iter : Z) (x : R)
  : outcome Color :=
  match histogram with
  | Some _ => map_iteration_to_color_histogram x max_iter histogram
  | None => Done (map_iteration_to_color_standard x max_iter)
  end.

Definition color_or_black (o : outcome Color) : Color :=
  match o with
  | Done c => c
  | Fault _ => black
  end.

Definition colored_image (histogram : option Histogram) (max_iter : Z)
           (iteration_data : list R) : list Z :=
  flat_map (fun x => pixel_bytes
                       (color_or_black (select_color histogram max_iter x)))
           iteration_data.

(** The pixels of a frame in source order, and the two shortcuts the
    evaluator may take on a pixel. *)
Definition frame_tasks (params : MandelbrotParams) : list Task :=
  flat_map (row_tasks params) (zrange (height params)).

Definition fast_rejected (params : MandelbrotParams) (t : Task) : bool :=
  quick_mandelbrot_check (x_min params + IZR (snd t) * x_scale params)
                         (y_min params + IZR (fst t) * y_scale params).

Definition series_estimated (params : MandelbrotParams) (t : Task) : bool :=
  negb (fast_rejected params t)
  && series_accepted (x_min params + IZR (snd t) * x_scale params)
                     (y_min params + IZR (fst t) * y_scale params)
                     (max_iterations params).

Definition count_tasks (f : Task -> bool) (l : list Task) : Z :=
  Z.of_nat (length (filter f l)).

(** * Properties *)

(** ** Boolean comparisons *)

Lemma Rltb_true (x y : R) : Rltb x y = true <-> x < y.
Proof. unfold Rltb; destruct (Rlt_dec x y); split; intros; try easy; lra. Qed.

Lemma Rltb_false (x y : R) : Rltb x y = false <-> y <= x.
Proof. unfold Rltb; destruct (Rlt_dec x y); split; intros; try easy; lra. Qed.

Lemma Rgeb_true (x y : R) : Rgeb x y = true <-> y <= x.
Proof. unfold Rgeb; destruct (Rle_dec y x); split; intros; try easy; lra. Qed.

Lemma Rgeb_false (x y : R) : Rgeb x y = false <-> x < y.
Proof. unfold Rgeb; destruct (Rle_dec y x); split; intros; try easy; lra. Qed.

Ltac Rcmp :=
  repeat match goal with
  | H : Rltb _ _ = true |- _ => apply Rltb_true in H
  | H : Rltb _ _ = false |- _ => apply Rltb_false in H
  | H : Rgeb _ _ = true |- _ => apply Rgeb_true in H
  | H : Rgeb _ _ = false |- _ => apply Rgeb_false in H
  end.

(** ** Fast rejection *)

(** The detector of C-FFPGAv2 is the pair of closed-form tests: it answers
    true exactly when the main-cardioid test or the period-2 bulb test of
    the specification holds, and false otherwise. *)
Lemma quick_mandelbrot_check_spec (cr ci : R) :
  (quick_mandelbrot_check cr ci = true <->
   spec_in_cardioid cr ci \/ spec_in_bulb cr ci) /\
  (quick_mandelbrot_check cr ci = false <->
   ~ (spec_in_cardioid cr ci \/ spec_in_bulb cr ci)).
Proof.
  assert (E : quick_mandelbrot_check cr ci = true <->
              spec_in_cardioid cr ci \/ spec_in_bulb cr ci).
  { unfold quick_mandelbrot_check, spec_in_cardioid, spec_in_bulb; cbv zeta.
    destruct (Rltb _ (0.25 * ci * ci)) eqn:Hc.
    - Rcmp; split; [intros _; left; nra | reflexivity].
    - destruct (Rltb _ 0.0625) eqn:Hb; Rcmp.
      + split; [intros _; right; nra | reflexivity].
      + split; [discriminate | intros [H | H]; exfalso; nra]. }
  split; [exact E |].
  rewrite <- E. destruct (quick_mandelbrot_check cr ci); split; intros; easy.
Qed.

(** The detector of the older generator misses the origin, which passes
    the cardioid test of the specification. *)
Lemma quick_ffpga_check_differs :
  V1.quick_ffpga_check 0 0 = false /\
  (spec_in_cardioid 0 0 \/ spec_in_bulb 0 0).
Proof.
  split.
  - unfold V1.quick_ffpga_check; cbv zeta.
    replace (Rltb ((0 + 1) * (0 + 1) + 0 * 0) 0.0625) with false
      by (symmetry; apply Rltb_false; lra).
    replace (Rltb ((0 + 1.25) * (0 + 1.25) + 0 * 0) 0.0625) with false
      by (symmetry; apply Rltb_false; lra).
    reflexivity.
  - left. unfold spec_in_cardioid; cbv zeta. lra.
Qed.

(** ** Colour of set members *)

(** C8: a result [r >= max_iter] is mapped to black by the standard
    mapper and, whatever the histogram (absent included), by the
    histogram mapper. *)
Theorem set_member_is_black (smooth_iter : R) (max_iter : Z)
        (histogram : option Histogram) :
  IZR max_iter <= smooth_iter ->
  map_iteration_to_color_standard smooth_iter max_iter = mkColor 0 0 0 /\
  map_iteration_to_color_histogram smooth_iter max_iter histogram
  = Done (mkColor 0 0 0).
Proof.
  intros H. apply Rgeb_true in H.
  unfold map_iteration_to_color_standard, map_iteration_to_color_histogram.
  rewrite H. split; reflexivity.
Qed.

Lemma set_member_is_black_witness :
  map_iteration_to_color_standard 100 100 = mkColor 0 0 0 /\
  map_iteration_to_color_histogram 100 100
    (Some (mkHistogram [3%Z; 1%Z] 4 3)) = Done (mkColor 0 0 0).
Proof. apply (set_member_is_black 100 100); lra. Defined.

(** ** Integer points are evaluated exactly *)

Lemma Rltb_IZR (a b : Z) : Rltb (IZR a) (IZR b) = (a <? b)%Z.
Proof.
  destruct (a <? b)%Z eqn:E.
  - apply Rltb_true, IZR_lt, Z.ltb_lt, E.
  - apply Rltb_false, IZR_le, Z.ltb_ge, E.
Qed.

Lemma series_loop_int_sound (n : nat) (cr ci zr zi dr di : Z) :
  series_loop n (embed (cr, ci)) (embed (zr, zi)) (embed (dr, di))
  = option_map (fun p => (embed (fst p), embed (snd p)))
               (series_loop_int n cr ci zr zi dr di).
Proof.
  revert zr zi dr di; induction n as [|n IH]; intros; [reflexivity|].
  cbn [series_loop series_loop_int].
  unfold series_step, series_step_int, embed; cbn [real imag fst snd].
  unfold ESCAPE_RADIUS_SQ.
  replace (IZR zr * IZR zr + IZR zi * IZR zi) with (IZR (zr * zr + zi * zi))
    by (rewrite plus_IZR, !mult_IZR; ring).
  rewrite Rltb_IZR.
  destruct (4 <? zr * zr + zi * zi)%Z; [reflexivity|].
  rewrite <- IH. unfold embed; cbn [fst snd].
  f_equal; f_equal;
    repeat (rewrite ?plus_IZR, ?minus_IZR, ?mult_IZR); ring.
Qed.

Lemma mandel_loop_int_sound (fuel : nat) (cr ci max_iter iter zr zi : Z) :
  mandel_loop fuel (IZR cr) (IZR ci) max_iter iter (IZR zr) (IZR zi)
  = let '(it, a, b) := mandel_loop_int fuel cr ci max_iter iter zr zi in
    (it, IZR a, IZR b).
Proof.
  revert iter zr zi; induction fuel as [|fuel IH]; intros; [reflexivity|].
  cbn [mandel_loop mandel_loop_int].
  destruct (iter <? max_iter)%Z; [|reflexivity].
  unfold BAILOUT_TEST.
  replace (IZR zr * IZR zr + IZR zi * IZR zi) with (IZR (zr * zr + zi * zi))
    by (rewrite plus_IZR, !mult_IZR; ring).
  rewrite Rltb_IZR.
  destruct (256 <? zr * zr + zi * zi)%Z; [reflexivity|].
  rewrite <- IH. f_equal;
    repeat (rewrite ?plus_IZR, ?minus_IZR, ?mult_IZR); ring.
Qed.

(** ** Series approximation *)

Lemma series_loop_escape (n : nat) (cr ci zr zi : R) (dz : Complex) :
  series_loop n (mkComplex cr ci) (mkComplex zr zi) dz = None <->
  exists k, (k < n)%nat /\
            ESCAPE_RADIUS_SQ < magnitude_sq (orbit_from cr ci (zr, zi) k).
Proof.
  revert zr zi dz; induction n as [|n IH]; intros zr zi dz.
  - split; [discriminate | intros (k & Hk & _); lia].
  - cbn [series_loop]. unfold series_step; cbn [real imag].
    destruct (Rltb ESCAPE_RADIUS_SQ (zr * zr + zi * zi)) eqn:E; Rcmp.
    + split; [intros _ | reflexivity].
      exists O; split; [lia | exact E].
    + rewrite IH. split.
      * intros (k & Hk & H). exists (S k); split; [lia | exact H].
      * intros (k & Hk & H). destruct k as [|k].
        -- unfold magnitude_sq in H; cbn in H; lra.
        -- exists k; split; [lia | exact H].
Qed.

Lemma series_accepted_value (cr ci : R) (max_iter : Z) :
  series_approximation cr ci max_iter <> -1 ->
  exists est,
    series_approximation cr ci max_iter = IZR SERIES_TERMS + est /\
    0 < est < IZR (max_iter - SERIES_TERMS).
Proof.
  unfold series_approximation.
  destruct (max_iter <? MIN_SERIES_ITER)%Z; [congruence|].
  destruct (series_loop _ _ _ _) as [[z dz]|]; [|congruence].
  cbv zeta. destruct (Rltb 1e-10 _); [|congruence].
  destruct (Rltb 0 (series_estimate z dz)) eqn:E1; [|cbn; congruence].
  destruct (Rltb (series_estimate z dz) _) eqn:E2; [|cbn; congruence].
  cbn. intros _. exists (series_estimate z dz). Rcmp. auto.
Qed.

Lemma series_value_below (cr ci : R) (max_iter : Z) :
  series_approximation cr ci max_iter <> -1 ->
  IZR SERIES_TERMS < series_approximation cr ci max_iter < IZR max_iter.
Proof.
  intros H. destruct (series_accepted_value _ _ _ H) as (est & -> & H0 & H1).
  rewrite minus_IZR in H1. lra.
Qed.

Lemma evaluate_fallthrough (cr ci : R) (max_iter : Z) :
  quick_mandelbrot_check cr ci = false ->
  series_accepted cr ci max_iter = false ->
  evaluate cr ci max_iter = escape_time cr ci max_iter.
Proof.
  unfold evaluate, calculate_mandelbrot_optimized, series_accepted.
  intros -> ->. reflexivity.
Qed.


(** ** The main loop *)

Lemma mandel_loop_safe_prefix (n : nat) :
  forall (fuel : nat) (cr ci : R) (max_iter iter : Z) (z : R * R),
    (forall j, (j < n)%nat ->
               magnitude_sq (orbit_from cr ci z j) <= BAILOUT_TEST) ->
    (iter + Z.of_nat n <= max_iter)%Z ->
    (n <= fuel)%nat ->
    mandel_loop fuel cr ci max_iter iter (fst z) (snd z)
    = mandel_loop (fuel - n) cr ci max_iter (iter + Z.of_nat n)
                  (fst (orbit_from cr ci z n)) (snd (orbit_from cr ci z n)).
Proof.
  induction n as [|n IH]; intros fuel cr ci max_iter iter z Hsafe Hm Hf.
  - cbn [orbit_from Z.of_nat]. rewrite Z.add_0_r, Nat.sub_0_r. reflexivity.
  - destruct fuel as [|fuel]; [lia|].
    cbn [mandel_loop].
    replace (iter <? max_iter)%Z with true
      by (symmetry; apply Z.ltb_lt; lia).
    replace (Rltb BAILOUT_TEST (fst z * fst z + snd z * snd z)) with false
      by (symmetry; apply Rltb_false; apply (Hsafe O); lia).
    change (fst z * fst z - snd z * snd z + cr)
      with (fst (mandel_step cr ci z)).
    change (2 * fst z * snd z + ci) with (snd (mandel_step cr ci z)).
    rewrite (IH fuel cr ci max_iter (iter + 1)%Z (mandel_step cr ci z)).
    + cbn [orbit_from]. replace (S fuel - S n)%nat with (fuel - n)%nat by lia.
      replace (iter + 1 + Z.of_nat n)%Z with (iter + Z.of_nat (S n))%Z by lia.
      reflexivity.
    + intros j Hj. apply (Hsafe (S j)). lia.
    + lia.
    + lia.
Qed.

(** The loop stops at the first iterate beyond the bailout... *)
Lemma mandel_loop_first_escape (n fuel : nat) (cr ci : R) (max_iter : Z) :
  (forall j, (j < n)%nat ->
             magnitude_sq (orbit cr ci j) <= BAILOUT_TEST) ->
  BAILOUT_TEST < magnitude_sq (orbit cr ci n) ->
  (Z.of_nat n < max_iter)%Z ->
  (n < fuel)%nat ->
  mandel_loop fuel cr ci max_iter 0 0 0
  = (Z.of_nat n, fst (orbit cr ci n), snd (orbit cr ci n)).
Proof.
  intros Hsafe Hesc Hm Hf.
  change (mandel_loop fuel cr ci max_iter 0 0 0)
    with (mandel_loop fuel cr ci max_iter 0 (fst (0, 0)) (snd (0, 0))).
  rewrite (mandel_loop_safe_prefix n); [| exact Hsafe | lia | lia].
  destruct (fuel - n)%nat as [|f] eqn:E; [lia|].
  cbn [mandel_loop]. rewrite Z.add_0_l.
  replace (Z.of_nat n <? max_iter)%Z with true
    by (symmetry; apply Z.ltb_lt; lia).
  fold (orbit cr ci n). fold (magnitude_sq (orbit cr ci n)).
  replace (Rltb BAILOUT_TEST (magnitude_sq (orbit cr ci n))) with true
    by (symmetry; apply Rltb_true; exact Hesc).
  reflexivity.
Qed.

(** ... and runs to [max_iter] when no earlier iterate is beyond it. *)
Lemma mandel_loop_no_escape (cr ci : R) (max_iter : Z) :
  (0 <= max_iter)%Z ->
  (forall j, (Z.of_nat j < max_iter)%Z ->
             magnitude_sq (orbit cr ci j) <= BAILOUT_TEST) ->
  stop_iteration cr ci max_iter = max_iter.
Proof.
  intros H0 Hsafe. unfold stop_iteration, full_iteration.
  change (mandel_loop (Z.to_nat max_iter) cr ci max_iter 0 0 0)
    with (mandel_loop (Z.to_nat max_iter) cr ci max_iter 0
                      (fst (0, 0)) (snd (0, 0))).
  rewrite (mandel_loop_safe_prefix (Z.to_nat max_iter)); try lia.
  - rewrite Nat.sub_diag. cbn [mandel_loop fst]. lia.
  - intros j Hj. apply Hsafe. lia.
Qed.

Lemma mandel_loop_bounds (fuel : nat) :
  forall (cr ci : R) (max_iter iter : Z) (zr zi : R),
    (iter <= max_iter)%Z ->
    (Z.to_nat (max_iter - iter) <= fuel)%nat ->
    let '(it, a, b) := mandel_loop fuel cr ci max_iter iter zr zi in
    (iter <= it <= max_iter)%Z /\
    ((it < max_iter)%Z -> BAILOUT_TEST < a * a + b * b).
Proof.
  induction fuel as [|fuel IH]; intros cr ci max_iter iter zr zi Hi Hf.
  - cbn [mandel_loop]. split; lia.
  - cbn [mandel_loop].
    destruct (iter <? max_iter)%Z eqn:E.
    + apply Z.ltb_lt in E.
      destruct (Rltb BAILOUT_TEST (zr * zr + zi * zi)) eqn:Eb; Rcmp.
      * split; [lia | intros _; exact Eb].
      * specialize (IH cr ci max_iter (iter + 1)%Z
                       (zr * zr - zi * zi + cr) (2 * zr * zi + ci)).
        destruct (mandel_loop fuel cr ci max_iter (iter + 1) _ _)
          as [[it a] b0].
        destruct IH as [IH1 IH2]; [lia | lia |].
        split; [lia | exact IH2].
    + apply Z.ltb_ge in E. split; lia.
Qed.

(** ** Bounds on the logarithms of the smoothing formula *)

Lemma exp_1_gt_2 : 2 < exp 1.
Proof. pose proof (exp_ineq1 1). lra. Qed.

Lemma ln_2_bounds : 0 < ln 2 < 1.
Proof.
  split.
  - rewrite <- ln_1. apply ln_increasing; lra.
  - replace 1 with (ln (exp 1)) by apply ln_exp.
    apply ln_increasing; [lra | apply exp_1_gt_2].
Qed.

Lemma ln_above_4 (x : R) : BAILOUT_TEST < x -> 4 < ln x.
Proof.
  unfold BAILOUT_TEST. intros H.
  assert (E : exp 4 <= 81).
  { replace 4 with (1 + 1 + 1 + 1) by lra. rewrite !exp_plus.
    pose proof exp_le_3 as H3. pose proof (exp_pos 1) as H1.
    assert (H9 : exp 1 * exp 1 <= 9) by nra.
    assert (0 < exp 1 * exp 1) by nra.
    replace (exp 1 * exp 1 * exp 1 * exp 1)
      with ((exp 1 * exp 1) * (exp 1 * exp 1)) by ring.
    nra. }
  rewrite <- (ln_exp 4). apply ln_increasing; [apply exp_pos | lra].
Qed.

Lemma log2_above_1 (y : R) : 2 < y -> 1 < log2 y.
Proof.
  intros H. unfold log2. pose proof ln_2_bounds as [L0 L1].
  assert (ln 2 < ln y) by (apply ln_increasing; lra).
  apply (Rmult_lt_reg_r (ln 2)); [exact L0|].
  unfold Rdiv. rewrite Rmult_assoc, Rinv_l by lra. lra.
Qed.

Lemma log2_below_3 (y : R) : 0 < y < 8 -> log2 y < 3.
Proof.
  intros H. unfold log2. pose proof ln_2_bounds as [L0 L1].
  assert (ln y < ln 8) by (apply ln_increasing; lra).
  assert (E8 : ln 8 = 3 * ln 2).
  { replace 8 with (2 * (2 * 2)) by lra. rewrite !ln_mult by lra. lra. }
  apply (Rmult_lt_reg_r (ln 2)); [exact L0|].
  unfold Rdiv. rewrite Rmult_assoc, Rinv_l by lra. lra.
Qed.

(** ** Range of the evaluator *)

Lemma escape_time_range (cr ci : R) (max_iter : Z) :
  (0 < max_iter)%Z ->
  0 <= escape_time cr ci max_iter <= IZR max_iter /\
  (escape_time cr ci max_iter = IZR max_iter <->
   stop_iteration cr ci max_iter = max_iter).
Proof.
  intros Hm. unfold escape_time, stop_iteration, full_iteration.
  pose proof (mandel_loop_bounds (Z.to_nat max_iter) cr ci max_iter 0 0 0)
    as Hb.
  destruct (mandel_loop (Z.to_nat max_iter) cr ci max_iter 0 0 0)
    as [[it a] b0].
  destruct Hb as [Hit Hesc]; [lia | lia |]. cbn [fst].
  assert (Hpos : 0 < IZR max_iter) by (apply IZR_lt; lia).
  destruct (it <? max_iter)%Z eqn:E.
  - apply Z.ltb_lt in E. specialize (Hesc E).
    assert (Hl : 1 < log2 (0.5 * ln (a * a + b0 * b0))).
    { apply log2_above_1. pose proof (ln_above_4 _ Hesc). lra. }
    assert (Hi : IZR it <= IZR max_iter - 1).
    { rewrite <- minus_IZR. apply IZR_le. lia. }
    cbv zeta.
    destruct (Rltb 0 _) eqn:E0; Rcmp.
    + split; [lra|]. split; [intros; lra | intros; lia].
    + split; [lra|]. split; [intros; lra | intros; lia].
  - apply Z.ltb_ge in E. split; [lra|].
    split; [intros; lia | reflexivity].
Qed.

(** C1, as amended: for [max_iter > 0] the evaluator returns a value in
    [[0, max_iter]].  A fast-rejected point gets [max_iter].  Otherwise,
    when the series estimate is taken the value is that estimate, at least
    [SERIES_TERMS] and at most [max_iter], whatever the orbit does; when it
    is not taken the value is [max_iter] precisely when the main loop runs
    to [max_iter] without an iterate beyond the bailout, and strictly
    smaller when the loop stops earlier. *)
Theorem evaluate_range (cr ci : R) (max_iter : Z) :
  (0 < max_iter)%Z ->
  0 <= evaluate cr ci max_iter <= IZR max_iter /\
  (quick_mandelbrot_check cr ci = true ->
   evaluate cr ci max_iter = IZR max_iter) /\
  (quick_mandelbrot_check cr ci = false ->
   series_accepted cr ci max_iter = true ->
   evaluate cr ci max_iter = series_approximation cr ci max_iter /\
   IZR SERIES_TERMS <= evaluate cr ci max_iter) /\
  (quick_mandelbrot_check cr ci = false ->
   series_accepted cr ci max_iter = false ->
   (evaluate cr ci max_iter = IZR max_iter <->
    stop_iteration cr ci max_iter = max_iter)).
Proof.
  intros Hm.
  assert (Hpos : 0 < IZR max_iter) by (apply IZR_lt; lia).
  destruct (quick_mandelbrot_check cr ci) eqn:Hq.
  - assert (E : evaluate cr ci max_iter = IZR max_iter).
    { unfold evaluate, calculate_mandelbrot_optimized. rewrite Hq.
      reflexivity. }
    rewrite E. split; [lra|].
    split; [reflexivity|]. split; intros; discriminate.
  - destruct (series_accepted cr ci max_iter) eqn:Hs.
    + assert (E : evaluate cr ci max_iter
                  = series_approximation cr ci max_iter).
      { unfold evaluate, calculate_mandelbrot_optimized.
        rewrite Hq. unfold series_accepted in Hs. rewrite Hs. reflexivity. }
      unfold series_accepted in Hs. apply andb_prop in Hs as [_ Hs]. Rcmp.
      assert (Hne : series_approximation cr ci max_iter <> -1) by lra.
      pose proof (series_value_below _ _ _ Hne) as [Hlo Hhi].
      rewrite E. split; [lra|].
      split; [discriminate|].
      split; [intros _ _; split; [reflexivity | lra] | discriminate].
    + rewrite (evaluate_fallthrough _ _ _ Hq Hs).
      pose proof (escape_time_range cr ci max_iter Hm) as [Hr Hiff].
      split; [exact Hr|].
      split; [discriminate|].
      split; [discriminate | intros _ _; exact Hiff].
Qed.

(** ** The point [c = i]: a bounded orbit that the series estimate misjudges *)

Lemma orbit_i_cycle (k : nat) (z : R * R) :
  z = (-1, 1) \/ z = (0, -1) ->
  magnitude_sq (orbit_from 0 1 z k) <= 2.
Proof.
  revert z; induction k as [|k IH]; intros z Hz.
  - cbn [orbit_from]. unfold magnitude_sq.
    destruct Hz as [-> | ->]; cbn [fst snd]; lra.
  - cbn [orbit_from]. apply IH.
    destruct Hz as [-> | ->]; unfold mandel_step; cbn [fst snd];
      [right | left]; f_equal; lra.
Qed.

Lemma orbit_i_bounded (k : nat) : magnitude_sq (orbit 0 1 k) <= 2.
Proof.
  unfold orbit. destruct k as [|[|k]].
  - unfold magnitude_sq; cbn. lra.
  - unfold magnitude_sq; cbn. lra.
  - cbn [orbit_from]. apply orbit_i_cycle. left.
    unfold mandel_step; cbn [fst snd]. f_equal; lra.
Qed.

Lemma series_loop_at_i :
  series_loop 8 (mkComplex 0 1) (mkComplex 0 0) (mkComplex 1 0)
  = Some (mkComplex (-1) 1, mkComplex (-307) (-102)).
Proof.
  change (series_loop 8 (embed (0, 1)%Z) (embed (0, 0)%Z) (embed (1, 0)%Z)
          = Some (embed (-1, 1)%Z, embed (-307, -102)%Z)).
  rewrite series_loop_int_sound.
  assert (E : series_loop_int 8 0 1 0 0 1 0
              = Some ((-1, 1), (-307, -102))%Z) by (vm_compute; reflexivity).
  rewrite E. reflexivity.
Qed.

Lemma series_estimate_at_i :
  1e-10 < sqrt (-307 * -307 + -102 * -102) /\
  0 < series_estimate (mkComplex (-1) 1) (mkComplex (-307) (-102)) < 1.
Proof.
  unfold series_estimate, ESCAPE_RADIUS; cbn [real imag].
  set (dzm := sqrt (-307 * -307 + -102 * -102)).
  set (zm := sqrt (-1 * -1 + 1 * 1)).
  assert (Hd : 3 < dzm).
  { replace 3 with (sqrt (3 * 3)) by (apply sqrt_square; lra).
    apply sqrt_lt_1; lra. }
  assert (Hz1 : 1 < zm).
  { replace 1 with (sqrt (1 * 1)) at 1 by (apply sqrt_square; lra).
    apply sqrt_lt_1; lra. }
  assert (Hz2 : zm < 2).
  { replace 2 with (sqrt (2 * 2)) by (apply sqrt_square; lra).
    apply sqrt_lt_1; lra. }
  assert (Hq : 1 < 2 / zm < 2).
  { split.
    - apply (Rmult_lt_reg_r zm); [lra|].
      unfold Rdiv. rewrite Rmult_assoc, Rinv_l by lra. lra.
    - apply (Rmult_lt_reg_r zm); [lra|].
      unfold Rdiv. rewrite Rmult_assoc, Rinv_l by lra. lra. }
  pose proof ln_2_bounds as [L0 L1].
  assert (Ha : 0 < ln (2 / zm) < 1).
  { split.
    - rewrite <- ln_1. apply ln_increasing; lra.
    - apply Rlt_trans with (ln 2); [apply ln_increasing; lra | exact L1]. }
  assert (Hb : 1 < ln dzm).
  { replace 1 with (ln (exp 1)) by apply ln_exp.
    apply ln_increasing; [apply exp_pos |].
    pose proof exp_le_3. lra. }
  split; [lra|].
  split.
  - apply Rdiv_lt_0_compat; lra.
  - apply (Rmult_lt_reg_r (ln dzm)); [lra|].
    unfold Rdiv. rewrite Rmult_assoc, Rinv_l by lra. nra.
Qed.

Lemma series_approximation_at_i :
  8 < series_approximation 0 1 100 < 9.
Proof.
  unfold series_approximation.
  replace (100 <? MIN_SERIES_ITER)%Z with false by reflexivity.
  replace (seed_passes 100) with 8%nat by reflexivity.
  rewrite series_loop_at_i. cbv zeta. cbn [real imag].
  destruct series_estimate_at_i as [Hd [H0 H1]].
  replace (Rltb 1e-10 _) with true by (symmetry; apply Rltb_true; exact Hd).
  replace (Rltb 0 _) with true by (symmetry; apply Rltb_true; exact H0).
  replace (Rltb _ (IZR (100 - SERIES_TERMS))) with true.
  - cbn [andb]. unfold SERIES_TERMS. lra.
  - symmetry; apply Rltb_true. unfold SERIES_TERMS.
    replace (100 - 8)%Z with 92%Z by reflexivity. lra.
Qed.

(** C1, as stated, fails at [c = i] with [max_iter = 100]: the orbit stays
    within squared magnitude 2 for ever, the main loop would run to 100
    without escape, yet the evaluator returns the series estimate, a value
    below 9. *)
Lemma evaluate_series_on_bounded_orbit :
  (forall k, magnitude_sq (orbit 0 1 k) <= 2) /\
  stop_iteration 0 1 100 = 100%Z /\
  evaluate 0 1 100 < 9 /\
  ~ (evaluate 0 1 100 = IZR 100 <->
     quick_mandelbrot_check 0 1 = true \/ stop_iteration 0 1 100 = 100%Z).
Proof.
  assert (Hstop : stop_iteration 0 1 100 = 100%Z).
  { apply mandel_loop_no_escape; [lia|].
    intros j _. pose proof (orbit_i_bounded j). unfold BAILOUT_TEST. lra. }
  assert (Hval : evaluate 0 1 100 < 9).
  { unfold evaluate, calculate_mandelbrot_optimized.
    replace (quick_mandelbrot_check 0 1) with false.
    - pose proof series_approximation_at_i as [H8 H9].
      replace (MIN_SERIES_ITER <=? 100)%Z with true by reflexivity.
      replace (Rltb 0 (series_approximation 0 1 100)) with true
        by (symmetry; apply Rltb_true; lra).
      cbn [andb fst]. exact H9.
    - symmetry. unfold quick_mandelbrot_check; cbv zeta.
      replace (Rltb _ (0.25 * 1 * 1)) with false
        by (symmetry; apply Rltb_false; lra).
      replace (Rltb _ 0.0625) with false
        by (symmetry; apply Rltb_false; lra).
      reflexivity. }
  repeat split; [apply orbit_i_bounded | exact Hstop | exact Hval |].
  intros [_ H]. specialize (H (or_intror Hstop)). lra.
Qed.

(** ** The point [(2, 2)] *)

Lemma orbit_2_2 :
  orbit 2 2 0 = (0, 0) /\ orbit 2 2 1 = (2, 2) /\
  orbit 2 2 2 = (2, 10) /\ orbit 2 2 3 = (-94, 42).
Proof.
  unfold orbit; cbn [orbit_from]; unfold mandel_step; cbn [fst snd].
  repeat split; f_equal; lra.
Qed.

Lemma quick_check_2_2 : quick_mandelbrot_check 2 2 = false.
Proof.
  unfold quick_mandelbrot_check; cbv zeta.
  replace (Rltb _ (0.25 * 2 * 2)) with false
    by (symmetry; apply Rltb_false; lra).
  replace (Rltb _ 0.0625) with false by (symmetry; apply Rltb_false; lra).
  reflexivity.
Qed.

Lemma series_rejects_2_2 (max_iter : Z) :
  series_accepted 2 2 max_iter = false.
Proof.
  unfold series_accepted.
  destruct (MIN_SERIES_ITER <=? max_iter)%Z eqn:E; [|reflexivity].
  apply Z.leb_le in E. unfold MIN_SERIES_ITER in E. cbn [andb].
  apply Rltb_false.
  assert (Hs : series_approximation 2 2 max_iter = -1).
  { unfold series_approximation.
    replace (max_iter <? MIN_SERIES_ITER)%Z with false
      by (symmetry; apply Z.ltb_ge; unfold MIN_SERIES_ITER; lia).
    assert (Hn : series_loop (seed_passes max_iter) (mkComplex 2 2)
                             (mkComplex 0 0) (mkComplex 1 0) = None).
    { apply series_loop_escape. exists 1%nat. split.
      - unfold seed_passes, SERIES_TERMS.
        rewrite Z.quot_div_nonneg by lia.
        assert (2 <= max_iter / 4)%Z by (apply Z.div_le_lower_bound; lia).
        lia.
      - pose proof orbit_2_2 as (_ & H1 & _). unfold orbit in H1.
        rewrite H1. unfold magnitude_sq, ESCAPE_RADIUS_SQ; cbn [fst snd]. lra. }
    rewrite Hn. reflexivity. }
  rewrite Hs. lra.
Qed.

Lemma stop_2_2_late (max_iter : Z) :
  (4 <= max_iter)%Z ->
  full_iteration 2 2 max_iter = (3%Z, -94, 42).
Proof.
  intros Hm. unfold full_iteration.
  pose proof orbit_2_2 as (H0 & H1 & H2 & H3).
  rewrite (mandel_loop_first_escape 3); try lia.
  - rewrite H3. reflexivity.
  - intros j Hj. unfold BAILOUT_TEST, magnitude_sq.
    destruct j as [|[|[|j]]]; [rewrite H0 | rewrite H1 | rewrite H2 | lia];
      cbn [fst snd]; lra.
  - rewrite H3. unfold BAILOUT_TEST, magnitude_sq; cbn [fst snd]. lra.
Qed.

Lemma stop_2_2_early (max_iter : Z) :
  (0 < max_iter <= 3)%Z -> stop_iteration 2 2 max_iter = max_iter.
Proof.
  intros Hm. apply mandel_loop_no_escape; [lia|].
  pose proof orbit_2_2 as (H0 & H1 & H2 & _).
  intros j Hj. unfold BAILOUT_TEST, magnitude_sq.
  destruct j as [|[|[|j]]]; [rewrite H0 | rewrite H1 | rewrite H2 | lia];
    cbn [fst snd]; lra.
Qed.

Lemma ln_10600_bounds : 4 < ln 10600 < 16.
Proof.
  split; [apply ln_above_4; unfold BAILOUT_TEST; lra|].
  pose proof ln_2_bounds as [L0 L1].
  assert (E : ln 65536 = 16 * ln 2).
  { replace 65536 with ((2 * 2 * (2 * 2)) * (2 * 2 * (2 * 2))
                        * ((2 * 2 * (2 * 2)) * (2 * 2 * (2 * 2)))) by lra.
    rewrite !ln_mult by lra. lra. }
  assert (ln 10600 < ln 65536) by (apply ln_increasing; lra).
  lra.
Qed.

Lemma smooth_2_2_bounds : 1 < 3 + 1 - log2 (0.5 * ln 10600) < 3.
Proof.
  pose proof ln_10600_bounds as [H4 H16].
  pose proof (log2_above_1 (0.5 * ln 10600)).
  pose proof (log2_below_3 (0.5 * ln 10600)).
  lra.
Qed.

Lemma evaluate_2_2_late (max_iter : Z) :
  (4 <= max_iter)%Z ->
  evaluate 2 2 max_iter = 3 + 1 - log2 (0.5 * ln 10600).
Proof.
  intros Hm.
  rewrite (evaluate_fallthrough _ _ _ quick_check_2_2 (series_rejects_2_2 _)).
  unfold escape_time. rewrite (stop_2_2_late _ Hm).
  replace (3 <? max_iter)%Z with true by (symmetry; apply Z.ltb_lt; lia).
  cbv zeta. replace (-94 * -94 + 42 * 42) with 10600 by lra.
  pose proof smooth_2_2_bounds as [H1 H3].
  replace (Rltb 0 _) with true by (symmetry; apply Rltb_true; lra).
  reflexivity.
Qed.

Lemma evaluate_2_2_early (max_iter : Z) :
  (0 < max_iter <= 3)%Z -> evaluate 2 2 max_iter = IZR max_iter.
Proof.
  intros Hm.
  rewrite (evaluate_fallthrough _ _ _ quick_check_2_2 (series_rejects_2_2 _)).
  apply escape_time_range; [lia | apply stop_2_2_early, Hm].
Qed.

(** The three branches of the evaluator at the origin, at [c = i] and at
    [(2, 2)]. *)
Lemma quick_check_origin : quick_mandelbrot_check 0 0 = true.
Proof.
  unfold quick_mandelbrot_check; cbv zeta.
  replace (Rltb _ (0.25 * 0 * 0)) with true
    by (symmetry; apply Rltb_true; lra).
  reflexivity.
Qed.

Lemma quick_check_i : quick_mandelbrot_check 0 1 = false.
Proof.
  unfold quick_mandelbrot_check; cbv zeta.
  replace (Rltb _ (0.25 * 1 * 1)) with false
    by (symmetry; apply Rltb_false; lra).
  replace (Rltb _ 0.0625) with false by (symmetry; apply Rltb_false; lra).
  reflexivity.
Qed.

Lemma series_accepted_i : series_accepted 0 1 100 = true.
Proof.
  unfold series_accepted. pose proof series_approximation_at_i as [H8 _].
  replace (Rltb 0 (series_approximation 0 1 100)) with true
    by (symmetry; apply Rltb_true; lra).
  reflexivity.
Qed.

Lemma evaluate_range_witness :
  evaluate 0 0 5 = IZR 5 /\
  (evaluate 0 1 100 = series_approximation 0 1 100 /\
   IZR SERIES_TERMS <= evaluate 0 1 100 <= IZR 100) /\
  (0 <= evaluate 2 2 50 <= IZR 50 /\ evaluate 2 2 50 <> IZR 50).
Proof.
  split; [|split].
  - destruct (evaluate_range 0 0 5 ltac:(lia)) as (_ & Hq & _).
    exact (Hq quick_check_origin).
  - destruct (evaluate_range 0 1 100 ltac:(lia)) as (Hr & _ & Hs & _).
    destruct (Hs quick_check_i series_accepted_i) as [E Hlo].
    split; [exact E | split; [exact Hlo | apply Hr]].
  - destruct (evaluate_range 2 2 50 ltac:(lia)) as (Hr & _ & _ & Hl).
    split; [exact Hr|].
    intros E.
    apply (Hl quick_check_2_2 (series_rejects_2_2 50)) in E.
    unfold stop_iteration in E. rewrite (stop_2_2_late 50) in E by lia.
    cbn in E. lia.
Defined.



(** C2, as amended: at [(2, 2)] the loop tests against the bailout 256,
    so for every [max_iter >= 4] it stops at iteration 3 (the iterate
    [(-94, 42)]), whatever [max_iter] is, and the evaluator returns
    [4 - log2 (0.5 * ln 10600)], a value below 3; for [max_iter <= 3] no
    escape is seen and [max_iter] is returned. *)
Theorem escape_of_2_2 (max_iter : Z) :
  (0 < max_iter)%Z ->
  ((4 <= max_iter)%Z ->
   stop_iteration 2 2 max_iter = 3%Z /\
   evaluate 2 2 max_iter = 3 + 1 - log2 (0.5 * ln 10600) /\
   evaluate 2 2 max_iter < 3) /\
  ((max_iter <= 3)%Z ->
   stop_iteration 2 2 max_iter = max_iter /\
   evaluate 2 2 max_iter = IZR max_iter).
Proof.
  intros H0. split; intros Hm.
  - split; [unfold stop_iteration; rewrite stop_2_2_late by lia; reflexivity|].
    rewrite evaluate_2_2_late by lia.
    split; [reflexivity | apply smooth_2_2_bounds].
  - split; [apply stop_2_2_early | apply evaluate_2_2_early]; lia.
Qed.

Lemma escape_of_2_2_witness :
  stop_iteration 2 2 1000 = 3%Z /\
  evaluate 2 2 1000 = 3 + 1 - log2 (0.5 * ln 10600) /\
  evaluate 2 2 1000 < 3.
Proof. apply (escape_of_2_2 1000); lia. Defined.

(** C2, as stated, fails: with [max_iter = 100] the loop stops at
    iteration 3, not 1, and with [max_iter = 1] no escape is detected at
    all, the evaluator returning [max_iter]. *)
Lemma escape_of_2_2_not_first :
  stop_iteration 2 2 100 = 3%Z /\
  stop_iteration 2 2 100 <> 1%Z /\
  evaluate 2 2 1 = IZR 1.
Proof.
  assert (E : stop_iteration 2 2 100 = 3%Z)
    by (unfold stop_iteration; rewrite stop_2_2_late by lia; reflexivity).
  split; [exact E|]. split; [rewrite E; lia|].
  apply evaluate_2_2_early. lia.
Qed.

(** ** Arrays *)

Lemma bind_Done {A B : Type} (m : outcome A) (k : A -> outcome B) (b : B) :
  bind m k = Done b -> exists a, m = Done a /\ k a = Done b.
Proof. destruct m as [a|f]; cbn; [eauto | discriminate]. Qed.

Lemma load_Done {A : Type} (l : list A) (i : Z) (a : A) :
  load l i = Done a <-> (0 <= i)%Z /\ nth_error l (Z.to_nat i) = Some a.
Proof.
  unfold load. destruct (0 <=? i)%Z eqn:E.
  - apply Z.leb_le in E. destruct (nth_error l (Z.to_nat i)).
    + split; [intros [= ->]; auto | intros [_ [= ->]]; reflexivity].
    + split; [discriminate | intros [_ H]; discriminate].
  - apply Z.leb_gt in E. split; [discriminate | intros [H _]; lia].
Qed.

Lemma load_in_range {A : Type} (l : list A) (i : Z) :
  (0 <= i < Z.of_nat (length l))%Z -> exists a, load l i = Done a.
Proof.
  intros H. destruct (nth_error l (Z.to_nat i)) as [a|] eqn:E.
  - exists a. apply load_Done. split; [lia | exact E].
  - apply nth_error_None in E. lia.
Qed.

Lemma store_Done {A : Type} (l : list A) (i : Z) (v : A) :
  (0 <= i < Z.of_nat (length l))%Z ->
  store l i v = Done (replace_nth l (Z.to_nat i) v).
Proof.
  intros H. unfold store.
  replace (0 <=? i)%Z with true by (symmetry; apply Z.leb_le; lia).
  replace (i <? Z.of_nat (length l))%Z with true
    by (symmetry; apply Z.ltb_lt; lia).
  reflexivity.
Qed.

Lemma store_inv {A : Type} (l l' : list A) (i : Z) (v : A) :
  store l i v = Done l' ->
  (0 <= i < Z.of_nat (length l))%Z /\ l' = replace_nth l (Z.to_nat i) v.
Proof.
  unfold store. destruct (0 <=? i)%Z eqn:E1; [|discriminate].
  destruct (i <? Z.of_nat (length l))%Z eqn:E2; [|discriminate].
  apply Z.leb_le in E1. apply Z.ltb_lt in E2. cbn. intros [= <-].
  split; [lia | reflexivity].
Qed.

Lemma replace_nth_length {A : Type} (l : list A) (n : nat) (v : A) :
  length (replace_nth l n v) = length l.
Proof.
  revert n; induction l as [|a l IH]; intros [|n]; cbn; auto.
Qed.

Lemma nth_error_replace_nth {A : Type} (l : list A) (n j : nat) (v : A) :
  (n < length l)%nat ->
  nth_error (replace_nth l n v) j
  = if Nat.eqb j n then Some v else nth_error l j.
Proof.
  revert n j; induction l as [|a l IH]; intros n j Hn; cbn in Hn; [lia|].
  destruct n as [|n], j as [|j]; cbn; try reflexivity.
  apply IH. lia.
Qed.

Lemma sum_counts_replace_nth (l : list Z) (n : nat) (c v : Z) :
  nth_error l n = Some c ->
  sum_counts (replace_nth l n v) = (sum_counts l - c + v)%Z.
Proof.
  unfold sum_counts.
  revert n; induction l as [|a l IH]; intros [|n]; cbn; try discriminate.
  - intros [= ->]. lia.
  - intros H. rewrite (IH _ H). lia.
Qed.

Lemma sum_counts_repeat_0 (n : nat) : sum_counts (repeat 0%Z n) = 0%Z.
Proof. unfold sum_counts; induction n as [|n IH]; cbn; [reflexivity | exact IH]. Qed.

Lemma fold_Fault {St A : Type} (f : St -> A -> outcome St) (l : list A)
      (e : fault) :
  fold_left (fun acc a => s <- acc ;; f s a) l (Fault e) = Fault e.
Proof. induction l as [|a l IH]; cbn; [reflexivity | exact IH]. Qed.

(** An index loop over a whole array visits its elements in order. *)
Lemma fold_indices_as_list {St A : Type} (f : St -> A -> outcome St)
      (suf pre : list A) (acc : outcome St) :
  fold_left (fun acc i => s <- acc ;; x <- load (pre ++ suf) i ;; f s x)
            (map Z.of_nat (seq (length pre) (length suf))) acc
  = fold_left (fun acc x => s <- acc ;; f s x) suf acc.
Proof.
  revert pre acc; induction suf as [|a suf IH]; intros pre acc;
    [reflexivity|].
  cbn [length seq map fold_left].
  replace (pre ++ a :: suf) with ((pre ++ [a]) ++ suf)
    by (rewrite <- app_assoc; reflexivity).
  replace (S (length pre)) with (length (pre ++ [a]))
    by (rewrite length_app; cbn; lia).
  replace (s <- acc ;; x <- load ((pre ++ [a]) ++ suf)
                                 (Z.of_nat (length pre)) ;; f s x)
    with (s <- acc ;; f s a).
  - apply IH.
  - destruct acc as [s|e]; [|reflexivity]. cbn [bind].
    assert (E : load ((pre ++ [a]) ++ suf) (Z.of_nat (length pre)) = Done a).
    { apply load_Done. split; [lia|]. rewrite Nat2Z.id.
      rewrite <- app_assoc. rewrite nth_error_app2 by lia.
      rewrite Nat.sub_diag. reflexivity. }
    rewrite E. reflexivity.
Qed.

Lemma fold_zrange_as_list {St A : Type} (f : St -> A -> outcome St)
      (l : list A) (n : Z) (acc : outcome St) :
  Z.to_nat n = length l ->
  fold_left (fun acc i => s <- acc ;; x <- load l i ;; f s x) (zrange n) acc
  = fold_left (fun acc x => s <- acc ;; f s x) l acc.
Proof.
  intros H. unfold zrange. rewrite H.
  apply (fold_indices_as_list f l []).
Qed.

(** ** Histogram *)

Lemma double_to_int_lt (x : R) (m : Z) :
  (0 < m)%Z -> ((double_to_int x < m)%Z <-> x < IZR m).
Proof.
  intros Hm. assert (Hp : 0 < IZR m) by (apply IZR_lt; lia).
  unfold double_to_int. destruct (Rltb x 0) eqn:E; Rcmp.
  - pose proof (Zceil_bound x) as [Hc _].
    assert (Zceil x < 1)%Z by (apply lt_IZR; lra).
    split; [intros; lra | intros; lia].
  - pose proof (Zfloor_bound x) as [Hf1 Hf2]. split.
    + intros H. assert (IZR (Zfloor x) + 1 <= IZR m).
      { rewrite <- plus_IZR. apply IZR_le. lia. }
      lra.
    + intros H. apply lt_IZR. lra.
Qed.

Lemma double_to_int_nonneg (x : R) : 0 <= x -> (0 <= double_to_int x)%Z.
Proof.
  intros H. unfold double_to_int.
  replace (Rltb x 0) with false by (symmetry; apply Rltb_false; lra).
  apply Zfloor_lub. exact H.
Qed.

Lemma histogram_pixel_counted (m : Z) (h : Histogram) (x : R) :
  (0 < m)%Z -> 0 <= x < IZR m -> length (counts h) = Z.to_nat m ->
  exists h',
    histogram_pixel m h x = Done h' /\
    length (counts h') = Z.to_nat m /\
    sum_counts (counts h') = (sum_counts (counts h) + 1)%Z /\
    total_pixels h' = (total_pixels h + 1)%Z.
Proof.
  intros Hm [Hx0 Hx1] Hlen. unfold histogram_pixel; cbv zeta.
  pose proof (double_to_int_nonneg x Hx0) as Hb0.
  assert (Hb1 : (double_to_int x < m)%Z) by (apply double_to_int_lt; auto).
  replace (double_to_int x <? m)%Z with true
    by (symmetry; apply Z.ltb_lt; exact Hb1).
  destruct (load_in_range (counts h) (double_to_int x)) as [c Hc]; [lia|].
  rewrite Hc. cbn [bind]. rewrite store_Done by lia. cbn [bind].
  eexists; split; [reflexivity|]. cbn [counts total_pixels].
  apply load_Done in Hc as [_ Hc].
  rewrite replace_nth_length, (sum_counts_replace_nth _ _ c) by exact Hc.
  repeat split; [exact Hlen | lia].
Qed.

Lemma histogram_pixel_skipped (m : Z) (h : Histogram) (x : R) :
  (0 < m)%Z -> IZR m <= x -> histogram_pixel m h x = Done h.
Proof.
  intros Hm Hx. unfold histogram_pixel; cbv zeta.
  replace (double_to_int x <? m)%Z with false; [reflexivity|].
  symmetry; apply Z.ltb_ge.
  pose proof (double_to_int_lt x m Hm) as [H _].
  destruct (Z.lt_ge_cases (double_to_int x) m) as [L|G]; [|exact G].
  specialize (H L). lra.
Qed.

Lemma count_escaped_cons (m : Z) (x : R) (l : list R) :
  count_escaped m (x :: l)
  = ((if Rltb x (IZR m) then 1 else 0) + count_escaped m l)%Z.
Proof.
  unfold count_escaped. cbn [filter].
  destruct (Rltb x (IZR m)); cbn [length]; lia.
Qed.

Lemma histogram_fold (m : Z) (data : list R) :
  (0 < m)%Z ->
  Forall (fun x => 0 <= x <= IZR m) data ->
  forall h0, length (counts h0) = Z.to_nat m ->
  exists hf,
    fold_left (fun acc x => h <- acc ;; histogram_pixel m h x)
              data (Done h0) = Done hf /\
    length (counts hf) = Z.to_nat m /\
    (sum_counts (counts hf) - total_pixels hf
     = sum_counts (counts h0) - total_pixels h0)%Z /\
    total_pixels hf = (total_pixels h0 + count_escaped m data)%Z.
Proof.
  intros Hm Hall. induction Hall as [|x l Hx Hl IH]; intros h0 Hlen.
  - exists h0. unfold count_escaped. cbn. repeat split; auto; lia.
  - cbn [fold_left bind]. rewrite count_escaped_cons.
    destruct (Rltb x (IZR m)) eqn:E; Rcmp.
    + destruct (histogram_pixel_counted m h0 x Hm) as (h1 & E1 & L1 & S1 & T1);
        [lra | exact Hlen |].
      rewrite E1. destruct (IH h1 L1) as (hf & Ef & Lf & Sf & Tf).
      exists hf. repeat split; auto; lia.
    + rewrite histogram_pixel_skipped by (auto; lra).
      destruct (IH h0 Hlen) as (hf & Ef & Lf & Sf & Tf).
      exists hf. repeat split; auto; lia.
Qed.

Lemma build_histogram_Done (al : Allocator) (iteration_data : list R)
      (width height max_iter : Z) :
  (0 < max_iter)%Z ->
  Z.to_nat (width * height) = length iteration_data ->
  Forall (fun x => 0 <= x <= IZR max_iter) iteration_data ->
  malloc_hist al = true -> calloc_counts al = true ->
  exists hist,
    build_histogram al iteration_data width height max_iter
    = Done (Some hist) /\
    sum_counts (counts hist) = total_pixels hist /\
    total_pixels hist = count_escaped max_iter iteration_data.
Proof.
  intros Hm Hlen Hall Ha Hc. unfold build_histogram. rewrite Ha, Hc.
  cbn [negb]. unfold histogram_loop.
  rewrite (fold_zrange_as_list (histogram_pixel max_iter)) by exact Hlen.
  destruct (histogram_fold max_iter iteration_data Hm Hall
              (mkHistogram (repeat 0%Z (Z.to_nat max_iter)) 0 0))
    as (hf & Ef & Lf & Sf & Tf).
  { cbn [counts]. apply repeat_length. }
  rewrite Ef. cbn [bind]. exists hf.
  cbn [counts total_pixels] in Sf, Tf. rewrite sum_counts_repeat_0 in Sf.
  repeat split; lia.
Qed.

(** C4: for a buffer of [width * height] results in [[0, max_iter]] and
    [max_iter > 0], [build_histogram] (its allocations succeeding) returns a
    histogram whose buckets sum to [total_pixels], which is the number of
    pixels with result below [max_iter]; a pixel whose result is [max_iter]
    leaves every bucket and [total_pixels] unchanged. *)
Theorem build_histogram_totals (al : Allocator) (iteration_data : list R)
        (width height max_iter : Z) :
  (0 < max_iter)%Z ->
  Z.to_nat (width * height) = length iteration_data ->
  Forall (fun x => 0 <= x <= IZR max_iter) iteration_data ->
  malloc_hist al = true -> calloc_counts al = true ->
  exists hist,
    build_histogram al iteration_data width height max_iter
    = Done (Some hist) /\
    sum_counts (counts hist) = total_pixels hist /\
    total_pixels hist = count_escaped max_iter iteration_data /\
    (forall h x, x = IZR max_iter -> histogram_pixel max_iter h x = Done h).
Proof.
  intros Hm Hlen Hall Ha Hc.
  destruct (build_histogram_Done al iteration_data width height max_iter
              Hm Hlen Hall Ha Hc) as (hist & Hb & Hs & Ht).
  exists hist. repeat split; auto.
  intros h x ->. apply histogram_pixel_skipped; [exact Hm | lra].
Qed.

Lemma build_histogram_totals_witness :
  exists hist,
    build_histogram (mkAllocator true true) [0.5; 2; 1.25] 3 1 2
    = Done (Some hist) /\
    sum_counts (counts hist) = total_pixels hist /\
    total_pixels hist = count_escaped 2 [0.5; 2; 1.25] /\
    (forall h x, x = IZR 2 -> histogram_pixel 2 h x = Done h).
Proof.
  apply (build_histogram_totals (mkAllocator true true) [0.5; 2; 1.25] 3 1 2);
    try reflexivity; try lia.
  repeat constructor; lra.
Defined.

(** ** The divisor of the histogram mapper *)

Lemma In_zrange (n i : Z) : In i (zrange n) <-> (0 <= i < n)%Z.
Proof.
  unfold zrange. rewrite in_map_iff. split.
  - intros (k & <- & Hk). apply in_seq in Hk. lia.
  - intros H. exists (Z.to_nat i). split; [lia | apply in_seq; lia].
Qed.

Lemma histogram_pixel_inv (m : Z) (h h' : Histogram) (x : R) :
  histogram_pixel m h x = Done h' ->
  length (counts h') = length (counts h) /\
  (((double_to_int x < m)%Z /\ total_pixels h' = (total_pixels h + 1)%Z) \/
   ((m <= double_to_int x)%Z /\ h' = h)).
Proof.
  unfold histogram_pixel; cbv zeta.
  destruct (double_to_int x <? m)%Z eqn:E.
  - apply Z.ltb_lt in E. intros H.
    apply bind_Done in H as (c & Hc & H).
    apply bind_Done in H as (cs & Hs & H).
    injection H as <-. cbn [counts total_pixels].
    apply store_inv in Hs as [_ ->]. rewrite replace_nth_length.
    split; [reflexivity | left; split; [exact E | reflexivity]].
  - apply Z.ltb_ge in E. intros [= <-].
    split; [reflexivity | right; split; [exact E | reflexivity]].
Qed.

Lemma histogram_loop_total (data : list R) (m : Z) (indices : list Z) :
  forall h0 hf,
    histogram_loop data m indices h0 = Done hf ->
    length (counts hf) = length (counts h0) /\
    (total_pixels h0 <= total_pixels hf)%Z /\
    (forall i x, In i indices -> load data i = Done x ->
                 (double_to_int x < m)%Z ->
                 (total_pixels h0 + 1 <= total_pixels hf)%Z).
Proof.
  unfold histogram_loop.
  induction indices as [|a t IH]; intros h0 hf H.
  - cbn in H. injection H as <-. repeat split; try lia. intros i x [].
  - cbn [fold_left bind] in H.
    destruct (x <- load data a ;; histogram_pixel m h0 x) as [h1|e] eqn:E1.
    + apply bind_Done in E1 as (xa & Hxa & Hp).
      apply histogram_pixel_inv in Hp as [Hlen Hcase].
      destruct (IH h1 hf H) as (L & T & P).
      split; [congruence|].
      assert (T01 : (total_pixels h0 <= total_pixels h1)%Z)
        by (destruct Hcase as [[_ ->] | [_ ->]]; lia).
      split; [lia|].
      intros i x [<- | Hi] Hx Hb.
      * rewrite Hxa in Hx. injection Hx as <-.
        destruct Hcase as [[_ E] | [G _]]; lia.
      * specialize (P i x Hi Hx Hb). lia.
    + rewrite (fold_Fault
                 (fun s i => x <- load data i ;; histogram_pixel m s x)) in H.
      discriminate.
Qed.

Lemma accumulate_counts_Done (cs : list Z) (iter_bucket max_iter : Z) :
  (max_iter <= Z.of_nat (length cs))%Z ->
  exists a, accumulate_counts cs iter_bucket max_iter = Done a.
Proof.
  intros Hlen. unfold accumulate_counts.
  assert (G : forall (l : list Z) (a0 : Z),
             (forall i, In i l -> (0 <= i < Z.of_nat (length cs))%Z) ->
             exists a,
               fold_left (fun acc i => a <- acc ;; c <- load cs i ;;
                                       Done (a + c)%Z) l (Done a0) = Done a).
  { induction l as [|i l IH]; intros a0 Hin.
    - exists a0. reflexivity.
    - cbn [fold_left bind].
      destruct (load_in_range cs i) as [c Hc]; [apply Hin; left; reflexivity|].
      rewrite Hc. cbn [bind]. apply IH.
      intros j Hj. apply Hin. right. exact Hj. }
  apply G. intros i Hi. apply In_zrange in Hi. lia.
Qed.

(** C9: when the histogram has been built from the buffer, every pixel of
    that buffer whose colour mapping gets past the set-member test (result
    below [max_iter]) was counted, so [total_pixels >= 1]: the mapper never
    divides by zero, and it returns a colour. *)
Theorem histogram_divisor_nonzero (al : Allocator) (iteration_data : list R)
        (width height max_iter : Z) (hist : Histogram) :
  (0 < max_iter)%Z ->
  build_histogram al iteration_data width height max_iter
  = Done (Some hist) ->
  forall i x,
    (0 <= i < width * height)%Z ->
    load iteration_data i = Done x ->
    (x < IZR max_iter -> (1 <= total_pixels hist)%Z) /\
    map_iteration_to_color_histogram x max_iter (Some hist)
    <> Fault DivisionByZero /\
    exists color,
      map_iteration_to_color_histogram x max_iter (Some hist) = Done color.
Proof.
  intros Hm Hb i x Hi Hx. unfold build_histogram in Hb.
  destruct (negb (malloc_hist al)); [discriminate|].
  destruct (negb (calloc_counts al)); [discriminate|].
  apply bind_Done in Hb as (h & Hloop & Hh). injection Hh as ->.
  apply histogram_loop_total in Hloop as (Hlen & _ & Hcount).
  cbn [counts total_pixels] in Hlen, Hcount. rewrite repeat_length in Hlen.
  assert (Htot : x < IZR max_iter -> (1 <= total_pixels hist)%Z).
  { intros Hlt. apply (Hcount i x); [apply In_zrange; exact Hi | exact Hx |].
    apply double_to_int_lt; assumption. }
  assert (Hcol : exists color,
             map_iteration_to_color_histogram x max_iter (Some hist)
             = Done color).
  { unfold map_iteration_to_color_histogram.
    destruct (Rgeb x (IZR max_iter)) eqn:E; [eexists; reflexivity|]. Rcmp.
    cbv zeta.
    destruct (accumulate_counts_Done (counts hist)
                (if (max_iter <=? double_to_int x)%Z
                 then (max_iter - 1)%Z else double_to_int x) max_iter)
      as [a Ha]; [lia|].
    rewrite Ha. cbn [bind]. specialize (Htot E).
    replace (total_pixels hist =? 0)%Z with false
      by (symmetry; apply Z.eqb_neq; lia).
    eexists; reflexivity. }
  split; [exact Htot|]. split; [|exact Hcol].
  destruct Hcol as [c ->]. discriminate.
Qed.

Lemma histogram_divisor_nonzero_witness :
  exists hist,
    build_histogram (mkAllocator true true) [0.5; 2; 1.25] 3 1 2
    = Done (Some hist) /\
    ((0.5 < IZR 2 -> (1 <= total_pixels hist)%Z) /\
     map_iteration_to_color_histogram 0.5 2 (Some hist)
     <> Fault DivisionByZero /\
     exists color,
       map_iteration_to_color_histogram 0.5 2 (Some hist) = Done color).
Proof.
  destruct (build_histogram_Done (mkAllocator true true) [0.5; 2; 1.25] 3 1 2)
    as (hist & Hb & _); try reflexivity; try lia.
  - repeat constructor; lra.
  - exists hist. split; [exact Hb|].
    apply (histogram_divisor_nonzero (mkAllocator true true) [0.5; 2; 1.25]
                                     3 1 2 hist ltac:(lia) Hb 0%Z);
      [lia | reflexivity].
Defined.

(** ** The computation phase writes each pixel from its own coordinates *)

Lemma calculate_value_stats_free (cr ci : R) (max_iter : Z)
      (stats : option PerformanceStats) :
  fst (calculate_mandelbrot_optimized cr ci max_iter stats)
  = evaluate cr ci max_iter.
Proof.
  unfold evaluate, calculate_mandelbrot_optimized.
  destruct (quick_mandelbrot_check cr ci); [reflexivity|].
  destruct ((MIN_SERIES_ITER <=? max_iter)%Z && _); reflexivity.
Qed.

Lemma task_index_range (params : MandelbrotParams) (t : Task) :
  valid_task params t ->
  (0 <= fst t * width params + snd t < width params * height params)%Z.
Proof. unfold valid_task. intros [H1 H2]. nia. Qed.

Lemma task_index_inj (params : MandelbrotParams) (t u : Task) :
  valid_task params t -> valid_task params u ->
  task_index params t = task_index params u -> t = u.
Proof.
  intros Ht Hu E. unfold task_index in E.
  pose proof (task_index_range _ _ Ht). pose proof (task_index_range _ _ Hu).
  apply Z2Nat.inj in E; try lia.
  destruct t as [py px], u as [qy qx]. unfold valid_task in *.
  cbn [fst snd] in *. assert (py = qy) by nia. subst. f_equal. lia.
Qed.

Lemma compute_pixel_Done (params : MandelbrotParams) (t : Task)
      (data : list R) (stats : option PerformanceStats) :
  valid_task params t ->
  length data = Z.to_nat (width params * height params) ->
  exists stats',
    compute_pixel params (fst t) (snd t) (data, stats)
    = Done (replace_nth data (task_index params t)
                        (pixel_value params (fst t) (snd t)), stats').
Proof.
  intros Hv Hlen. pose proof (task_index_range _ _ Hv) as Hr.
  unfold compute_pixel, pixel_value; cbv zeta. cbn [fst snd].
  rewrite <- (calculate_value_stats_free _ _ _ stats).
  destruct (calculate_mandelbrot_optimized _ _ _ stats) as [v stats'].
  rewrite store_Done by lia. cbn [bind fst]. exists stats'. reflexivity.
Qed.

Lemma run_tasks_spec (params : MandelbrotParams) (order : list Task) :
  (forall t, In t order -> valid_task params t) ->
  forall data stats,
    length data = Z.to_nat (width params * height params) ->
    exists data' stats',
      run_tasks params order (data, stats) = Done (data', stats') /\
      length data' = length data /\
      (forall t, In t order ->
                 nth_error data' (task_index params t)
                 = Some (pixel_value params (fst t) (snd t))) /\
      (forall j, (forall t, In t order -> task_index params t <> j) ->
                 nth_error data' j = nth_error data j).
Proof.
  unfold run_tasks.
  induction order as [|t ts IH]; intros Hv data stats Hlen.
  - exists data, stats. repeat split; auto. intros t [].
  - cbn [fold_left bind].
    assert (Ht : valid_task params t) by (apply Hv; left; reflexivity).
    destruct (compute_pixel_Done params t data stats Ht Hlen) as [st1 E1].
    rewrite E1.
    set (data1 := replace_nth data (task_index params t)
                              (pixel_value params (fst t) (snd t))).
    assert (Hlen1 : length data1 = Z.to_nat (width params * height params))
      by (unfold data1; rewrite replace_nth_length; exact Hlen).
    destruct (IH (fun u Hu => Hv u (or_intror Hu)) data1 st1 Hlen1)
      as (data' & stats' & E & L & Hin & Hout).
    exists data', stats'. split; [exact E|].
    split; [rewrite L; unfold data1; apply replace_nth_length|].
    pose proof (task_index_range _ _ Ht) as Hr.
    assert (Hself : (forall u, In u ts -> task_index params u
                                          <> task_index params t) ->
                    nth_error data' (task_index params t)
                    = Some (pixel_value params (fst t) (snd t))).
    { intros Hne. rewrite (Hout _ Hne). unfold data1.
      rewrite nth_error_replace_nth by (unfold task_index; lia).
      rewrite Nat.eqb_refl. reflexivity. }
    split.
    + intros u [<- | Hu]; [|apply Hin, Hu].
      destruct (in_dec (fun a c : Task =>
                          ltac:(decide equality; apply Z.eq_dec)) t ts)
        as [Hi | Hni]; [apply Hin, Hi|].
      apply Hself. intros u Hu Eq.
      apply task_index_inj in Eq; [subst; tauto | | exact Ht].
      apply Hv. right. exact Hu.
    + intros j Hj. rewrite Hout by (intros u Hu; apply Hj; right; exact Hu).
      unfold data1. rewrite nth_error_replace_nth by (unfold task_index; lia).
      destruct (Nat.eqb j (task_index params t)) eqn:Ej; [|reflexivity].
      apply Nat.eqb_eq in Ej. exfalso.
      apply (Hj t); [left; reflexivity | congruence].
Qed.

(** ** Executions of the parallel row loop *)

Lemma interleaving_In {A : Type} (ls : list (list A)) (o : list A) :
  interleaving ls o ->
  forall x, In x o <-> exists l, In l ls /\ In x l.
Proof.
  induction 1 as [ls Hall | l1 y t l2 rest _ IH]; intros x.
  - split; [intros [] | intros (l & Hl & Hx)].
    rewrite Forall_forall in Hall. rewrite (Hall l Hl) in Hx. exact Hx.
  - cbn [In]. rewrite IH. split.
    + intros [<- | (l & Hl & Hx)].
      * exists (y :: t). split; [|left; reflexivity].
        apply in_or_app. right. left. reflexivity.
      * apply in_app_or in Hl as [Hl | [<- | Hl]].
        -- exists l. split; [apply in_or_app; left; exact Hl | exact Hx].
        -- exists (y :: t). split; [|right; exact Hx].
           apply in_or_app. right. left. reflexivity.
        -- exists l. split; [|exact Hx].
           apply in_or_app. right. right. exact Hl.
    + intros (l & Hl & Hx).
      apply in_app_or in Hl as [Hl | [<- | Hl]].
      * right. exists l. split; [apply in_or_app; left; exact Hl | exact Hx].
      * destruct Hx as [-> | Hx]; [left; reflexivity|].
        right. exists t. split; [|exact Hx].
        apply in_or_app. right. left. reflexivity.
      * right. exists l. split; [|exact Hx].
        apply in_or_app. right. right. exact Hl.
Qed.

Lemma chunk_list_concat {A : Type} (size fuel : nat) (l : list A) :
  (0 < size)%nat -> (length l <= fuel)%nat ->
  concat (chunk_list fuel size l) = l.
Proof.
  intros Hs. revert l; induction fuel as [|fuel IH]; intros l Hl.
  - destruct l; [reflexivity | cbn in Hl; lia].
  - destruct l as [|a l]; [reflexivity|].
    cbn [chunk_list concat]. rewrite IH.
    + apply firstn_skipn.
    + rewrite length_skipn. cbn [length] in *. lia.
Qed.

Lemma in_indexed {A : Type} (l : list A) (s i : nat) (c : A) :
  In (i, c) (combine (seq s (length l)) l) <->
  (s <= i)%nat /\ nth_error l (i - s) = Some c.
Proof.
  revert s; induction l as [|a l IH]; intros s.
  - cbn. split; [intros [] | intros [_ H]].
    destruct (i - s)%nat; discriminate.
  - cbn [length seq combine In]. rewrite IH. split.
    + intros [[= <- <-] | [Hs H]].
      * split; [lia|]. rewrite Nat.sub_diag. reflexivity.
      * split; [lia|]. replace (i - s)%nat with (S (i - S s)) by lia.
        exact H.
    + intros [Hs H]. destruct (Nat.eq_dec i s) as [-> | Hne].
      * left. rewrite Nat.sub_diag in H. injection H as ->. reflexivity.
      * right. split; [lia|].
        replace (i - s)%nat with (S (i - S s)) in H by lia. exact H.
Qed.

Lemma in_chunks_of_thread {A : Type} (owner : nat -> nat) (k : nat)
      (chunks : list (list A)) (c : list A) :
  In c (chunks_of_thread owner k chunks) <->
  exists i, nth_error chunks i = Some c /\ owner i = k.
Proof.
  unfold chunks_of_thread. rewrite in_map_iff. split.
  - intros ([i c'] & <- & H). apply filter_In in H as [H E].
    apply in_indexed in H as [_ H]. rewrite Nat.sub_0_r in H.
    cbn [fst snd] in *. apply Nat.eqb_eq in E. eauto.
  - intros (i & H & E). exists (i, c). split; [reflexivity|].
    apply filter_In. split.
    + apply in_indexed. rewrite Nat.sub_0_r. split; [lia | exact H].
    + cbn [fst]. apply Nat.eqb_eq. exact E.
Qed.

Lemma in_row_chunks (params : MandelbrotParams) (py : Z) :
  (exists c, In c (row_chunks params) /\ In py c) <->
  (0 <= py < height params)%Z.
Proof.
  rewrite <- In_zrange, <- in_concat. unfold row_chunks.
  rewrite chunk_list_concat; [reflexivity | unfold OMP_CHUNK; lia | lia].
Qed.

Lemma in_thread_tasks (params : MandelbrotParams) (owner : nat -> nat)
      (k : nat) (t : Task) :
  In t (thread_tasks params owner k) <->
  (0 <= snd t < width params)%Z /\
  exists i c, nth_error (row_chunks params) i = Some c /\
              owner i = k /\ In (fst t) c.
Proof.
  unfold thread_tasks. rewrite in_flat_map. split.
  - intros (py & Hpy & Ht). unfold row_tasks in Ht.
    apply in_map_iff in Ht as (px & <- & Hpx). apply In_zrange in Hpx.
    apply in_concat in Hpy as (c & Hc & Hin).
    apply in_chunks_of_thread in Hc as (i & Hi & Ho).
    cbn [fst snd]. split; [exact Hpx | eauto].
  - intros (Hpx & i & c & Hi & Ho & Hin). exists (fst t). split.
    + apply in_concat. exists c. split; [|exact Hin].
      apply in_chunks_of_thread. eauto.
    + unfold row_tasks. apply in_map_iff. exists (snd t).
      split; [destruct t; reflexivity | apply In_zrange; exact Hpx].
Qed.

(** Every execution runs exactly the pixel bodies of the frame. *)
Lemma omp_execution_covers (params : MandelbrotParams) (threads : nat)
      (order : list Task) :
  omp_execution params threads order ->
  forall t, In t order <-> valid_task params t.
Proof.
  intros (owner & Hown & Hint) t.
  rewrite (interleaving_In _ _ Hint). unfold omp_threads, valid_task. split.
  - intros (l & Hl & Ht). apply in_map_iff in Hl as (k & <- & _).
    apply in_thread_tasks in Ht as (Hpx & i & c & Hi & _ & Hin).
    split; [|exact Hpx]. apply in_row_chunks.
    exists c. split; [eapply nth_error_In; exact Hi | exact Hin].
  - intros [Hpy Hpx]. apply in_row_chunks in Hpy as (c & Hc & Hin).
    apply In_nth_error in Hc as [i Hi].
    exists (thread_tasks params owner (owner i)). split.
    + apply in_map_iff. exists (owner i). split; [reflexivity|].
      apply in_seq. specialize (Hown i). lia.
    + apply in_thread_tasks. split; [exact Hpx|]. eauto.
Qed.

Lemma nth_error_zrange (n : Z) (j : nat) :
  (j < Z.to_nat n)%nat -> nth_error (zrange n) j = Some (Z.of_nat j).
Proof.
  intros H. unfold zrange.
  rewrite (nth_error_nth' _ 0%Z) by (rewrite length_map, length_seq; exact H).
  rewrite (map_nth Z.of_nat _ O), seq_nth by exact H. reflexivity.
Qed.

Lemma length_zrange (n : Z) : length (zrange n) = Z.to_nat n.
Proof. unfold zrange. rewrite length_map, length_seq. reflexivity. Qed.

Lemma run_tasks_frame (params : MandelbrotParams) (order : list Task)
      (data0 : list R) (stats0 : option PerformanceStats) :
  (0 < width params)%Z ->
  (forall t, In t order <-> valid_task params t) ->
  length data0 = Z.to_nat (width params * height params) ->
  exists stats',
    run_tasks params order (data0, stats0)
    = Done (frame_values params, stats').
Proof.
  intros Hw Hcov Hlen.
  destruct (run_tasks_spec params order (fun t Ht => proj1 (Hcov t) Ht)
                           data0 stats0 Hlen)
    as (data' & stats' & E & L & Hin & _).
  exists stats'. rewrite E. do 2 f_equal.
  apply nth_error_ext. intros j.
  destruct (Nat.lt_ge_cases j (Z.to_nat (width params * height params)))
    as [Hj | Hj].
  - set (t := ((Z.of_nat j / width params)%Z,
               (Z.of_nat j mod width params)%Z) : Task).
    assert (Hdm : (Z.of_nat j
                   = Z.of_nat j / width params * width params
                     + Z.of_nat j mod width params)%Z).
    { rewrite Z.mul_comm. apply Z.div_mod. lia. }
    assert (Hmod : (0 <= Z.of_nat j mod width params < width params)%Z)
      by (apply Z.mod_pos_bound; exact Hw).
    assert (Hdiv : (0 <= Z.of_nat j / width params)%Z)
      by (apply Z.div_pos; lia).
    assert (Hv : valid_task params t).
    { unfold valid_task, t; cbn [fst snd]. split; [|exact Hmod].
      split; [exact Hdiv|]. nia. }
    assert (Hidx : task_index params t = j).
    { unfold task_index, t; cbn [fst snd]. rewrite <- Hdm. apply Nat2Z.id. }
    rewrite <- Hidx at 1. rewrite (Hin t (proj2 (Hcov t) Hv)).
    unfold frame_values. rewrite nth_error_map, nth_error_zrange by exact Hj.
    reflexivity.
  - rewrite (proj2 (nth_error_None _ _)) by lia.
    symmetry. apply nth_error_None.
    unfold frame_values. rewrite length_map, length_zrange. exact Hj.
Qed.

Lemma frame_values_at (params : MandelbrotParams) (py px : Z) :
  (0 <= py < height params)%Z -> (0 <= px < width params)%Z ->
  nth_error (frame_values params) (Z.to_nat (py * width params + px))
  = Some (pixel_value params py px).
Proof.
  intros Hy Hx. unfold frame_values.
  rewrite nth_error_map, nth_error_zrange by nia.
  rewrite Z2Nat.id by nia. cbn [option_map].
  rewrite Z.div_add_l, Z.div_small, Z.add_0_r by lia.
  rewrite Z.add_comm, Z.mod_add, Z.mod_small by lia. reflexivity.
Qed.

Lemma fold_left_map_list {A B C : Type} (f : A -> C -> A) (g : B -> C)
      (l : list B) (a : A) :
  fold_left f (map g l) a = fold_left (fun a x => f a (g x)) l a.
Proof. revert a; induction l as [|x l IH]; intros a; cbn; auto. Qed.

Lemma compute_phase_as_tasks (params : MandelbrotParams) (st : ComputeState) :
  compute_phase params st
  = run_tasks params (flat_map (row_tasks params) (zrange (height params)))
              st.
Proof.
  unfold compute_phase, run_tasks. generalize (Done st).
  induction (zrange (height params)) as [|py rows IH]; intros acc;
    [reflexivity|].
  cbn [fold_left flat_map]. rewrite fold_left_app, IH.
  assert (E : (s <- acc ;; compute_row params py s)
              = fold_left (fun acc t => s <- acc ;;
                             compute_pixel params (fst t) (snd t) s)
                          (row_tasks params py) acc).
  { destruct acc as [s|e].
    - cbn [bind]. unfold compute_row, row_tasks.
      rewrite fold_left_map_list. reflexivity.
    - cbn [bind]. symmetry.
      apply (fold_Fault (fun s t => compute_pixel params (fst t) (snd t) s)). }
  rewrite E. reflexivity.
Qed.

Lemma sequential_covers (params : MandelbrotParams) (t : Task) :
  In t (flat_map (row_tasks params) (zrange (height params)))
  <-> valid_task params t.
Proof.
  rewrite in_flat_map. unfold valid_task, row_tasks. split.
  - intros (py & Hpy & Ht). apply in_map_iff in Ht as (px & <- & Hpx).
    apply In_zrange in Hpy, Hpx. cbn [fst snd]. auto.
  - intros [Hy Hx]. exists (fst t). split; [apply In_zrange; exact Hy|].
    apply in_map_iff. exists (snd t).
    split; [destruct t; reflexivity | apply In_zrange; exact Hx].
Qed.

Lemma frame_in_range_positive (params : MandelbrotParams) :
  frame_in_range params ->
  (0 < width params)%Z /\ (0 < height params)%Z.
Proof. intros (Hw & Hh & _). lia. Qed.

Ltac frame_range :=
  unfold frame_in_range, INT_MAX, WINDOW_MAX;
  repeat match goal with x := _ |- _ => subst x end;
  cbn [width height x_min x_max y_min y_max];
  repeat split; try lia; apply Rabs_le; lra.

(** C5: for the same parameters, on a frame in range (more than one pixel
    on each side, at most [INT_MAX / 100] pixels, a finite window), the
    iteration buffer left by the row loop is the same whatever the number
    of threads and however their pixel bodies interleave; it is also the
    buffer of the loop run by a single thread in source order, and every
    pixel holds the evaluator's value at that pixel's own coordinates. *)
Theorem parallel_scan_deterministic (params : MandelbrotParams)
        (threads1 threads2 : nat) (order1 order2 : list Task)
        (data0 : list R) (stats0 : option PerformanceStats) :
  frame_in_range params ->
  length data0 = Z.to_nat (width params * height params) ->
  omp_execution params threads1 order1 ->
  omp_execution params threads2 order2 ->
  exists data s1 s2 s,
    run_tasks params order1 (data0, stats0) = Done (data, s1) /\
    run_tasks params order2 (data0, stats0) = Done (data, s2) /\
    compute_phase params (data0, stats0) = Done (data, s) /\
    data = frame_values params /\
    forall py px,
      (0 <= py < height params)%Z -> (0 <= px < width params)%Z ->
      nth_error data (Z.to_nat (py * width params + px))
      = Some (evaluate (x_min params + IZR px * x_scale params)
                       (y_min params + IZR py * y_scale params)
                       (max_iterations params)).
Proof.
  intros Hfr Hlen H1 H2.
  destruct (frame_in_range_positive params Hfr) as [Hw Hh].
  destruct (run_tasks_frame params order1 data0 stats0 Hw
              (omp_execution_covers _ _ _ H1) Hlen) as [s1 E1].
  destruct (run_tasks_frame params order2 data0 stats0 Hw
              (omp_execution_covers _ _ _ H2) Hlen) as [s2 E2].
  destruct (run_tasks_frame params _ data0 stats0 Hw
              (sequential_covers params) Hlen) as [s E].
  exists (frame_values params), s1, s2, s.
  rewrite compute_phase_as_tasks.
  repeat split; auto.
  intros py px Hy Hx. apply frame_values_at; assumption.
Qed.

Ltac run_thread :=
  repeat match goal with
  | |- interleaving ((?x :: ?t) :: ?l2) (?x :: ?rest) =>
      apply (interleaving_step [] x t l2 rest); cbn [app]
  end;
  apply interleaving_done; repeat constructor.

Lemma parallel_scan_deterministic_witness :
  let params :=
    mkParams 2 17 50 8 1 (-0.5) 0 (-2) 1 (-1.5) 1.5 "ffpga.png"%string 1 1 in
  let garbage := repeat 7 34 in
  let order1 := flat_map (row_tasks params) (zrange 17) in
  let order2 :=
    row_tasks params 16 ++ flat_map (row_tasks params) (zrange 16) in
  exists data s1 s2 s,
    run_tasks params order1 (garbage, None) = Done (data, s1) /\
    run_tasks params order2 (garbage, None) = Done (data, s2) /\
    compute_phase params (garbage, None) = Done (data, s) /\
    data = frame_values params /\
    forall py px,
      (0 <= py < height params)%Z -> (0 <= px < width params)%Z ->
      nth_error data (Z.to_nat (py * width params + px))
      = Some (evaluate (x_min params + IZR px * x_scale params)
                       (y_min params + IZR py * y_scale params)
                       (max_iterations params)).
Proof.
  intros params garbage order1 order2.
  apply (parallel_scan_deterministic params 1 8 order1 order2).
  - frame_range.
  - reflexivity.
  - exists (fun _ => 0%nat). split; [intros; lia|].
    lazy. run_thread.
  - exists (fun i => Nat.min i 7). split.
    + intros. lia.
    + lazy.
      match goal with
      | |- interleaving (?l :: (?x :: ?t) :: ?l2) (?x :: ?rest) =>
          apply (interleaving_step [l] x t l2 rest); cbn [app]
      end.
      match goal with
      | |- interleaving (?l :: (?x :: ?t) :: ?l2) (?x :: ?rest) =>
          apply (interleaving_step [l] x t l2 rest); cbn [app]
      end.
      run_thread.
Defined.

(** ** Colouring without a histogram *)

Lemma replace_nth_app {A : Type} (l1 : list A) (a : A) (l2 : list A) (v : A) :
  replace_nth (l1 ++ a :: l2) (length l1) v = l1 ++ v :: l2.
Proof. induction l1 as [|x l1 IH]; cbn; [reflexivity | rewrite IH; reflexivity]. Qed.

Lemma store_app {A : Type} (l1 : list A) (a : A) (l2 : list A) (i : Z) (v : A) :
  i = Z.of_nat (length l1) ->
  store (l1 ++ a :: l2) i v = Done (l1 ++ v :: l2).
Proof.
  intros ->. rewrite store_Done by (rewrite length_app; cbn [length]; lia).
  rewrite Nat2Z.id, replace_nth_app. reflexivity.
Qed.

Lemma color_pixel_standard (params : MandelbrotParams) (data : list R)
      (i : Z) (x : R) (done : list Z) (a0 a1 a2 : Z) (rest : list Z) :
  load data i = Done x ->
  Z.of_nat (length done) = (i * 3)%Z ->
  color_pixel params data None i (done ++ a0 :: a1 :: a2 :: rest)
  = Done ((done ++ pixel_bytes (map_iteration_to_color_standard
                                  x (max_iterations params))) ++ rest).
Proof.
  intros Hx Hlen. unfold color_pixel. rewrite Hx. cbn [bind].
  set (c := map_iteration_to_color_standard x (max_iterations params)).
  rewrite (store_app done a0) by lia. cbn [bind].
  replace (done ++ r c :: a1 :: a2 :: rest)
    with ((done ++ [r c]) ++ a1 :: a2 :: rest)
    by (rewrite <- app_assoc; reflexivity).
  rewrite (store_app (done ++ [r c]) a1)
    by (rewrite length_app; cbn [length]; lia).
  cbn [bind].
  replace ((done ++ [r c]) ++ g c :: a2 :: rest)
    with ((done ++ [r c; g c]) ++ a2 :: rest)
    by (rewrite <- !app_assoc; reflexivity).
  rewrite (store_app (done ++ [r c; g c]) a2)
    by (rewrite length_app; cbn [length]; lia).
  unfold pixel_bytes. rewrite <- !app_assoc. reflexivity.
Qed.

Lemma color_loop_standard (params : MandelbrotParams) (suf : list R) :
  forall (pre : list R) (done rest : list Z),
    length done = (3 * length pre)%nat ->
    length rest = (3 * length suf)%nat ->
    fold_left (fun acc i => d <- acc ;;
                            color_pixel params (pre ++ suf) None i d)
              (map Z.of_nat (seq (length pre) (length suf)))
              (Done (done ++ rest))
    = Done (done ++ standard_image (max_iterations params) suf).
Proof.
  induction suf as [|x suf IH]; intros pre done rest Hd Hr.
  - destruct rest; [reflexivity | cbn in Hr; lia].
  - destruct rest as [|a0 [|a1 [|a2 rest]]]; cbn [length] in Hr; try lia.
    cbn [length seq map fold_left bind].
    rewrite (color_pixel_standard params _ _ x).
    + replace (pre ++ x :: suf) with ((pre ++ [x]) ++ suf)
        by (rewrite <- app_assoc; reflexivity).
      replace (S (length pre)) with (length (pre ++ [x]))
        by (rewrite length_app; cbn; lia).
      rewrite IH.
      * unfold standard_image. cbn [flat_map].
        rewrite <- !app_assoc. reflexivity.
      * rewrite !length_app. cbn [length pixel_bytes]. lia.
      * lia.
    + apply load_Done. split; [lia|]. rewrite Nat2Z.id.
      rewrite nth_error_app2 by lia. rewrite Nat.sub_diag. reflexivity.
    + lia.
Qed.

Lemma color_phase_standard (params : MandelbrotParams) (data : list R)
      (image0 : list Z) :
  length data = Z.to_nat (width params * height params) ->
  length image0 = (3 * length data)%nat ->
  color_phase params data None image0
  = Done (standard_image (max_iterations params) data).
Proof.
  intros Hlen Himg. unfold color_phase, zrange. rewrite <- Hlen.
  apply (color_loop_standard params data [] [] image0); [reflexivity|].
  exact Himg.
Qed.

Lemma length_fresh_block {A : Type} (garbage : nat -> A) (size : Z) :
  length (fresh_block garbage size) = Z.to_nat size.
Proof. unfold fresh_block. rewrite length_map, length_seq. reflexivity. Qed.

Lemma length_frame_values (params : MandelbrotParams) :
  length (frame_values params) = Z.to_nat (width params * height params).
Proof. unfold frame_values. rewrite length_map. apply length_zrange. Qed.

Lemma length_standard_image (max_iter : Z) (data : list R) :
  length (standard_image max_iter data) = (3 * length data)%nat.
Proof.
  unfold standard_image. induction data as [|x data IH]; [reflexivity|].
  cbn [flat_map]. rewrite length_app, IH. cbn [length pixel_bytes]. lia.
Qed.

(** C10: on a frame in range (more than one pixel on each side, at most
    [INT_MAX / 100] pixels, a finite window), when histogram colouring is
    requested and an allocation of [build_histogram] fails, the render
    goes on: every pixel is coloured by the standard mapping, the whole
    pixel buffer ([3 * width * height] bytes) is handed to the encoder,
    and the value returned is the encoder's verdict, 1 when it succeeds. *)
Theorem histogram_allocation_fallback (sys : System)
        (params : MandelbrotParams) :
  frame_in_range params ->
  malloc_image sys = true -> malloc_iter sys = true ->
  use_histogram params <> 0%Z ->
  malloc_hist (hist_allocator sys) = false \/
  calloc_counts (hist_allocator sys) = false ->
  let image :=
    standard_image (max_iterations params) (frame_values params) in
  let write_result :=
    stbi_write_png sys (output_filename params) (width params)
                   (height params) 3 image (width params * 3)%Z in
  length image = Z.to_nat (width params * height params * 3) /\
  generate_mandelbrot sys params
  = Done (mkRendered (if (write_result =? 0)%Z then 0 else 1) (Some image)) /\
  (write_result <> 0%Z ->
   generate_mandelbrot sys params = Done (mkRendered 1 (Some image))).
Proof.
  intros Hfr Himg Hiter Huse Hfail image write_result.
  destruct (frame_in_range_positive params Hfr) as [Hw Hh].
  assert (Hlen : length image
                 = Z.to_nat (width params * height params * 3)).
  { unfold image. rewrite length_standard_image, length_frame_values. lia. }
  assert (E : generate_mandelbrot sys params
              = Done (mkRendered (if (write_result =? 0)%Z then 0 else 1)
                                 (Some image))).
  { unfold generate_mandelbrot. rewrite Himg, Hiter. cbn [negb orb].
    rewrite compute_phase_as_tasks.
    destruct (run_tasks_frame params _
                (fresh_block (iter_garbage sys)
                             (width params * height params))
                (Some (mkStats 0 0)) Hw (sequential_covers params)
                (length_fresh_block _ _)) as [s Hs].
    rewrite Hs. cbn [bind fst].
    replace (use_histogram params =? 0)%Z with false
      by (symmetry; apply Z.eqb_neq; exact Huse).
    assert (Hb : build_histogram (hist_allocator sys) (frame_values params)
                   (width params) (height params) (max_iterations params)
                 = Done None).
    { unfold build_histogram. destruct Hfail as [-> | ->]; cbn [negb].
      - reflexivity.
      - destruct (negb (malloc_hist (hist_allocator sys))); reflexivity. }
    rewrite Hb. cbn [bind].
    rewrite color_phase_standard.
    - cbn [bind]. fold image. fold write_result.
      destruct (write_result =? 0)%Z; reflexivity.
    - apply length_frame_values.
    - rewrite length_fresh_block, length_frame_values. lia. }
  split; [exact Hlen|]. split; [exact E|].
  intros Hok. rewrite E.
  replace (write_result =? 0)%Z with false
    by (symmetry; apply Z.eqb_neq; exact Hok).
  reflexivity.
Qed.

Lemma histogram_allocation_fallback_witness :
  let params :=
    mkParams 2 2 50 1 1 (-0.5) 0 (-2) 1 (-1.5) 1.5 "ffpga.png"%string 1 1 in
  let sys :=
    mkSystem true (fun _ => 0%Z) true (fun _ => 0) (mkAllocator false true)
             (fun _ _ _ _ _ _ => 1%Z) in
  let image :=
    standard_image (max_iterations params) (frame_values params) in
  length image = Z.to_nat (2 * 2 * 3) /\
  generate_mandelbrot sys params = Done (mkRendered 1 (Some image)) /\
  (1%Z <> 0%Z ->
   generate_mandelbrot sys params = Done (mkRendered 1 (Some image))).
Proof.
  intros params sys.
  apply (histogram_allocation_fallback sys params).
  - frame_range.
  - reflexivity.
  - reflexivity.
  - cbn. lia.
  - left. reflexivity.
Defined.

(** ** The origin *)

(** The instance of the fast-rejection soundness property named by the
    specification: the origin is fast-rejected and its full iteration runs
    to [max_iter]. *)
Lemma origin_rejected_and_bounded (max_iter : Z) :
  (0 < max_iter)%Z ->
  quick_mandelbrot_check 0 0 = true /\
  stop_iteration 0 0 max_iter = max_iter.
Proof.
  intros Hm. split.
  - unfold quick_mandelbrot_check; cbv zeta.
    replace (Rltb _ (0.25 * 0 * 0)) with true
      by (symmetry; apply Rltb_true; lra).
    reflexivity.
  - apply mandel_loop_no_escape; [lia|]. intros j _.
    assert (E : forall k, orbit_from 0 0 (0, 0) k = (0, 0)).
    { induction k as [|k IH]; [reflexivity|]. cbn [orbit_from].
      replace (mandel_step 0 0 (0, 0)) with (0, 0); [exact IH|].
      unfold mandel_step; cbn [fst snd]. f_equal; lra. }
    unfold orbit. rewrite E. unfold magnitude_sq, BAILOUT_TEST; cbn [fst snd].
    lra.
Qed.

(** ** Cross-checks by computation *)

Example full_iteration_2_2_computed :
  full_iteration 2 2 10 = (3%Z, -94, 42).
Proof.
  unfold full_iteration.
  change (mandel_loop (Z.to_nat 10) (IZR 2) (IZR 2) 10 0 (IZR 0) (IZR 0)
          = (3%Z, IZR (-94), IZR 42)).
  rewrite mandel_loop_int_sound.
  assert (E : mandel_loop_int (Z.to_nat 10) 2 2 10 0 0 0 = (3, -94, 42)%Z)
    by (vm_compute; reflexivity).
  rewrite E. reflexivity.
Qed.

Example full_iteration_i_computed :
  stop_iteration 0 1 100 = 100%Z.
Proof.
  unfold stop_iteration, full_iteration.
  change (fst (fst (mandel_loop (Z.to_nat 100) (IZR 0) (IZR 1) 100 0
                                (IZR 0) (IZR 0))) = 100%Z).
  rewrite mandel_loop_int_sound.
  assert (E : mandel_loop_int (Z.to_nat 100) 0 1 100 0 0 0 = (100, -1, 1)%Z)
    by (vm_compute; reflexivity).
  rewrite E. reflexivity.
Qed.

(** ** The detector of the older generator *)

Lemma Q2R_2 : Q2R 2 = 2.
Proof. unfold Q2R; cbn. lra. Qed.

Lemma orbit_from_Q_sound (cr ci : Q) (k : nat) :
  forall z : Q * Q,
    orbit_from (Q2R cr) (Q2R ci) (Q2R (fst z), Q2R (snd z)) k
    = (Q2R (fst (orbit_from_Q cr ci z k)),
       Q2R (snd (orbit_from_Q cr ci z k))).
Proof.
  induction k as [|k IH]; intros z; [reflexivity|].
  cbn [orbit_from orbit_from_Q]. rewrite <- IH. f_equal.
  unfold mandel_step, mandel_step_Q; cbn [fst snd].
  rewrite !Q2R_plus, Q2R_minus, !Q2R_mult, Q2R_2. reflexivity.
Qed.

(** C7: the detector of C-FFPGAv2 answers true exactly when one of the
    closed-form tests of the specification holds.  The detector of the
    older generator does not: at [(-1.375, 0.1875)] it answers true although
    neither test holds, and that point is not even bounded, its seventh
    iterate lying outside the disc of radius 2. *)
Theorem fast_rejection_detectors :
  (forall cr ci,
      quick_mandelbrot_check cr ci = true <->
      spec_in_cardioid cr ci \/ spec_in_bulb cr ci) /\
  V1.quick_ffpga_check (-1.375) 0.1875 = true /\
  ~ (spec_in_cardioid (-1.375) 0.1875 \/ spec_in_bulb (-1.375) 0.1875) /\
  ESCAPE_RADIUS_SQ < magnitude_sq (orbit (-1.375) 0.1875 7).
Proof.
  split; [intros cr ci; apply quick_mandelbrot_check_spec|].
  split; [|split].
  - unfold V1.quick_ffpga_check; cbv zeta.
    replace (Rltb ((-1.375 + 1) * (-1.375 + 1) + 0.1875 * 0.1875) 0.0625)
      with false by (symmetry; apply Rltb_false; lra).
    replace (Rltb _ 0.0625) with true by (symmetry; apply Rltb_true; lra).
    reflexivity.
  - unfold spec_in_cardioid, spec_in_bulb; cbv zeta. intros [H | H]; lra.
  - unfold orbit.
    pose proof (orbit_from_Q_sound (-11 # 8) (3 # 16) 7 (0, 0)%Q) as E.
    cbn [fst snd] in E.
    replace (Q2R (-11 # 8)) with (-1.375) in E by (unfold Q2R; cbn; lra).
    replace (Q2R (3 # 16)) with 0.1875 in E by (unfold Q2R; cbn; lra).
    replace (Q2R 0) with 0 in E by (unfold Q2R; cbn; lra).
    rewrite E.
    unfold magnitude_sq, ESCAPE_RADIUS_SQ; cbn [fst snd].
    rewrite <- !Q2R_mult, <- Q2R_plus.
    replace 4 with (Q2R 4) by (unfold Q2R; cbn; lra).
    apply Qlt_Rlt. vm_compute. reflexivity.
Qed.

(** * Further properties of the engine *)

(** ** Symmetry about the real axis *)

Lemma quick_mandelbrot_check_conj (cr ci : R) :
  quick_mandelbrot_check cr (- ci) = quick_mandelbrot_check cr ci.
Proof.
  unfold quick_mandelbrot_check; cbv zeta.
  replace (- ci * - ci) with (ci * ci) by ring.
  replace (0.25 * - ci * - ci) with (0.25 * ci * ci) by ring.
  reflexivity.
Qed.

Lemma series_step_conj (c z dz : Complex) :
  series_step (conj c) (conj z) (conj dz)
  = option_map (fun p => (conj (fst p), conj (snd p))) (series_step c z dz).
Proof.
  unfold series_step, conj; cbn [real imag].
  replace (real z * real z + - imag z * - imag z)
    with (real z * real z + imag z * imag z) by ring.
  destruct (Rltb ESCAPE_RADIUS_SQ _); [reflexivity|].
  cbn [option_map fst snd real imag]. f_equal. f_equal; f_equal; ring.
Qed.

Lemma series_loop_conj (n : nat) (c : Complex) :
  forall z dz,
    series_loop n (conj c) (conj z) (conj dz)
    = option_map (fun p => (conj (fst p), conj (snd p)))
                 (series_loop n c z dz).
Proof.
  induction n as [|n IH]; intros z dz; [reflexivity|].
  cbn [series_loop]. rewrite series_step_conj.
  destruct (series_step c z dz) as [[z' dz']|]; [|reflexivity].
  cbn [option_map fst snd]. apply IH.
Qed.

Lemma series_approximation_conj (cr ci : R) (max_iter : Z) :
  series_approximation cr (- ci) max_iter = series_approximation cr ci max_iter.
Proof.
  unfold series_approximation.
  destruct (max_iter <? MIN_SERIES_ITER)%Z; [reflexivity|].
  change (mkComplex cr (- ci)) with (conj (mkComplex cr ci)).
  replace (mkComplex 0 0) with (conj (mkComplex 0 0))
    by (unfold conj; cbn [real imag]; f_equal; lra).
  replace (mkComplex 1 0) with (conj (mkComplex 1 0))
    by (unfold conj; cbn [real imag]; f_equal; lra).
  rewrite series_loop_conj.
  assert (E0 : conj (mkComplex 0 0) = mkComplex 0 0)
    by (unfold conj; cbn [real imag]; f_equal; lra).
  assert (E1 : conj (mkComplex 1 0) = mkComplex 1 0)
    by (unfold conj; cbn [real imag]; f_equal; lra).
  rewrite E0, E1.
  destruct (series_loop _ _ _ _) as [[z dz]|]; [|reflexivity].
  cbn [option_map fst snd]. unfold series_estimate, conj; cbn [real imag].
  replace (- imag dz * - imag dz) with (imag dz * imag dz) by ring.
  replace (- imag z * - imag z) with (imag z * imag z) by ring.
  reflexivity.
Qed.

Lemma mandel_loop_conj (fuel : nat) (cr ci : R) (max_iter : Z) :
  forall iter zr zi,
    mandel_loop fuel cr (- ci) max_iter iter zr (- zi)
    = let '(it, a, im) := mandel_loop fuel cr ci max_iter iter zr zi in
      (it, a, - im).
Proof.
  induction fuel as [|fuel IH]; intros iter zr zi; [reflexivity|].
  cbn [mandel_loop]. destruct (iter <? max_iter)%Z; [|reflexivity].
  replace (zr * zr + - zi * - zi) with (zr * zr + zi * zi) by ring.
  destruct (Rltb BAILOUT_TEST _); [reflexivity|].
  replace (zr * zr - - zi * - zi + cr) with (zr * zr - zi * zi + cr) by ring.
  replace (2 * zr * - zi + - ci) with (- (2 * zr * zi + ci)) by ring.
  apply IH.
Qed.

Lemma escape_time_conj (cr ci : R) (max_iter : Z) :
  escape_time cr (- ci) max_iter = escape_time cr ci max_iter.
Proof.
  unfold escape_time, full_iteration.
  replace (mandel_loop (Z.to_nat max_iter) cr (- ci) max_iter 0 0 0)
    with (mandel_loop (Z.to_nat max_iter) cr (- ci) max_iter 0 0 (- 0))
    by (f_equal; lra).
  rewrite mandel_loop_conj.
  destruct (mandel_loop (Z.to_nat max_iter) cr ci max_iter 0 0 0)
    as [[it a] im].
  destruct (it <? max_iter)%Z; [|reflexivity].
  cbv zeta. replace (a * a + - im * - im) with (a * a + im * im) by ring.
  reflexivity.
Qed.

(** X1: the evaluator gives a point and its mirror image in the real axis
    the same value, so a frame centred on the real axis is symmetric. *)
Theorem evaluate_conj (cr ci : R) (max_iter : Z) :
  evaluate cr (- ci) max_iter = evaluate cr ci max_iter.
Proof.
  unfold evaluate, calculate_mandelbrot_optimized.
  rewrite quick_mandelbrot_check_conj, series_approximation_conj,
    escape_time_conj.
  reflexivity.
Qed.

(** ** Escaped pixels *)

Lemma stop_iteration_positive (cr ci : R) (max_iter : Z) :
  (0 < max_iter)%Z -> (1 <= stop_iteration cr ci max_iter)%Z.
Proof.
  intros Hm. unfold stop_iteration, full_iteration.
  destruct (Z.to_nat max_iter) as [|fuel] eqn:E; [lia|].
  cbn [mandel_loop].
  replace (0 <? max_iter)%Z with true by (symmetry; apply Z.ltb_lt; lia).
  replace (Rltb BAILOUT_TEST (0 * 0 + 0 * 0)) with false
    by (symmetry; apply Rltb_false; unfold BAILOUT_TEST; lra).
  pose proof (mandel_loop_bounds fuel cr ci max_iter (0 + 1)
                (0 * 0 - 0 * 0 + cr) (2 * 0 * 0 + ci)) as Hb.
  destruct (mandel_loop fuel cr ci max_iter (0 + 1) _ _) as [[it a] im].
  destruct Hb as [Hb _]; [lia | lia |]. cbn [fst]. lia.
Qed.

Lemma escape_time_below_stop (cr ci : R) (max_iter : Z) :
  (0 < max_iter)%Z ->
  (stop_iteration cr ci max_iter < max_iter)%Z ->
  0 <= escape_time cr ci max_iter < IZR (stop_iteration cr ci max_iter).
Proof.
  intros Hm Hstop.
  pose proof (stop_iteration_positive cr ci max_iter Hm) as H1.
  revert Hstop H1. unfold escape_time, stop_iteration, full_iteration.
  pose proof (mandel_loop_bounds (Z.to_nat max_iter) cr ci max_iter 0 0 0)
    as Hb.
  destruct (mandel_loop (Z.to_nat max_iter) cr ci max_iter 0 0 0)
    as [[it a] im].
  destruct Hb as [_ Hesc]; [lia | lia |]. cbn [fst]. intros Hstop H1.
  replace (it <? max_iter)%Z with true by (symmetry; apply Z.ltb_lt; lia).
  cbv zeta. specialize (Hesc Hstop).
  assert (Hl : 1 < log2 (0.5 * ln (a * a + im * im))).
  { apply log2_above_1. pose proof (ln_above_4 _ Hesc). lra. }
  assert (0 < IZR it) by (apply IZR_lt; lia).
  destruct (Rltb 0 _) eqn:E0; Rcmp; lra.
Qed.

(** X2: when the main loop stops before [max_iter], the smoothed count it
    returns is non-negative and strictly below the iteration at which it
    stopped: with the bailout 256 the correction [1 - log2 (0.5 * ln m)] is
    always negative. *)
Theorem smoothing_below_stop (cr ci : R) (max_iter : Z) :
  (0 < max_iter)%Z ->
  quick_mandelbrot_check cr ci = false ->
  series_accepted cr ci max_iter = false ->
  (stop_iteration cr ci max_iter < max_iter)%Z ->
  0 <= evaluate cr ci max_iter < IZR (stop_iteration cr ci max_iter).
Proof.
  intros Hm Hq Hs Hstop. rewrite (evaluate_fallthrough _ _ _ Hq Hs).
  apply escape_time_below_stop; assumption.
Qed.

Lemma smoothing_below_stop_witness :
  0 <= evaluate 2 2 50 < IZR (stop_iteration 2 2 50).
Proof.
  apply (smoothing_below_stop 2 2 50).
  - lia.
  - apply quick_check_2_2.
  - apply series_rejects_2_2.
  - unfold stop_iteration. rewrite stop_2_2_late by lia. cbn [fst]. lia.
Defined.

Lemma far_point_not_rejected (cr ci : R) :
  BAILOUT_TEST < cr * cr + ci * ci -> quick_mandelbrot_check cr ci = false.
Proof.
  unfold BAILOUT_TEST. intros H.
  unfold quick_mandelbrot_check; cbv zeta.
  set (x := cr - 0.25). set (q := x * x + ci * ci).
  assert (Hq : 248 < q).
  { unfold q, x. pose proof (Rle_0_sqr (cr - 16)) as S. unfold Rsqr in S.
    nra. }
  assert (Hqx : (q - 1) / 2 <= q + x).
  { unfold q. pose proof (Rle_0_sqr (x + 1)) as S. unfold Rsqr in S.
    pose proof (Rle_0_sqr ci) as S2. unfold Rsqr in S2. nra. }
  assert (Hci : ci * ci <= q).
  { unfold q. pose proof (Rle_0_sqr x) as S. unfold Rsqr in S. lra. }
  replace (Rltb (q * (q + x)) (0.25 * ci * ci)) with false.
  - replace (Rltb ((cr + 1) * (cr + 1) + ci * ci) 0.0625) with false;
      [reflexivity|].
    symmetry; apply Rltb_false.
    pose proof (Rle_0_sqr (cr + 16)) as S. unfold Rsqr in S. nra.
  - symmetry; apply Rltb_false. nra.
Qed.

Lemma series_rejects_outside (cr ci : R) (max_iter : Z) :
  ESCAPE_RADIUS_SQ < cr * cr + ci * ci ->
  series_accepted cr ci max_iter = false.
Proof.
  intros Hout. unfold series_accepted.
  destruct (MIN_SERIES_ITER <=? max_iter)%Z eqn:E; [|reflexivity].
  apply Z.leb_le in E. unfold MIN_SERIES_ITER in E. cbn [andb].
  apply Rltb_false.
  assert (Hs : series_approximation cr ci max_iter = -1).
  { unfold series_approximation.
    replace (max_iter <? MIN_SERIES_ITER)%Z with false
      by (symmetry; apply Z.ltb_ge; unfold MIN_SERIES_ITER; lia).
    assert (Hn : series_loop (seed_passes max_iter) (mkComplex cr ci)
                             (mkComplex 0 0) (mkComplex 1 0) = None).
    { apply series_loop_escape. exists 1%nat. split.
      - unfold seed_passes, SERIES_TERMS.
        rewrite Z.quot_div_nonneg by lia.
        assert (2 <= max_iter / 4)%Z by (apply Z.div_le_lower_bound; lia).
        lia.
      - cbn [orbit_from]. unfold mandel_step, magnitude_sq; cbn [fst snd].
        lra. }
    rewrite Hn. reflexivity. }
  rewrite Hs. lra.
Qed.

(** X3: a point clear of the bailout disc ([cr^2 + ci^2 >= 257], so that
    the test against 256 is decided with room for rounding) is never
    fast-rejected nor series-estimated; for every [max_iter >= 2] the loop
    stops at iteration 1 and the evaluator returns a value in [[0, 1)]. *)
Theorem far_point_escapes_first (cr ci : R) (max_iter : Z) :
  257 <= cr * cr + ci * ci ->
  (2 <= max_iter)%Z ->
  stop_iteration cr ci max_iter = 1%Z /\
  0 <= evaluate cr ci max_iter < 1.
Proof.
  intros Hclear Hm.
  assert (Hfar : BAILOUT_TEST < cr * cr + ci * ci)
    by (unfold BAILOUT_TEST; lra).
  assert (Hstop : stop_iteration cr ci max_iter = 1%Z).
  { unfold stop_iteration, full_iteration.
    rewrite (mandel_loop_first_escape 1); try lia; [reflexivity | |].
    - intros j Hj. assert (j = O) by lia. subst j.
      unfold orbit, magnitude_sq, BAILOUT_TEST; cbn [orbit_from fst snd]. lra.
    - unfold orbit; cbn [orbit_from]. unfold mandel_step, magnitude_sq;
        cbn [fst snd]. lra. }
  split; [exact Hstop|].
  rewrite evaluate_fallthrough.
  - pose proof (escape_time_below_stop cr ci max_iter) as H.
    rewrite Hstop in H. apply H; lia.
  - apply far_point_not_rejected, Hfar.
  - apply series_rejects_outside. unfold ESCAPE_RADIUS_SQ, BAILOUT_TEST in *.
    lra.
Qed.

Lemma far_point_escapes_first_witness :
  stop_iteration 20 0 1000 = 1%Z /\ 0 <= evaluate 20 0 1000 < 1.
Proof.
  apply (far_point_escapes_first 20 0 1000); [lra | lia].
Defined.

(** ** Contents of the histogram *)

Lemma list_max_Z_replace_nth (l : list Z) (n : nat) (c : Z) :
  nth_error l n = Some c ->
  list_max_Z (replace_nth l n (c + 1)%Z) = Z.max (list_max_Z l) (c + 1).
Proof.
  unfold list_max_Z.
  revert n; induction l as [|a l IH]; intros [|n]; cbn; try discriminate.
  - intros [= ->]. lia.
  - intros H. rewrite (IH _ H). lia.
Qed.

Lemma list_max_Z_le_sum (l : list Z) :
  Forall (fun c => 0 <= c)%Z l -> (0 <= list_max_Z l <= sum_counts l)%Z.
Proof.
  unfold list_max_Z, sum_counts.
  induction 1 as [|a l Ha Hl IH]; cbn; lia.
Qed.

Lemma Forall_replace_nth {A : Type} (P : A -> Prop) (l : list A) (n : nat)
      (v : A) :
  Forall P l -> P v -> Forall P (replace_nth l n v).
Proof.
  intros Hl Hv. revert n; induction Hl as [|a l Ha Hl IH]; intros [|n]; cbn;
    constructor; auto.
Qed.

Lemma nth_replace_nth (l : list Z) (n j : nat) (v : Z) :
  (n < length l)%nat ->
  nth j (replace_nth l n v) 0%Z = if Nat.eqb j n then v else nth j l 0%Z.
Proof.
  revert n j; induction l as [|a l IH]; intros n j Hn; cbn in Hn; [lia|].
  destruct n as [|n], j as [|j]; cbn; try reflexivity.
  apply IH. lia.
Qed.

Lemma count_bucket_cons (b : Z) (x : R) (l : list R) :
  count_bucket b (x :: l)
  = ((if (double_to_int x =? b)%Z then 1 else 0) + count_bucket b l)%Z.
Proof.
  unfold count_bucket. cbn [filter].
  destruct (double_to_int x =? b)%Z; cbn [length]; lia.
Qed.

(** What one pass of the histogram loop does to a well-formed histogram. *)
Lemma histogram_pixel_step (m : Z) (h : Histogram) (x : R) :
  (0 < m)%Z -> 0 <= x < IZR m -> length (counts h) = Z.to_nat m ->
  exists c,
    nth_error (counts h) (Z.to_nat (double_to_int x)) = Some c /\
    histogram_pixel m h x
    = Done (mkHistogram
              (replace_nth (counts h) (Z.to_nat (double_to_int x)) (c + 1)%Z)
              (total_pixels h + 1)%Z
              (Z.max (max_count h) (c + 1))).
Proof.
  intros Hm [Hx0 Hx1] Hlen. unfold histogram_pixel; cbv zeta.
  pose proof (double_to_int_nonneg x Hx0) as Hb0.
  assert (Hb1 : (double_to_int x < m)%Z) by (apply double_to_int_lt; auto).
  replace (double_to_int x <? m)%Z with true
    by (symmetry; apply Z.ltb_lt; exact Hb1).
  destruct (load_in_range (counts h) (double_to_int x)) as [c Hc]; [lia|].
  rewrite Hc. cbn [bind]. rewrite store_Done by lia. cbn [bind].
  apply load_Done in Hc as [_ Hc]. exists c. split; [exact Hc|].
  do 2 f_equal. destruct (max_count h <? c + 1)%Z eqn:E.
  - apply Z.ltb_lt in E. lia.
  - apply Z.ltb_ge in E. lia.
Qed.

Lemma histogram_fold_full (m : Z) (data : list R) :
  (0 < m)%Z ->
  Forall (fun x => 0 <= x <= IZR m) data ->
  forall h0,
    length (counts h0) = Z.to_nat m ->
    Forall (fun c => 0 <= c)%Z (counts h0) ->
    max_count h0 = list_max_Z (counts h0) ->
    exists hf,
      fold_left (fun acc x => h <- acc ;; histogram_pixel m h x)
                data (Done h0) = Done hf /\
      length (counts hf) = Z.to_nat m /\
      Forall (fun c => 0 <= c)%Z (counts hf) /\
      max_count hf = list_max_Z (counts hf) /\
      forall j, (j < Z.to_nat m)%nat ->
                nth j (counts hf) 0%Z
                = (nth j (counts h0) 0 + count_bucket (Z.of_nat j) data)%Z.
Proof.
  intros Hm Hall. induction Hall as [|x l Hx Hl IH]; intros h0 Hlen Hpos Hmax.
  - exists h0. unfold count_bucket. cbn. repeat split; auto. intros; lia.
  - cbn [fold_left bind].
    destruct (Rltb x (IZR m)) eqn:E; Rcmp.
    + destruct (histogram_pixel_step m h0 x Hm) as (c & Hc & E1);
        [lra | exact Hlen |].
      rewrite E1.
      assert (Hc0 : (0 <= c)%Z).
      { rewrite Forall_forall in Hpos. apply Hpos.
        eapply nth_error_In. exact Hc. }
      assert (Hbl : (Z.to_nat (double_to_int x) < length (counts h0))%nat).
      { apply nth_error_Some. rewrite Hc. discriminate. }
      destruct (IH (mkHistogram
                      (replace_nth (counts h0) (Z.to_nat (double_to_int x))
                                   (c + 1)%Z)
                      (total_pixels h0 + 1)%Z
                      (Z.max (max_count h0) (c + 1))))
        as (hf & Ef & Lf & Pf & Mf & Bf); cbn [counts max_count].
      * rewrite replace_nth_length. exact Hlen.
      * apply Forall_replace_nth; [exact Hpos | lia].
      * rewrite (list_max_Z_replace_nth _ _ c Hc), Hmax. reflexivity.
      * exists hf. repeat split; auto. intros j Hj. cbn [counts] in Bf.
        rewrite (Bf j Hj), nth_replace_nth by exact Hbl.
        rewrite count_bucket_cons.
        pose proof (double_to_int_nonneg x (proj1 Hx)) as Hb0.
        destruct (Nat.eqb j (Z.to_nat (double_to_int x))) eqn:Ej.
        -- apply Nat.eqb_eq in Ej. subst j. rewrite Z2Nat.id by exact Hb0.
           rewrite Z.eqb_refl. rewrite (nth_error_nth _ _ 0%Z Hc). lia.
        -- apply Nat.eqb_neq in Ej.
           replace (double_to_int x =? Z.of_nat j)%Z with false
             by (symmetry; apply Z.eqb_neq; lia).
           lia.
    + rewrite histogram_pixel_skipped by (auto; lra).
      destruct (IH h0 Hlen Hpos Hmax) as (hf & Ef & Lf & Pf & Mf & Bf).
      exists hf. repeat split; auto. intros j Hj.
      rewrite (Bf j Hj), count_bucket_cons.
      replace (double_to_int x =? Z.of_nat j)%Z with false; [lia|].
      symmetry; apply Z.eqb_neq. intros Heq.
      assert (double_to_int x < m)%Z by lia.
      apply double_to_int_lt in H; [lra | exact Hm].
Qed.

Lemma list_max_Z_zero (l : list Z) :
  Forall (fun c => 0 <= c)%Z l -> list_max_Z l = 0%Z -> sum_counts l = 0%Z.
Proof.
  unfold list_max_Z, sum_counts.
  induction 1 as [|a l Ha Hl IH]; cbn; intros H; [reflexivity|].
  assert (fold_right Z.max 0%Z l = 0%Z).
  { pose proof (list_max_Z_le_sum l Hl) as [H0 _].
    unfold list_max_Z in H0. lia. }
  rewrite IH by assumption. lia.
Qed.

Lemma list_max_Z_repeat_0 (n : nat) : list_max_Z (repeat 0%Z n) = 0%Z.
Proof.
  unfold list_max_Z. induction n as [|n IH]; cbn; [reflexivity|].
  rewrite IH. reflexivity.
Qed.

Lemma build_histogram_full (al : Allocator) (iteration_data : list R)
      (width height max_iter : Z) :
  (0 < max_iter)%Z ->
  Z.to_nat (width * height) = length iteration_data ->
  Forall (fun x => 0 <= x <= IZR max_iter) iteration_data ->
  malloc_hist al = true -> calloc_counts al = true ->
  exists hist,
    build_histogram al iteration_data width height max_iter
    = Done (Some hist) /\
    length (counts hist) = Z.to_nat max_iter /\
    Forall (fun c => 0 <= c)%Z (counts hist) /\
    max_count hist = list_max_Z (counts hist) /\
    sum_counts (counts hist) = total_pixels hist /\
    (forall j, (j < Z.to_nat max_iter)%nat ->
               nth j (counts hist) 0%Z
               = count_bucket (Z.of_nat j) iteration_data).
Proof.
  intros Hm Hlen Hall Ha Hc.
  destruct (build_histogram_Done al iteration_data width height max_iter
              Hm Hlen Hall Ha Hc) as (hist & Hb & Hs & _).
  exists hist. split; [exact Hb|].
  unfold build_histogram in Hb. rewrite Ha, Hc in Hb. cbn [negb] in Hb.
  unfold histogram_loop in Hb.
  rewrite (fold_zrange_as_list (histogram_pixel max_iter)) in Hb
    by exact Hlen.
  destruct (histogram_fold_full max_iter iteration_data Hm Hall
              (mkHistogram (repeat 0%Z (Z.to_nat max_iter)) 0 0))
    as (hf & Ef & Lf & Pf & Mf & Bf); cbn [counts max_count].
  { apply repeat_length. }
  { apply Forall_forall. intros c Hc0. apply repeat_spec in Hc0. lia. }
  { symmetry. apply list_max_Z_repeat_0. }
  rewrite Ef in Hb. cbn [bind] in Hb. injection Hb as <-.
  repeat split; auto.
  intros j Hj. rewrite (Bf j Hj). cbn [counts].
  rewrite nth_repeat. lia.
Qed.

(** X4: bucket [b] of the histogram holds the number of pixels whose
    result, truncated to an integer, is [b]; there are exactly [max_iter]
    buckets. *)
Theorem histogram_bucket_contents (al : Allocator) (iteration_data : list R)
        (width height max_iter : Z) :
  (0 < max_iter)%Z ->
  Z.to_nat (width * height) = length iteration_data ->
  Forall (fun x => 0 <= x <= IZR max_iter) iteration_data ->
  malloc_hist al = true -> calloc_counts al = true ->
  exists hist,
    build_histogram al iteration_data width height max_iter
    = Done (Some hist) /\
    length (counts hist) = Z.to_nat max_iter /\
    forall b, (0 <= b < max_iter)%Z ->
              nth_error (counts hist) (Z.to_nat b)
              = Some (count_bucket b iteration_data).
Proof.
  intros Hm Hlen Hall Ha Hc.
  destruct (build_histogram_full al iteration_data width height max_iter
              Hm Hlen Hall Ha Hc) as (hist & Hb & Hl & _ & _ & _ & Hn).
  exists hist. repeat split; auto. intros b Hb0.
  rewrite (nth_error_nth' _ 0%Z) by lia.
  rewrite Hn by lia. rewrite Z2Nat.id by lia. reflexivity.
Qed.

Lemma histogram_bucket_contents_witness :
  exists hist,
    build_histogram (mkAllocator true true) [0.5; 2; 1.25] 3 1 2
    = Done (Some hist) /\
    length (counts hist) = Z.to_nat 2 /\
    forall b, (0 <= b < 2)%Z ->
              nth_error (counts hist) (Z.to_nat b)
              = Some (count_bucket b [0.5; 2; 1.25]).
Proof.
  apply (histogram_bucket_contents (mkAllocator true true)
                                   [0.5; 2; 1.25] 3 1 2);
    try reflexivity; try lia.
  repeat constructor; lra.
Defined.

(** X5: [max_count] is the largest bucket; it never exceeds
    [total_pixels], and it is zero exactly when no pixel was counted. *)
Theorem histogram_max_count (al : Allocator) (iteration_data : list R)
        (width height max_iter : Z) :
  (0 < max_iter)%Z ->
  Z.to_nat (width * height) = length iteration_data ->
  Forall (fun x => 0 <= x <= IZR max_iter) iteration_data ->
  malloc_hist al = true -> calloc_counts al = true ->
  exists hist,
    build_histogram al iteration_data width height max_iter
    = Done (Some hist) /\
    max_count hist = list_max_Z (counts hist) /\
    (0 <= max_count hist <= total_pixels hist)%Z /\
    (max_count hist = 0%Z <-> total_pixels hist = 0%Z).
Proof.
  intros Hm Hlen Hall Ha Hc.
  destruct (build_histogram_full al iteration_data width height max_iter
              Hm Hlen Hall Ha Hc) as (hist & Hb & _ & Hp & Hx & Hs & _).
  exists hist. split; [exact Hb|]. split; [exact Hx|].
  pose proof (list_max_Z_le_sum _ Hp) as Hle.
  rewrite Hx, <- Hs. split; [exact Hle|]. split.
  - apply list_max_Z_zero. exact Hp.
  - lia.
Qed.

Lemma histogram_max_count_witness :
  exists hist,
    build_histogram (mkAllocator true true) [0.5; 2; 1.25; 0.75] 2 2 2
    = Done (Some hist) /\
    max_count hist = list_max_Z (counts hist) /\
    (0 <= max_count hist <= total_pixels hist)%Z /\
    (max_count hist = 0%Z <-> total_pixels hist = 0%Z).
Proof.
  apply (histogram_max_count (mkAllocator true true)
                             [0.5; 2; 1.25; 0.75] 2 2 2);
    try reflexivity; try lia.
  repeat constructor; lra.
Defined.

(** ** The normalised position of a pixel *)

Lemma sum_counts_firstn_S (cs : list Z) (n : nat) (c : Z) :
  nth_error cs n = Some c ->
  sum_counts (firstn (S n) cs) = (sum_counts (firstn n cs) + c)%Z.
Proof.
  unfold sum_counts.
  revert n; induction cs as [|a cs IH]; intros [|n]; cbn [nth_error];
    try discriminate.
  - intros [= ->]. cbn. lia.
  - intros H. specialize (IH n H). cbn [firstn fold_right] in *. lia.
Qed.

Lemma accumulate_prefix (cs : list Z) (n : nat) :
  (n <= length cs)%nat ->
  fold_left (fun acc i => a <- acc ;; c <- load cs i ;; Done (a + c)%Z)
            (map Z.of_nat (seq 0 n)) (Done 0%Z)
  = Done (sum_counts (firstn n cs)).
Proof.
  induction n as [|n IH]; intros Hn; [reflexivity|].
  rewrite seq_S, map_app, fold_left_app, IH by lia.
  cbn [map fold_left bind Nat.add].
  destruct (nth_error cs n) as [c|] eqn:E.
  - assert (L : load cs (Z.of_nat n) = Done c).
    { apply load_Done. split; [lia|]. rewrite Nat2Z.id. exact E. }
    rewrite L. cbn [bind]. rewrite (sum_counts_firstn_S _ _ _ E). reflexivity.
  - apply nth_error_None in E. lia.
Qed.

Lemma count_upto_step (b : Z) (data : list R) :
  count_upto b data = (count_upto (b - 1) data + count_bucket b data)%Z.
Proof.
  unfold count_upto, count_bucket.
  induction data as [|x data IH]; [reflexivity|]. cbn [filter].
  destruct (double_to_int x <=? b)%Z eqn:E1,
           (double_to_int x <=? b - 1)%Z eqn:E2,
           (double_to_int x =? b)%Z eqn:E3; cbn [length];
    try lia;
    exfalso;
    repeat match goal with
           | H : (_ <=? _)%Z = true |- _ => apply Z.leb_le in H
           | H : (_ <=? _)%Z = false |- _ => apply Z.leb_gt in H
           | H : (_ =? _)%Z = true |- _ => apply Z.eqb_eq in H
           | H : (_ =? _)%Z = false |- _ => apply Z.eqb_neq in H
           end; lia.
Qed.

Lemma count_upto_negative (data : list R) :
  Forall (fun x => 0 <= x) data -> count_upto (-1) data = 0%Z.
Proof.
  unfold count_upto. induction 1 as [|x data Hx Hd IH]; [reflexivity|].
  cbn [filter]. pose proof (double_to_int_nonneg x Hx).
  replace (double_to_int x <=? -1)%Z with false
    by (symmetry; apply Z.leb_gt; lia).
  exact IH.
Qed.

Lemma count_upto_le_escaped (b m : Z) (data : list R) :
  (0 < m)%Z -> (b < m)%Z -> (count_upto b data <= count_escaped m data)%Z.
Proof.
  intros Hm Hb. unfold count_upto, count_escaped.
  induction data as [|x data IH]; [cbn; lia|]. cbn [filter].
  destruct (double_to_int x <=? b)%Z eqn:E.
  - apply Z.leb_le in E.
    assert (x < IZR m) by (apply double_to_int_lt; lia).
    replace (Rltb x (IZR m)) with true by (symmetry; apply Rltb_true; lra).
    cbn [length]. lia.
  - destruct (Rltb x (IZR m)); cbn [length]; lia.
Qed.

Lemma count_upto_member (x : R) (data : list R) :
  In x data -> (1 <= count_upto (double_to_int x) data)%Z.
Proof.
  intros Hin. unfold count_upto.
  assert (H : In x (filter (fun y => (double_to_int y <=? double_to_int x)%Z)
                           data)).
  { apply filter_In. split; [exact Hin | apply Z.leb_le; lia]. }
  destruct (filter _ data); [destruct H | cbn [length]; lia].
Qed.

Lemma prefix_sum_is_count (cs : list Z) (data : list R) (m : nat) :
  Forall (fun x => 0 <= x) data ->
  length cs = m ->
  (forall j, (j < m)%nat -> nth j cs 0%Z = count_bucket (Z.of_nat j) data) ->
  forall n, (n <= m)%nat ->
            sum_counts (firstn n cs) = count_upto (Z.of_nat n - 1) data.
Proof.
  intros Hpos Hlen Hb. induction n as [|n IH]; intros Hn.
  - cbn [firstn]. rewrite count_upto_negative by exact Hpos. reflexivity.
  - rewrite (sum_counts_firstn_S _ _ (nth n cs 0%Z))
      by (apply nth_error_nth'; lia).
    rewrite IH by lia. rewrite Hb by lia.
    rewrite (count_upto_step (Z.of_nat (S n) - 1)).
    replace (Z.of_nat (S n) - 1)%Z with (Z.of_nat n) by lia. reflexivity.
Qed.

Lemma histogram_mapper_value (al : Allocator) (iteration_data : list R)
        (width height max_iter : Z) :
  (0 < max_iter)%Z ->
  Z.to_nat (width * height) = length iteration_data ->
  Forall (fun x => 0 <= x <= IZR max_iter) iteration_data ->
  malloc_hist al = true -> calloc_counts al = true ->
  exists hist,
    build_histogram al iteration_data width height max_iter
    = Done (Some hist) /\
    forall x,
      In x iteration_data -> x < IZR max_iter ->
      let a := count_upto (double_to_int x) iteration_data in
      (1 <= a <= total_pixels hist)%Z /\
      map_iteration_to_color_histogram x max_iter (Some hist)
      = Done (histogram_palette (IZR a / IZR (total_pixels hist))) /\
      0 < IZR a / IZR (total_pixels hist) <= 1.
Proof.
  intros Hm Hlen Hall Ha Hc.
  destruct (build_histogram_full al iteration_data width height max_iter
              Hm Hlen Hall Ha Hc) as (hist & Hb & Hl & _ & _ & _ & Hn).
  destruct (build_histogram_Done al iteration_data width height max_iter
              Hm Hlen Hall Ha Hc) as (hist' & Hb' & _ & Ht).
  rewrite Hb in Hb'. injection Hb' as <-.
  exists hist. split; [exact Hb|]. intros x Hin Hx a.
  assert (Hpos : Forall (fun y => 0 <= y) iteration_data).
  { eapply Forall_impl; [|exact Hall]. cbn. intros; lra. }
  assert (Hx0 : 0 <= x).
  { rewrite Forall_forall in Hpos. apply Hpos, Hin. }
  pose proof (double_to_int_nonneg x Hx0) as Hb0.
  assert (Hb1 : (double_to_int x < max_iter)%Z)
    by (apply double_to_int_lt; assumption).
  assert (Ha1 : (1 <= a)%Z) by (apply count_upto_member, Hin).
  assert (Ha2 : (a <= total_pixels hist)%Z)
    by (rewrite Ht; apply count_upto_le_escaped; assumption).
  assert (Hacc : accumulate_counts (counts hist) (double_to_int x) max_iter
                 = Done a).
  { unfold accumulate_counts, zrange.
    replace (Z.min (double_to_int x + 1) max_iter)
      with (double_to_int x + 1)%Z by lia.
    rewrite accumulate_prefix by lia. f_equal.
    rewrite (prefix_sum_is_count _ iteration_data (Z.to_nat max_iter));
      auto; try lia.
    unfold a. f_equal. lia. }
  assert (Ht0 : 0 < IZR (total_pixels hist)) by (apply IZR_lt; lia).
  split; [lia|]. split.
  - unfold map_iteration_to_color_histogram.
    replace (Rgeb x (IZR max_iter)) with false
      by (symmetry; apply Rgeb_false; exact Hx).
    cbv zeta.
    replace (max_iter <=? double_to_int x)%Z with false
      by (symmetry; apply Z.leb_gt; lia).
    rewrite Hacc. cbn [bind].
    replace (total_pixels hist =? 0)%Z with false
      by (symmetry; apply Z.eqb_neq; lia).
    reflexivity.
  - assert (0 < IZR a) by (apply IZR_lt; lia).
    assert (IZR a <= IZR (total_pixels hist)) by (apply IZR_le; lia).
    split.
    + apply Rdiv_lt_0_compat; assumption.
    + apply (Rmult_le_reg_r (IZR (total_pixels hist))); [exact Ht0|].
      unfold Rdiv. rewrite Rmult_assoc, Rinv_l by lra. lra.
Qed.

(** X6: for a pixel of the buffer with result below [max_iter], the
    histogram mapper accumulates the number of pixels whose truncated
    result does not exceed its own; that number lies between 1 and
    [total_pixels], so the normalised position fed to the palette lies in
    [(0, 1]]. *)
Theorem histogram_position_range (al : Allocator) (iteration_data : list R)
        (width height max_iter : Z) :
  (0 < max_iter)%Z ->
  Z.to_nat (width * height) = length iteration_data ->
  Forall (fun x => 0 <= x <= IZR max_iter) iteration_data ->
  malloc_hist al = true -> calloc_counts al = true ->
  exists hist,
    build_histogram al iteration_data width height max_iter
    = Done (Some hist) /\
    forall x,
      In x iteration_data -> x < IZR max_iter ->
      let a := count_upto (double_to_int x) iteration_data in
      (1 <= a <= total_pixels hist)%Z /\
      map_iteration_to_color_histogram x max_iter (Some hist)
      = Done (histogram_palette (IZR a / IZR (total_pixels hist))) /\
      0 < IZR a / IZR (total_pixels hist) <= 1.
Proof.
  intros Hm Hlen Hall Ha Hc.
  destruct (histogram_mapper_value al iteration_data width height max_iter
              Hm Hlen Hall Ha Hc) as (hist & Hb & Hx).
  exists hist. split; [exact Hb|].
  intros x Hin Hlt a. destruct (Hx x Hin Hlt) as (H1 & H2 & H3).
  split; [exact H1|]. split; [exact H2 | exact H3].
Qed.

Lemma histogram_position_range_witness :
  exists hist,
    build_histogram (mkAllocator true true) [0.5; 2; 1.25] 3 1 2
    = Done (Some hist) /\
    forall x,
      In x [0.5; 2; 1.25] -> x < IZR 2 ->
      let a := count_upto (double_to_int x) [0.5; 2; 1.25] in
      (1 <= a <= total_pixels hist)%Z /\
      map_iteration_to_color_histogram x 2 (Some hist)
      = Done (histogram_palette (IZR a / IZR (total_pixels hist))) /\
      0 < IZR a / IZR (total_pixels hist) <= 1.
Proof.
  apply (histogram_position_range (mkAllocator true true)
                                  [0.5; 2; 1.25] 3 1 2);
    try reflexivity; try lia.
  repeat constructor; lra.
Defined.

(** ** Range of the colour channels *)

Lemma double_to_int_bounds (x : R) (lo hi : Z) :
  (lo <= 0 <= hi)%Z -> IZR lo - 1 < x < IZR hi + 1 ->
  (lo <= double_to_int x <= hi)%Z.
Proof.
  intros Hz [Hlo Hhi]. unfold double_to_int.
  destruct (Rltb x 0) eqn:E; Rcmp.
  - pose proof (Zceil_bound x) as [Hc1 Hc2]. split.
    + assert (lo - 1 < Zceil x)%Z by (apply lt_IZR; rewrite minus_IZR; lra).
      lia.
    + assert (Zceil x < 1)%Z by (apply lt_IZR; lra). lia.
  - pose proof (Zfloor_bound x) as [Hf1 Hf2]. split.
    + assert (0 <= Zfloor x)%Z by (apply Zfloor_lub; exact E). lia.
    + assert (Zfloor x < hi + 1)%Z by (apply lt_IZR; rewrite plus_IZR; lra).
      lia.
Qed.

Lemma c_pow_range (y e : R) :
  0 <= y <= 1 -> 0 <= e -> 0 <= c_pow y e <= 1.
Proof.
  intros [Hy0 Hy1] He. unfold c_pow.
  destruct (Rltb 0 y) eqn:E; Rcmp; [|lra].
  unfold Rpower. split; [left; apply exp_pos|].
  assert (Hln : ln y <= 0).
  { destruct (Req_dec y 1) as [-> | Hne]; [rewrite ln_1; lra|].
    rewrite <- ln_1. left. apply ln_increasing; lra. }
  destruct (Req_dec (e * ln y) 0) as [-> | Hne]; [rewrite exp_0; lra|].
  rewrite <- exp_0. left. apply exp_increasing. nra.
Qed.

Lemma channel_in_byte (v : R) :
  0 <= v <= 1 -> (0 <= double_to_uchar (255 * v) <= 255)%Z.
Proof.
  intros Hv. unfold double_to_uchar.
  apply double_to_int_bounds; [lia | lra].
Qed.

(** X7: for a result [0 <= x < max_iter] every channel computed by the
    standard mapper lies in [0 .. 255], so its conversion to
    [unsigned char] is always defined. *)
Theorem standard_channels_in_range (smooth_iter : R) (max_iter : Z) :
  (0 < max_iter)%Z -> 0 <= smooth_iter < IZR max_iter ->
  let c := map_iteration_to_color_standard smooth_iter max_iter in
  (0 <= r c <= 255)%Z /\ (0 <= g c <= 255)%Z /\ (0 <= b c <= 255)%Z.
Proof.
  intros Hm [Hx0 Hx1]. unfold map_iteration_to_color_standard.
  replace (Rgeb smooth_iter (IZR max_iter)) with false
    by (symmetry; apply Rgeb_false; exact Hx1).
  cbv zeta. cbn [r g b].
  assert (Hp : 0 < IZR max_iter) by (apply IZR_lt; lia).
  set (t := smooth_iter / IZR max_iter).
  assert (Ht : 0 <= t < 1).
  { unfold t. split.
    - apply Rmult_le_pos; [exact Hx0 | left; apply Rinv_0_lt_compat, Hp].
    - apply (Rmult_lt_reg_r (IZR max_iter)); [exact Hp|].
      unfold Rdiv. rewrite Rmult_assoc, Rinv_l by lra. lra. }
  pose proof (c_pow_range (1 - t) 0.4) as Hb.
  assert (Hcomp : forall a, 0 <= 0.5 * (1 + cos a) * c_pow (1 - t) 0.4 <= 1).
  { intros a. pose proof (COS_bound a). nra. }
  repeat split.
  all: match goal with
       | |- context [cos ?a] =>
           replace (255 * (0.5 * (1 + cos a)) * c_pow (1 - t) 0.4)
             with (255 * (0.5 * (1 + cos a) * c_pow (1 - t) 0.4)) by ring;
           apply channel_in_byte, Hcomp
       end.
Qed.

Lemma standard_channels_in_range_witness :
  let c := map_iteration_to_color_standard 12.5 100 in
  (0 <= r c <= 255)%Z /\ (0 <= g c <= 255)%Z /\ (0 <= b c <= 255)%Z.
Proof. apply (standard_channels_in_range 12.5 100); [lia | lra]. Defined.

Lemma scaled_lower (c br : R) :
  -0.05 <= c -> 0.3 <= br <= 1 -> -0.05 <= c * br.
Proof. intros Hc Hb. destruct (Rle_lt_dec 0 c); nra. Qed.

Lemma channel_upto_byte (v : R) :
  -0.05 <= v <= 1 -> (-12 <= double_to_uchar (255 * v) <= 255)%Z.
Proof.
  intros Hv. unfold double_to_uchar.
  apply double_to_int_bounds; [lia | lra].
Qed.

(** X8: for a normalised position in [[0, 1]] the histogram palette never
    produces a channel above 255; the red channel lies in [0 .. 255], while
    for green and blue the formula only guarantees a value of at least
    -12. *)
Theorem histogram_palette_range (normalized_pos : R) :
  0 <= normalized_pos <= 1 ->
  let c := histogram_palette normalized_pos in
  (0 <= r c <= 255)%Z /\ (-12 <= g c <= 255)%Z /\ (-12 <= b c <= 255)%Z.
Proof.
  intros Hp. unfold histogram_palette; cbv zeta. cbn [r g b].
  pose proof (c_pow_range normalized_pos 0.8 Hp ltac:(lra)) as Hb.
  set (br := 0.3 + 0.7 * c_pow normalized_pos 0.8).
  assert (Hbr : 0.3 <= br <= 1) by (unfold br; lra).
  split; [|split].
  - apply channel_in_byte.
    replace (normalized_pos * 16 * PI) with (2 * (normalized_pos * 8 * PI))
      by ring.
    rewrite cos_2a_cos.
    set (c1 := cos (normalized_pos * 8 * PI)).
    pose proof (COS_bound (normalized_pos * 8 * PI)) as Hc. fold c1 in Hc.
    assert (Hr : 0.2 <= 0.5 * (1 + 0.8 * c1 + 0.3 * (2 * c1 * c1 - 1)) <= 1.05).
    { pose proof (Rle_0_sqr (c1 + 2 / 3)) as S. unfold Rsqr in S. nra. }
    split.
    + apply Rmin_glb; [lra | apply Rmult_le_pos; lra].
    + apply Rmin_l.
  - apply channel_upto_byte.
    pose proof (COS_bound (normalized_pos * 8 * PI + 2 * PI / 3)) as Hc.
    pose proof (SIN_bound (normalized_pos * 16 * PI)) as Hs.
    split; [apply Rmin_glb; [lra | apply scaled_lower; lra] | apply Rmin_l].
  - apply channel_upto_byte.
    pose proof (COS_bound (normalized_pos * 8 * PI + 4 * PI / 3)) as Hc.
    pose proof (COS_bound (normalized_pos * 32 * PI)) as Hc3.
    split; [apply Rmin_glb; [lra | apply scaled_lower; lra] | apply Rmin_l].
Qed.

Lemma histogram_palette_range_witness :
  let c := histogram_palette 0.25 in
  (0 <= r c <= 255)%Z /\ (-12 <= g c <= 255)%Z /\ (-12 <= b c <= 255)%Z.
Proof. apply (histogram_palette_range 0.25). lra. Defined.

Lemma cos_PI12_lower : 0.95 <= cos (PI / 3 - PI / 4).
Proof.
  rewrite cos_minus, cos_PI3, cos_PI4, sin_PI3, sin_PI4.
  assert (H2 : 0 < sqrt 2) by (apply sqrt_lt_R0; lra).
  assert (H3 : 0 < sqrt 3) by (apply sqrt_lt_R0; lra).
  pose proof (sqrt_sqrt 2 ltac:(lra)) as S2.
  pose proof (sqrt_sqrt 3 ltac:(lra)) as S3.
  assert (B2 : sqrt 2 <= 1.415) by nra.
  assert (B3 : 1.73 <= sqrt 3) by nra.
  assert (I2 : 0.7067 <= 1 / sqrt 2).
  { apply (Rmult_le_reg_r (sqrt 2)); [exact H2|].
    unfold Rdiv. rewrite Rmult_assoc, Rinv_l by lra. lra. }
  nra.
Qed.

Lemma sin_PI12_bounds : 0 <= sin (PI / 3 - PI / 4) <= 0.26.
Proof.
  rewrite sin_minus, cos_PI3, cos_PI4, sin_PI3, sin_PI4.
  assert (H2 : 0 < sqrt 2) by (apply sqrt_lt_R0; lra).
  assert (H3 : 0 < sqrt 3) by (apply sqrt_lt_R0; lra).
  pose proof (sqrt_sqrt 2 ltac:(lra)) as S2.
  pose proof (sqrt_sqrt 3 ltac:(lra)) as S3.
  assert (B2 : 1.414 <= sqrt 2) by nra.
  assert (B3 : 1 <= sqrt 3 <= 1.733) by nra.
  assert (I2 : 0 < 1 / sqrt 2 <= 0.7073).
  { split; [apply Rdiv_lt_0_compat; lra|].
    apply (Rmult_le_reg_r (sqrt 2)); [exact H2|].
    unfold Rdiv. rewrite Rmult_assoc, Rinv_l by lra. lra. }
  split; nra.
Qed.

Lemma cos_taylor (x : R) : -2 <= x <= 2 -> 1 - x * x / 2 <= cos x.
Proof.
  intros [H1 H2]. destruct (pre_cos_bound x 0 H1 H2) as [L _].
  unfold cos_approx, cos_term in L. simpl in L. lra.
Qed.

Lemma sin_upper (x e : R) : - e <= x <= e -> e <= 1 -> sin x <= e.
Proof.
  intros [H1 H2] He.
  destruct (Rlt_dec 0 x) as [P|P].
  - pose proof (sin_lt_x x P). lra.
  - assert (0 <= sin (- x)).
    { apply sin_ge_0; [lra|]. pose proof PI2_1. lra. }
    rewrite sin_neg in *. lra.
Qed.

(** X9: the lower bound 0 does fail for blue.  For every normalised
    position within 0.002 of 7/32 the blue value is negative before the
    conversion, so the channel is at most -1: a value that
    [unsigned char] cannot hold. *)
Theorem histogram_blue_negative (normalized_pos : R) :
  0.21675 <= normalized_pos <= 0.22075 ->
  (b (histogram_palette normalized_pos) <= -1)%Z.
Proof.
  intros Hp. set (d := normalized_pos - 7 / 32).
  assert (Hd : -0.002 <= d <= 0.002) by (unfold d; lra).
  pose proof PI_4 as P4. pose proof PI_RGT_0 as P0.
  unfold histogram_palette; cbv zeta. cbn [b].
  replace (normalized_pos * 32 * PI)
    with (32 * PI * d + PI + 2 * INR 3 * PI) by (unfold d; simpl INR; lra).
  rewrite cos_period, neg_cos.
  replace (normalized_pos * 8 * PI + 4 * PI / 3)
    with (PI / 3 - PI / 4 + 8 * PI * d + PI + 2 * INR 1 * PI)
    by (unfold d; simpl INR; lra).
  rewrite cos_period, neg_cos, cos_plus.
  pose proof cos_PI12_lower as Hc.
  pose proof (COS_bound (PI / 3 - PI / 4)) as [_ Hc1].
  pose proof sin_PI12_bounds as [Hs0 Hs1].
  assert (Hx : -0.064 <= 8 * PI * d <= 0.064) by nra.
  assert (Hy : -0.256 <= 32 * PI * d <= 0.256) by nra.
  pose proof (cos_taylor (8 * PI * d) ltac:(lra)) as Tx.
  pose proof (COS_bound (8 * PI * d)) as [_ Tx1].
  pose proof (cos_taylor (32 * PI * d) ltac:(lra)) as Ty.
  pose proof (sin_upper (8 * PI * d) 0.064 ltac:(lra) ltac:(lra)) as Sx.
  assert (Cx : 0.997 <= cos (8 * PI * d)) by nra.
  assert (Cy : 0.967 <= cos (32 * PI * d)) by nra.
  set (cA := cos (PI / 3 - PI / 4)) in *.
  set (sA := sin (PI / 3 - PI / 4)) in *.
  set (cx := cos (8 * PI * d)) in *. set (sx := sin (8 * PI * d)) in *.
  set (cy := cos (32 * PI * d)) in *.
  assert (M1 : 0.947 <= cA * cx) by nra.
  assert (M2 : sA * sx <= 0.01664).
  { destruct (Rle_dec 0 sx) as [Q|Q]; nra. }
  pose proof (c_pow_range normalized_pos 0.8 ltac:(lra) ltac:(lra)) as Hpw.
  set (br := 0.3 + 0.7 * c_pow normalized_pos 0.8).
  assert (Hbr : 0.3 <= br <= 1) by (unfold br; lra).
  set (comp := 0.5 * (1 + 0.8 * - (cA * cx - sA * sx) + 0.3 * - cy)).
  assert (Hcomp : comp <= -0.017) by (unfold comp; lra).
  assert (Hv : comp * br <= -0.0051) by nra.
  rewrite Rmin_right by lra.
  unfold double_to_uchar, double_to_int.
  replace (Rltb (255 * (comp * br)) 0) with true
    by (symmetry; apply Rltb_true; lra).
  pose proof (Zceil_bound (255 * (comp * br))) as [Hc2 _].
  assert (Zceil (255 * (comp * br)) < 0)%Z by (apply lt_IZR; lra).
  lia.
Qed.

Lemma histogram_blue_negative_witness :
  exists c,
    map_iteration_to_color_histogram
      0.5 2 (Some (mkHistogram [7%Z; 25%Z] 32 25)) = Done c /\
    (b c <= -1)%Z.
Proof.
  exists (histogram_palette (7 / 32)). split.
  - unfold map_iteration_to_color_histogram.
    replace (Rgeb 0.5 (IZR 2)) with false
      by (symmetry; apply Rgeb_false; lra).
    cbv zeta. cbn [counts total_pixels].
    assert (E : double_to_int 0.5 = 0%Z).
    { unfold double_to_int.
      replace (Rltb 0.5 0) with false by (symmetry; apply Rltb_false; lra).
      apply Zfloor_eq. lra. }
    rewrite E. reflexivity.
  - apply (histogram_blue_negative (7 / 32)). lra.
Defined.

(** ** The colouring loop in general *)

Lemma color_pixel_any (params : MandelbrotParams) (data : list R)
      (histogram : option Histogram) (i : Z) (x : R) (c : Color)
      (done : list Z) (a0 a1 a2 : Z) (rest : list Z) :
  load data i = Done x ->
  select_color histogram (max_iterations params) x = Done c ->
  Z.of_nat (length done) = (i * 3)%Z ->
  color_pixel params data histogram i (done ++ a0 :: a1 :: a2 :: rest)
  = Done ((done ++ pixel_bytes c) ++ rest).
Proof.
  intros Hx Hc Hlen. unfold color_pixel. rewrite Hx. cbn [bind].
  replace (match histogram with
           | Some _ =>
               map_iteration_to_color_histogram x (max_iterations params)
                                                histogram
           | None =>
               Done (map_iteration_to_color_standard
                       x (max_iterations params))
           end) with (Done c) by (rewrite <- Hc; reflexivity).
  cbn [bind].
  rewrite (store_app done a0) by lia. cbn [bind].
  replace (done ++ r c :: a1 :: a2 :: rest)
    with ((done ++ [r c]) ++ a1 :: a2 :: rest)
    by (rewrite <- app_assoc; reflexivity).
  rewrite (store_app (done ++ [r c]) a1)
    by (rewrite length_app; cbn [length]; lia).
  cbn [bind].
  replace ((done ++ [r c]) ++ g c :: a2 :: rest)
    with ((done ++ [r c; g c]) ++ a2 :: rest)
    by (rewrite <- !app_assoc; reflexivity).
  rewrite (store_app (done ++ [r c; g c]) a2)
    by (rewrite length_app; cbn [length]; lia).
  unfold pixel_bytes. rewrite <- !app_assoc. reflexivity.
Qed.

Lemma color_loop_any (params : MandelbrotParams)
      (histogram : option Histogram) (suf : list R) :
  (forall x, In x suf ->
             exists c, select_color histogram (max_iterations params) x
                       = Done c) ->
  forall (pre : list R) (done rest : list Z),
    length done = (3 * length pre)%nat ->
    length rest = (3 * length suf)%nat ->
    fold_left (fun acc i => d <- acc ;;
                            color_pixel params (pre ++ suf) histogram i d)
              (map Z.of_nat (seq (length pre) (length suf)))
              (Done (done ++ rest))
    = Done (done ++ colored_image histogram (max_iterations params) suf).
Proof.
  induction suf as [|x suf IH]; intros Hsel pre done rest Hd Hr.
  - destruct rest; [reflexivity | cbn in Hr; lia].
  - destruct rest as [|a0 [|a1 [|a2 rest]]]; cbn [length] in Hr; try lia.
    cbn [length seq map fold_left bind].
    destruct (Hsel x (or_introl eq_refl)) as [c Hc].
    rewrite (color_pixel_any params _ _ _ x c).
    + replace (pre ++ x :: suf) with ((pre ++ [x]) ++ suf)
        by (rewrite <- app_assoc; reflexivity).
      replace (S (length pre)) with (length (pre ++ [x]))
        by (rewrite length_app; cbn; lia).
      rewrite IH.
      * unfold colored_image. cbn [flat_map]. rewrite Hc.
        cbn [color_or_black]. rewrite <- !app_assoc. reflexivity.
      * intros y Hy. apply Hsel. right. exact Hy.
      * rewrite !length_app. cbn [length pixel_bytes]. lia.
      * lia.
    + apply load_Done. split; [lia|]. rewrite Nat2Z.id.
      rewrite nth_error_app2 by lia. rewrite Nat.sub_diag. reflexivity.
    + exact Hc.
    + lia.
Qed.

Lemma color_phase_any (params : MandelbrotParams) (data : list R)
      (histogram : option Histogram) (image0 : list Z) :
  (forall x, In x data ->
             exists c, select_color histogram (max_iterations params) x
                       = Done c) ->
  length data = Z.to_nat (width params * height params) ->
  length image0 = (3 * length data)%nat ->
  color_phase params data histogram image0
  = Done (colored_image histogram (max_iterations params) data).
Proof.
  intros Hsel Hlen Himg. unfold color_phase, zrange. rewrite <- Hlen.
  apply (color_loop_any params histogram data Hsel [] [] image0);
    [reflexivity | exact Himg].
Qed.


(** ** The render never faults *)

Lemma evaluate_bounds (cr ci : R) (max_iter : Z) :
  (0 < max_iter)%Z -> 0 <= evaluate cr ci max_iter <= IZR max_iter.
Proof.
  intros Hm.
  assert (Hpos : 0 < IZR max_iter) by (apply IZR_lt; lia).
  destruct (quick_mandelbrot_check cr ci) eqn:Hq.
  - unfold evaluate, calculate_mandelbrot_optimized. rewrite Hq. cbn [fst].
    lra.
  - destruct (series_accepted cr ci max_iter) eqn:Hs.
    + assert (E : evaluate cr ci max_iter
                  = series_approximation cr ci max_iter).
      { unfold evaluate, calculate_mandelbrot_optimized.
        rewrite Hq. unfold series_accepted in Hs. rewrite Hs. reflexivity. }
      unfold series_accepted in Hs. apply andb_prop in Hs as [_ Hs]. Rcmp.
      assert (Hne : series_approximation cr ci max_iter <> -1) by lra.
      pose proof (series_value_below _ _ _ Hne). rewrite E. lra.
    + rewrite (evaluate_fallthrough _ _ _ Hq Hs).
      apply escape_time_range, Hm.
Qed.

Lemma frame_values_in_range (params : MandelbrotParams) :
  (0 < max_iterations params)%Z ->
  Forall (fun x => 0 <= x <= IZR (max_iterations params))
         (frame_values params).
Proof.
  intros Hm. apply Forall_forall. intros x Hx. unfold frame_values in Hx.
  apply in_map_iff in Hx as (j & <- & _). apply evaluate_bounds, Hm.
Qed.

Lemma select_color_Done (params : MandelbrotParams) (al : Allocator)
      (histogram : option Histogram) :
  (0 < max_iterations params)%Z ->
  (histogram = None \/
   build_histogram al (frame_values params) (width params) (height params)
                   (max_iterations params) = Done histogram) ->
  forall x, In x (frame_values params) ->
            exists c, select_color histogram (max_iterations params) x
                      = Done c.
Proof.
  intros Hm Hh x Hx. destruct histogram as [hist|];
    [|eexists; reflexivity].
  destruct Hh as [Hh | Hh]; [discriminate|]. cbn [select_color].
  destruct (Rgeb x (IZR (max_iterations params))) eqn:E.
  - exists black. unfold map_iteration_to_color_histogram. rewrite E.
    reflexivity.
  - Rcmp.
    assert (Ha : malloc_hist al = true /\ calloc_counts al = true).
    { unfold build_histogram in Hh.
      destruct (malloc_hist al); [|discriminate].
      destruct (calloc_counts al); [auto | discriminate]. }
    destruct (histogram_mapper_value al (frame_values params)
                (width params) (height params) (max_iterations params) Hm
                (eq_sym (length_frame_values params))
                (frame_values_in_range params Hm) (proj1 Ha) (proj2 Ha))
      as (hist' & Hb & Hval).
    rewrite Hb in Hh. injection Hh as ->.
    destruct (Hval x Hx E) as (_ & Hc & _). eexists. exact Hc.
Qed.

Lemma build_histogram_returns (params : MandelbrotParams) (al : Allocator) :
  (0 < max_iterations params)%Z ->
  exists histogram,
    build_histogram al (frame_values params) (width params) (height params)
                    (max_iterations params) = Done histogram.
Proof.
  intros Hm.
  destruct (malloc_hist al) eqn:Ha;
    [|exists None; unfold build_histogram; rewrite Ha; reflexivity].
  destruct (calloc_counts al) eqn:Hc;
    [|exists None; unfold build_histogram; rewrite Ha, Hc; reflexivity].
  destruct (build_histogram_Done al (frame_values params) (width params)
              (height params) (max_iterations params) Hm
              (eq_sym (length_frame_values params))
              (frame_values_in_range params Hm) Ha Hc) as (hist & Hb & _).
  exists (Some hist). exact Hb.
Qed.

Lemma generate_mandelbrot_allocated (sys : System)
      (params : MandelbrotParams) :
  (0 < width params)%Z -> (0 < max_iterations params)%Z ->
  malloc_image sys = true -> malloc_iter sys = true ->
  exists histogram,
    (if (use_histogram params =? 0)%Z then Done None
     else build_histogram (hist_allocator sys) (frame_values params)
            (width params) (height params) (max_iterations params))
    = Done histogram /\
    let image := colored_image histogram (max_iterations params)
                               (frame_values params) in
    generate_mandelbrot sys params
    = Done (mkRendered
              (if (stbi_write_png sys (output_filename params)
                                  (width params) (height params) 3 image
                                  (width params * 3) =? 0)%Z
               then 0 else 1)
              (Some image)).
Proof.
  intros Hw Hm Himg Hiter. unfold generate_mandelbrot.
  rewrite Himg, Hiter. cbn [negb orb].
  rewrite compute_phase_as_tasks.
  destruct (run_tasks_frame params _
              (fresh_block (iter_garbage sys) (width params * height params))
              (Some (mkStats 0 0)) Hw (sequential_covers params)
              (length_fresh_block _ _)) as [s Hs].
  rewrite Hs. cbn [bind fst].
  assert (Hhist : exists histogram,
             (if (use_histogram params =? 0)%Z then Done None
              else build_histogram (hist_allocator sys) (frame_values params)
                     (width params) (height params) (max_iterations params))
             = Done histogram /\
             (histogram = None \/
              build_histogram (hist_allocator sys) (frame_values params)
                (width params) (height params) (max_iterations params)
              = Done histogram)).
  { destruct (use_histogram params =? 0)%Z.
    - exists None. split; [reflexivity | left; reflexivity].
    - destruct (build_histogram_returns params (hist_allocator sys) Hm)
        as [histogram Hb].
      exists histogram. split; [exact Hb | right; exact Hb]. }
  destruct Hhist as (histogram & Ehist & Hsrc).
  exists histogram. split; [exact Ehist|].
  rewrite Ehist. cbn [bind].
  rewrite (color_phase_any params (frame_values params) histogram).
  - cbn [bind]. cbv zeta.
    destruct (stbi_write_png _ _ _ _ _ _ _ =? 0)%Z; reflexivity.
  - apply (select_color_Done params (hist_allocator sys) histogram Hm Hsrc).
  - apply length_frame_values.
  - rewrite length_fresh_block, length_frame_values. lia.
Qed.

Lemma generate_mandelbrot_unallocated (sys : System)
      (params : MandelbrotParams) :
  malloc_image sys = false \/ malloc_iter sys = false ->
  generate_mandelbrot sys params = Done (mkRendered 0 None).
Proof.
  intros H. unfold generate_mandelbrot.
  destruct H as [-> | ->]; [reflexivity|].
  destruct (malloc_image sys); reflexivity.
Qed.




(** ** The statistics counters *)

Lemma calculate_stats (cr ci : R) (max_iter : Z) (po ss : Z) :
  snd (calculate_mandelbrot_optimized cr ci max_iter (Some (mkStats po ss)))
  = Some (mkStats
            (po + if quick_mandelbrot_check cr ci then 1 else 0)
            (ss + if negb (quick_mandelbrot_check cr ci)
                     && series_accepted cr ci max_iter then 1 else 0)).
Proof.
  unfold calculate_mandelbrot_optimized, series_accepted.
  destruct (quick_mandelbrot_check cr ci); cbn [negb andb snd].
  - unfold bump_optimized; cbn. do 2 f_equal; lia.
  - destruct ((MIN_SERIES_ITER <=? max_iter)%Z && _); cbn [snd].
    + unfold bump_series; cbn. do 2 f_equal; lia.
    + do 2 f_equal; lia.
Qed.

Lemma compute_pixel_stats (params : MandelbrotParams) (t : Task)
      (data data' : list R) (po ss : Z) (st' : option PerformanceStats) :
  compute_pixel params (fst t) (snd t) (data, Some (mkStats po ss))
  = Done (data', st') ->
  st' = Some (mkStats
                (po + if fast_rejected params t then 1 else 0)
                (ss + if series_estimated params t then 1 else 0)).
Proof.
  unfold compute_pixel; cbv zeta. cbn [fst snd].
  pose proof (calculate_stats
                (x_min params + IZR (snd t) * x_scale params)
                (y_min params + IZR (fst t) * y_scale params)
                (max_iterations params) po ss) as Hs.
  destruct (calculate_mandelbrot_optimized _ _ _ _) as [v s1].
  cbn [snd] in Hs. intros H. apply bind_Done in H as (d1 & _ & H).
  injection H as _ <-. exact Hs.
Qed.

Lemma count_tasks_cons (f : Task -> bool) (t : Task) (l : list Task) :
  count_tasks f (t :: l) = ((if f t then 1 else 0) + count_tasks f l)%Z.
Proof.
  unfold count_tasks. cbn [filter]. destruct (f t); cbn [length]; lia.
Qed.

Lemma run_tasks_stats (params : MandelbrotParams) (order : list Task) :
  forall data po ss data' st',
    run_tasks params order (data, Some (mkStats po ss)) = Done (data', st') ->
    st' = Some (mkStats
                  (po + count_tasks (fast_rejected params) order)
                  (ss + count_tasks (series_estimated params) order)).
Proof.
  unfold run_tasks.
  induction order as [|t ts IH]; intros data po ss data' st' H.
  - cbn in H. injection H as _ <-. unfold count_tasks. cbn.
    do 2 f_equal; lia.
  - cbn [fold_left bind] in H.
    destruct (compute_pixel params (fst t) (snd t)
                            (data, Some (mkStats po ss)))
      as [[d1 s1]|e] eqn:E1.
    + apply compute_pixel_stats in E1. subst s1.
      apply IH in H. rewrite H, !count_tasks_cons. do 2 f_equal; lia.
    + rewrite (fold_Fault
                 (fun s u => compute_pixel params (fst u) (snd u) s)) in H.
      discriminate.
Qed.

Lemma count_tasks_disjoint (params : MandelbrotParams) (l : list Task) :
  (0 <= count_tasks (fast_rejected params) l)%Z /\
  (0 <= count_tasks (series_estimated params) l)%Z /\
  (count_tasks (fast_rejected params) l
   + count_tasks (series_estimated params) l <= Z.of_nat (length l))%Z.
Proof.
  induction l as [|t l IH]; [unfold count_tasks; cbn; lia|].
  rewrite !count_tasks_cons. cbn [length]. unfold series_estimated at 1 3.
  destruct (fast_rejected params t); cbn [negb andb];
    [|destruct (series_accepted _ _ _)]; lia.
Qed.

Lemma length_frame_tasks (params : MandelbrotParams) :
  length (frame_tasks params)
  = (Z.to_nat (height params) * Z.to_nat (width params))%nat.
Proof.
  unfold frame_tasks. rewrite <- (length_zrange (height params)).
  induction (zrange (height params)) as [|py rows IH]; [reflexivity|].
  cbn [flat_map length]. rewrite length_app, IH.
  unfold row_tasks. rewrite length_map, length_zrange. lia.
Qed.

(** X11: on a frame in range, run by one thread on fresh counters, the
    computation loop leaves in [pixels_optimized] the number of
    fast-rejected pixels and in [series_skips] the number of pixels given
    a series estimate; the two never add up to more than
    [width * height]. *)
Theorem compute_phase_counters (params : MandelbrotParams) (data0 : list R) :
  frame_in_range params ->
  length data0 = Z.to_nat (width params * height params) ->
  let po := count_tasks (fast_rejected params) (frame_tasks params) in
  let ss := count_tasks (series_estimated params) (frame_tasks params) in
  compute_phase params (data0, Some (mkStats 0 0))
  = Done (frame_values params, Some (mkStats po ss)) /\
  (0 <= po)%Z /\ (0 <= ss)%Z /\
  (po + ss <= width params * height params)%Z.
Proof.
  intros Hfr Hlen po ss.
  destruct (frame_in_range_positive params Hfr) as [Hw Hh].
  rewrite compute_phase_as_tasks.
  fold (frame_tasks params).
  destruct (run_tasks_frame params (frame_tasks params) data0
              (Some (mkStats 0 0)) Hw (sequential_covers params) Hlen)
    as [st E].
  pose proof (run_tasks_stats params _ _ _ _ _ _ E) as Hst.
  rewrite E, Hst. split; [reflexivity|].
  pose proof (count_tasks_disjoint params (frame_tasks params))
    as (H1 & H2 & H3).
  rewrite length_frame_tasks in H3. fold po in H1, H3. fold ss in H2, H3.
  repeat split; try assumption. nia.
Qed.

Lemma compute_phase_counters_witness :
  let params :=
    mkParams 2 2 50 1 1 (-0.5) 0 (-2) 1 (-1.5) 1.5 "ffpga.png"%string 1 1 in
  let po := count_tasks (fast_rejected params) (frame_tasks params) in
  let ss := count_tasks (series_estimated params) (frame_tasks params) in
  compute_phase params ([7; 7; 7; 7], Some (mkStats 0 0))
  = Done (frame_values params, Some (mkStats po ss)) /\
  (0 <= po)%Z /\ (0 <= ss)%Z /\ (po + ss <= 2 * 2)%Z.
Proof.
  intros params.
  apply (compute_phase_counters params [7; 7; 7; 7]);
    [frame_range | reflexivity].
Defined.

(** ** Start-up *)

Lemma init_parameters_positive (atoi : string -> Z) (atof : string -> R)
      (omp : option Z) (argv : list string) (p : MandelbrotParams) :
  init_parameters atoi atof omp argv = Ready p ->
  (0 < width p)%Z /\ (0 < height p)%Z /\ (0 < max_iterations p)%Z.
Proof.
  unfold init_parameters; cbv zeta.
  destruct ((_ <=? 0)%Z || (_ <=? 0)%Z) eqn:E1; [discriminate|].
  destruct (argument argv 3 atoi DEFAULT_MAX_ITER <=? 0)%Z eqn:E2;
    [discriminate|].
  destruct (Rgeb 0 _) eqn:E3; [discriminate|].
  intros [= <-]. cbn [width height max_iterations].
  apply orb_false_elim in E1 as [E1 E1'].
  apply Z.leb_gt in E1, E1', E2.
  repeat split; auto.
Qed.

Lemma init_parameters_exit (atoi : string -> Z) (atof : string -> R)
      (omp : option Z) (argv : list string) (status : Z) :
  init_parameters atoi atof omp argv = Exit status -> status = 1%Z.
Proof.
  unfold init_parameters; cbv zeta.
  destruct ((_ <=? 0)%Z || (_ <=? 0)%Z); [intros [= <-]; reflexivity|].
  destruct (argument argv 3 atoi DEFAULT_MAX_ITER <=? 0)%Z;
    [intros [= <-]; reflexivity|].
  destruct (Rgeb 0 _); [intros [= <-]; reflexivity | discriminate].
Qed.

Lemma generate_mandelbrot_verdict (sys : System) (params : MandelbrotParams) :
  (0 < width params)%Z -> (0 < max_iterations params)%Z ->
  exists rendered,
    generate_mandelbrot sys params = Done rendered /\
    (return_value rendered = 0%Z \/ return_value rendered = 1%Z).
Proof.
  intros Hw Hm.
  destruct (malloc_image sys) eqn:Himg;
    [|exists (mkRendered 0 None);
      split; [apply generate_mandelbrot_unallocated; auto | left; reflexivity]].
  destruct (malloc_iter sys) eqn:Hiter;
    [|exists (mkRendered 0 None);
      split; [apply generate_mandelbrot_unallocated; auto | left; reflexivity]].
  destruct (generate_mandelbrot_allocated sys params Hw Hm Himg Hiter)
    as (histogram & _ & E).
  cbv zeta in E. eexists. split; [exact E|]. cbn [return_value].
  destruct (_ =? 0)%Z; auto.
Qed.

(** X13: when the parameters the command line yields describe a frame in
    range, the program ends with status 0 or 1 and never touches memory
    outside its buffers: the status is 0 exactly when help was asked for,
    or the parameters were accepted and the render returned 1; a rejected
    parameter, a failed allocation and a failed write all give 1. *)
Theorem main_exit_status (atoi : string -> Z) (atof : string -> R)
        (omp : option Z) (sys : System) (argv : list string) :
  (forall p, init_parameters atoi atof omp argv = Ready p ->
             frame_in_range p) ->
  exists status,
    main atoi atof omp sys argv = Done status /\
    (status = 0%Z \/ status = 1%Z) /\
    (status = 0%Z <->
     help_requested argv = true \/
     exists p rendered,
       init_parameters atoi atof omp argv = Ready p /\
       generate_mandelbrot sys p = Done rendered /\
       return_value rendered = 1%Z).
Proof.
  intros Hrange.
  unfold main. destruct (help_requested argv) eqn:Hhelp.
  - exists 0%Z. split; [reflexivity|]. split; [auto|].
    split; [intros _; left; reflexivity | reflexivity].
  - destruct (init_parameters atoi atof omp argv) as [p | status] eqn:Hinit.
    + destruct (init_parameters_positive _ _ _ _ _ Hinit)
        as (_ & _ & Hm).
      destruct (frame_in_range_positive p (Hrange p eq_refl)) as [Hw _].
      destruct (generate_mandelbrot_verdict sys p Hw Hm)
        as (rendered & E & Hrv).
      rewrite E. cbn [bind].
      destruct Hrv as [H0 | H1].
      * rewrite H0. exists 1%Z. cbn. split; [reflexivity|]. split; [auto|].
        split; [discriminate|].
        intros [Hh | (p' & r' & Hp & Hr & Hv)]; [discriminate|].
        injection Hp as <-. rewrite E in Hr. injection Hr as <-. lia.
      * rewrite H1. exists 0%Z. cbn. split; [reflexivity|]. split; [auto|].
        split; [|reflexivity]. intros _. right. exists p, rendered. auto.
    + apply init_parameters_exit in Hinit. subst status.
      exists 1%Z. split; [reflexivity|]. split; [auto|].
      split; [discriminate|].
      intros [Hh | (p' & r' & Hp & _)]; discriminate.
Qed.

Lemma main_exit_status_witness :
  main (fun _ => 0%Z) (fun _ => 0) (Some 4%Z)
       (mkSystem true (fun _ => 0%Z) true (fun _ => 0)
                 (mkAllocator true true) (fun _ _ _ _ _ _ => 1%Z))
       ["ffpga"%string]
  = Done 0%Z.
Proof.
  set (sys := mkSystem true (fun _ => 0%Z) true (fun _ => 0)
                       (mkAllocator true true) (fun _ _ _ _ _ _ => 1%Z)).
  set (p := mkParams 1920 1080 1000 4 1 (-0.5) 0
                     (-0.5 - 3 / 1 * (IZR 1920 / IZR 1080) / 2)
                     (-0.5 + 3 / 1 * (IZR 1920 / IZR 1080) / 2)
                     (0 - 3 / 1 / 2) (0 + 3 / 1 / 2)
                     "ffpga.png"%string 1 1).
  assert (Hinit : init_parameters (fun _ => 0%Z) (fun _ => 0) (Some 4%Z)
                                  ["ffpga"%string] = Ready p).
  { unfold init_parameters, argument; cbn [nth_error].
    replace (Rgeb 0 DEFAULT_ZOOM) with false
      by (symmetry; apply Rgeb_false; unfold DEFAULT_ZOOM; lra).
    reflexivity. }
  destruct (main_exit_status (fun _ => 0%Z) (fun _ => 0) (Some 4%Z) sys
                             ["ffpga"%string])
    as (status & E & _ & Hiff).
  - intros q Hq. rewrite Hinit in Hq. injection Hq as <-.
    unfold p. frame_range.
  - rewrite E. f_equal. apply Hiff. right.
    destruct (generate_mandelbrot_allocated sys p)
      as (histogram & _ & Hg); [cbn; lia | cbn; lia | reflexivity
                               | reflexivity |].
    cbv zeta in Hg. eexists p, _. split; [exact Hinit|].
    split; [exact Hg | reflexivity].
Defined.

(** ** The coordinate grid *)

(** X14: on a frame in range whose window is not inverted, the scan
    starts on the corner [(x_min, y_min)] and never steps backwards: the
    abscissa does not decrease from a column to a later one, nor the
    ordinate from a row to a later one.  (Equality is left possible: at
    deep zoom neighbouring columns can share an abscissa.) *)
Theorem scan_grid_monotone (params : MandelbrotParams) :
  frame_in_range params ->
  x_min params <= x_max params -> y_min params <= y_max params ->
  x_min params + IZR 0 * x_scale params = x_min params /\
  y_min params + IZR 0 * y_scale params = y_min params /\
  (forall px px' : Z,
     (px <= px')%Z ->
     x_min params + IZR px * x_scale params
     <= x_min params + IZR px' * x_scale params) /\
  (forall py py' : Z,
     (py <= py')%Z ->
     y_min params + IZR py * y_scale params
     <= y_min params + IZR py' * y_scale params).
Proof.
  intros (Hw & Hh & _) Hx Hy. unfold x_scale, y_scale.
  assert (Hwr : 0 < IZR (width params - 1)) by (apply IZR_lt; lia).
  assert (Hhr : 0 < IZR (height params - 1)) by (apply IZR_lt; lia).
  assert (Hsx : 0 <= (x_max params - x_min params) / IZR (width params - 1)).
  { apply Rmult_le_pos; [lra | left; apply Rinv_0_lt_compat, Hwr]. }
  assert (Hsy : 0 <= (y_max params - y_min params) / IZR (height params - 1)).
  { apply Rmult_le_pos; [lra | left; apply Rinv_0_lt_compat, Hhr]. }
  split; [lra|]. split; [lra|]. split.
  - intros px px' Hle.
    assert (Hp : IZR px <= IZR px') by (apply IZR_le; exact Hle). nra.
  - intros py py' Hle.
    assert (Hp : IZR py <= IZR py') by (apply IZR_le; exact Hle). nra.
Qed.

Lemma scan_grid_monotone_witness :
  let params :=
    mkParams 4 3 50 1 1 (-0.5) 0 (-2) 1 (-1.5) 1.5 "ffpga.png"%string 1 1 in
  x_min params + IZR 0 * x_scale params = x_min params /\
  y_min params + IZR 0 * y_scale params = y_min params /\
  (forall px px' : Z,
     (px <= px')%Z ->
     x_min params + IZR px * x_scale params
     <= x_min params + IZR px' * x_scale params) /\
  (forall py py' : Z,
     (py <= py')%Z ->
     y_min params + IZR py * y_scale params
     <= y_min params + IZR py' * y_scale params).
Proof.
  intros params.
  apply (scan_grid_monotone params); [frame_range | cbn; lra | cbn; lra].
Defined.

(** ** Histogram equalisation is monotone *)

Lemma double_to_int_monotone (x y : R) :
  0 <= x -> x <= y -> (double_to_int x <= double_to_int y)%Z.
Proof.
  intros Hx Hxy. unfold double_to_int.
  replace (Rltb x 0) with false by (symmetry; apply Rltb_false; lra).
  replace (Rltb y 0) with false by (symmetry; apply Rltb_false; lra).
  apply Zfloor_le. exact Hxy.
Qed.

Lemma count_upto_monotone (b b' : Z) (data : list R) :
  (b <= b')%Z -> (count_upto b data <= count_upto b' data)%Z.
Proof.
  intros Hb. unfold count_upto.
  induction data as [|x data IH]; [cbn; lia|]. cbn [filter].
  destruct (double_to_int x <=? b)%Z eqn:E1,
           (double_to_int x <=? b')%Z eqn:E2; cbn [length]; lia.
Qed.

(** X15: histogram colouring preserves the order of results: of two
    pixels of the buffer with results [x <= y < max_iter], the first is
    given a normalised position no larger than the second. *)
Theorem histogram_position_monotone (al : Allocator)
        (iteration_data : list R) (width height max_iter : Z) (x y : R) :
  (0 < max_iter)%Z ->
  Z.to_nat (width * height) = length iteration_data ->
  Forall (fun v => 0 <= v <= IZR max_iter) iteration_data ->
  malloc_hist al = true -> calloc_counts al = true ->
  In x iteration_data -> In y iteration_data ->
  x <= y -> y < IZR max_iter ->
  exists hist px py,
    build_histogram al iteration_data width height max_iter
    = Done (Some hist) /\
    map_iteration_to_color_histogram x max_iter (Some hist)
    = Done (histogram_palette px) /\
    map_iteration_to_color_histogram y max_iter (Some hist)
    = Done (histogram_palette py) /\
    0 < px <= py /\ py <= 1.
Proof.
  intros Hm Hlen Hall Ha Hc Hx Hy Hxy Hym.
  destruct (histogram_mapper_value al iteration_data width height max_iter
              Hm Hlen Hall Ha Hc) as (hist & Hb & Hval).
  destruct (Hval x Hx ltac:(lra)) as ((Hx1 & Hx2) & Ex & Hpx).
  destruct (Hval y Hy Hym) as ((Hy1 & Hy2) & Ey & Hpy).
  exists hist. eexists. eexists.
  split; [exact Hb|]. split; [exact Ex|]. split; [exact Ey|].
  assert (Hx0 : 0 <= x).
  { rewrite Forall_forall in Hall. apply (Hall x Hx). }
  pose proof (count_upto_monotone _ _ iteration_data
                (double_to_int_monotone x y Hx0 Hxy)) as Hmono.
  assert (Ht : 0 < IZR (total_pixels hist)) by (apply IZR_lt; lia).
  split; [split; [apply Hpx|] | apply Hpy].
  apply Rmult_le_compat_r; [left; apply Rinv_0_lt_compat, Ht|].
  apply IZR_le, Hmono.
Qed.

Lemma histogram_position_monotone_witness :
  exists hist px py,
    build_histogram (mkAllocator true true) [0.5; 2; 1.25] 3 1 2
    = Done (Some hist) /\
    map_iteration_to_color_histogram 0.5 2 (Some hist)
    = Done (histogram_palette px) /\
    map_iteration_to_color_histogram 1.25 2 (Some hist)
    = Done (histogram_palette py) /\
    0 < px <= py /\ py <= 1.
Proof.
  apply (histogram_position_monotone (mkAllocator true true)
                                     [0.5; 2; 1.25] 3 1 2 0.5 1.25);
    try reflexivity; try lia; try lra.
  - repeat constructor; lra.
  - left. reflexivity.
  - right. right. left. reflexivity.
Defined.

(** ** The evaluator of the older generator *)

Lemma orbit_from_succ (cr ci : R) (k : nat) :
  forall z, orbit_from cr ci z (S k) = mandel_step cr ci (orbit_from cr ci z k).
Proof.
  induction k as [|k IH]; intros z; [reflexivity|].
  change (orbit_from cr ci z (S (S k)))
    with (orbit_from cr ci (mandel_step cr ci z) (S k)).
  rewrite IH. reflexivity.
Qed.

(** While the cached squares are those of the previous orbit point and
    no point before index [k] has left the disc of radius 2, the loop
    runs on; it stops one pass after the first point that has. *)
Lemma ffpga_loop_late (cr ci : R) (max_iter : Z) (k : nat) :
  (forall j, (j < k)%nat -> magnitude_sq (orbit cr ci j) <= 4) ->
  4 < magnitude_sq (orbit cr ci k) ->
  (Z.of_nat k + 1 <= max_iter)%Z ->
  forall (m n fuel : nat) (zr_sq zi_sq : R),
    (n + m = k + 1)%nat -> (m <= fuel)%nat ->
    zr_sq + zi_sq = magnitude_sq (orbit cr ci (pred n)) ->
    V1.ffpga_loop fuel cr ci max_iter (Z.of_nat n)
                  (fst (orbit cr ci n)) (snd (orbit cr ci n)) zr_sq zi_sq
    = (Z.of_nat (S k), fst (orbit cr ci (S k)), snd (orbit cr ci (S k))).
Proof.
  intros Hsafe Hesc Hmax.
  induction m as [|m IH]; intros n fuel zr_sq zi_sq Hn Hf Hsq.
  - assert (n = S k) by lia. subst n. cbn [pred] in Hsq.
    destruct fuel as [|fuel]; [reflexivity|]. cbn [V1.ffpga_loop].
    replace (Rgeb ESCAPE_RADIUS_SQ (zr_sq + zi_sq)) with false
      by (symmetry; apply Rgeb_false; unfold ESCAPE_RADIUS_SQ; lra).
    rewrite andb_false_r. reflexivity.
  - destruct fuel as [|fuel]; [lia|]. cbn [V1.ffpga_loop].
    replace (Z.of_nat n <? max_iter)%Z with true
      by (symmetry; apply Z.ltb_lt; lia).
    assert (Hin : zr_sq + zi_sq <= 4).
    { rewrite Hsq. destruct n as [|n].
      - unfold magnitude_sq, orbit; cbn. lra.
      - cbn [pred]. apply Hsafe. lia. }
    replace (Rgeb ESCAPE_RADIUS_SQ (zr_sq + zi_sq)) with true
      by (symmetry; apply Rgeb_true; unfold ESCAPE_RADIUS_SQ; lra).
    cbn [andb]. cbv zeta.
    replace (Z.of_nat n + 1)%Z with (Z.of_nat (S n)) by lia.
    assert (E : orbit cr ci (S n)
                = (fst (orbit cr ci n) * fst (orbit cr ci n)
                   - snd (orbit cr ci n) * snd (orbit cr ci n) + cr,
                   2 * fst (orbit cr ci n) * snd (orbit cr ci n) + ci)).
    { unfold orbit. rewrite orbit_from_succ. reflexivity. }
    pose proof (IH (S n) fuel
                   (fst (orbit cr ci n) * fst (orbit cr ci n))
                   (snd (orbit cr ci n) * snd (orbit cr ci n))
                   ltac:(lia) ltac:(lia) eq_refl) as IH'.
    rewrite E in IH'. cbn [fst snd] in IH'. exact IH'.
Qed.

(** X16: the older evaluator notices an escape one pass late.  Its loop
    test reads the squares cached by the previous pass, so for a point
    whose first iterate [z_1 = c] is already outside the disc of radius 2
    ([cr^2 + ci^2 >= 5], clear of the threshold 4) the loop does not stop
    at iteration 1 but at iteration 2, for every [max_iter >= 3]. *)
Theorem calculate_ffpga_escape_late (cr ci : R) (max_iter : Z) :
  5 <= cr * cr + ci * ci ->
  (3 <= max_iter)%Z ->
  4 < magnitude_sq (orbit cr ci 1) /\
  fst (fst (V1.ffpga_loop (Z.to_nat max_iter) cr ci max_iter 0 0 0 0 0))
  = 2%Z.
Proof.
  intros Hfar Hm.
  assert (H1 : 4 < magnitude_sq (orbit cr ci 1)).
  { unfold magnitude_sq, orbit, mandel_step; cbn. lra. }
  split; [exact H1|].
  assert (L : V1.ffpga_loop (Z.to_nat max_iter) cr ci max_iter 0 0 0 0 0
              = (Z.of_nat 2, fst (orbit cr ci 2), snd (orbit cr ci 2))).
  { apply (ffpga_loop_late cr ci max_iter 1) with (m := 2%nat) (n := 0%nat);
      try lia.
    - intros j Hj. assert (j = 0%nat) by lia. subst j.
      unfold magnitude_sq, orbit; cbn. lra.
    - exact H1.
    - unfold magnitude_sq, orbit; cbn. lra. }
  rewrite L. reflexivity.
Qed.

Lemma calculate_ffpga_escape_late_witness :
  4 < magnitude_sq (orbit 2 2 1) /\
  fst (fst (V1.ffpga_loop (Z.to_nat 10) 2 2 10 0 0 0 0 0)) = 2%Z.
Proof. apply (calculate_ffpga_escape_late 2 2 10); [lra | lia]. Defined.

Lemma loop_test_on_zero :
  Rgeb ESCAPE_RADIUS_SQ (0 + 0) = true /\
  Rgeb ESCAPE_RADIUS_SQ (0 * 0 + 0 * 0) = true.
Proof. split; apply Rgeb_true; unfold ESCAPE_RADIUS_SQ; lra. Qed.

(** X17: for an iteration bound of at most 2 the older evaluator reports
    every point as a member, returning [max_iter]: the two tests it makes
    read the squares of the starting point, so no escape can be seen, not
    even that of a first iterate outside the disc. *)
Theorem calculate_ffpga_member (cr ci : R) (max_iter : Z) :
  (0 <= max_iter <= 2)%Z ->
  V1.calculate_ffpga cr ci max_iter = IZR max_iter.
Proof.
  intros Hm. unfold V1.calculate_ffpga.
  destruct (V1.quick_ffpga_check cr ci); [reflexivity|].
  destruct loop_test_on_zero as [T0 T1].
  assert (C : max_iter = 0%Z \/ max_iter = 1%Z \/ max_iter = 2%Z) by lia.
  destruct C as [-> | [-> | ->]].
  - reflexivity.
  - change (Z.to_nat 1) with 1%nat. cbn [V1.ffpga_loop].
    rewrite T0. reflexivity.
  - change (Z.to_nat 2) with 2%nat. cbn [V1.ffpga_loop].
    rewrite T0. cbn [andb Z.ltb Z.compare Z.add Pos.compare Pos.compare_cont].
    cbv zeta. change (0 + 1 <? 2)%Z with true. cbn [andb].
    rewrite T1. reflexivity.
Qed.

Lemma calculate_ffpga_member_witness :
  V1.calculate_ffpga 2 2 2 = IZR 2 /\ 4 < magnitude_sq (orbit 2 2 1).
Proof.
  split.
  - apply (calculate_ffpga_member 2 2 2). lia.
  - unfold magnitude_sq, orbit, mandel_step; cbn. lra.
Defined.

Lemma log2_above_3 (y : R) : 8 < y -> 3 < log2 y.
Proof.
  intros H. unfold log2. pose proof ln_2_bounds as [L0 L1].
  assert (ln 8 < ln y) by (apply ln_increasing; lra).
  assert (E8 : ln 8 = 3 * ln 2).
  { replace 8 with (2 * (2 * 2)) by lra. rewrite !ln_mult by lra. lra. }
  apply (Rmult_lt_reg_r (ln 2)); [exact L0|].
  unfold Rdiv. rewrite Rmult_assoc, Rinv_l by lra. lra.
Qed.

Lemma ln_above_16 (x : R) : 43046721 < x -> 16 < ln x.
Proof.
  intros H.
  assert (L3 : 1 <= ln 3).
  { replace 1 with (ln (exp 1)) at 1 by apply ln_exp.
    destruct exp_le_3 as [Hlt | Heq].
    - left. apply ln_increasing; [apply exp_pos | exact Hlt].
    - rewrite Heq. right. reflexivity. }
  assert (E : ln 43046721 = 16 * ln 3).
  { replace 43046721 with (3 ^ 16) by (simpl; lra).
    rewrite ln_pow by lra. simpl INR. lra. }
  assert (ln 43046721 < ln x) by (apply ln_increasing; lra).
  lra.
Qed.

Lemma far_point_not_detected (cr ci : R) :
  6724 <= cr * cr + ci * ci -> V1.quick_ffpga_check cr ci = false.
Proof.
  intros H. unfold V1.quick_ffpga_check; cbv zeta.
  assert (B : Rltb ((cr + 1.25) * (cr + 1.25) + ci * ci) 0.0625 = false).
  { apply Rltb_false.
    pose proof (Rle_0_sqr (cr + 1.25)) as S1. unfold Rsqr in S1.
    pose proof (Rle_0_sqr ci) as S2. unfold Rsqr in S2.
    pose proof (Rle_0_sqr (cr - 1)) as S3. unfold Rsqr in S3.
    nra. }
  assert (A : Rltb ((cr + 1) * (cr + 1) + ci * ci) 0.0625 = false).
  { apply Rltb_false.
    pose proof (Rle_0_sqr (cr + 1)) as S1. unfold Rsqr in S1.
    pose proof (Rle_0_sqr ci) as S2. unfold Rsqr in S2.
    pose proof (Rle_0_sqr (cr - 1)) as S3. unfold Rsqr in S3.
    nra. }
  rewrite A, B. reflexivity.
Qed.

Lemma far_point_second_iterate (cr ci : R) :
  6724 <= cr * cr + ci * ci ->
  43046721 < magnitude_sq (orbit cr ci 2).
Proof.
  intros H. unfold magnitude_sq, orbit, orbit_from, mandel_step.
  cbn [fst snd].
  set (s := cr * cr + ci * ci) in *.
  replace ((0 * 0 - 0 * 0 + cr) * (0 * 0 - 0 * 0 + cr)
           - (2 * 0 * 0 + ci) * (2 * 0 * 0 + ci) + cr)
    with (cr * cr - ci * ci + cr) by ring.
  replace (2 * (0 * 0 - 0 * 0 + cr) * (2 * 0 * 0 + ci) + ci)
    with (2 * cr * ci + ci) by ring.
  replace ((cr * cr - ci * ci + cr) * (cr * cr - ci * ci + cr)
           + (2 * cr * ci + ci) * (2 * cr * ci + ci))
    with (s * (s + 2 * cr + 1)) by (unfold s; ring).
  assert (N : 6561 <= s + 2 * cr + 1).
  { destruct (Rle_dec 0 cr) as [P|P]; [lra|].
    assert (C : cr * cr <= s).
    { unfold s. pose proof (Rle_0_sqr ci) as S2. unfold Rsqr in S2. lra. }
    assert (Q : 4 * s <= (s - 6560) * (s - 6560)) by nra.
    nra. }
  nra.
Qed.

(** X18: the older evaluator does not clamp its result.  For every
    point at distance at least 82 from the origin, and not so far that a
    square overflows ([cr^2 + ci^2 <= 1e100]), and [3 <= max_iter], the
    value it returns is negative. *)
Theorem calculate_ffpga_negative (cr ci : R) (max_iter : Z) :
  6724 <= cr * cr + ci * ci <= 1e100 ->
  (3 <= max_iter)%Z ->
  V1.calculate_ffpga cr ci max_iter < 0.
Proof.
  intros [H _] Hm.
  assert (L : V1.ffpga_loop (Z.to_nat max_iter) cr ci max_iter 0 0 0 0 0
              = (Z.of_nat 2, fst (orbit cr ci 2), snd (orbit cr ci 2))).
  { apply (ffpga_loop_late cr ci max_iter 1) with (m := 2%nat) (n := 0%nat);
      try lia.
    - intros j Hj. assert (j = 0%nat) by lia. subst j.
      unfold magnitude_sq, orbit; cbn. lra.
    - unfold magnitude_sq, orbit, mandel_step; cbn. lra.
    - unfold magnitude_sq, orbit; cbn. lra. }
  unfold V1.calculate_ffpga.
  rewrite (far_point_not_detected cr ci H), L.
  replace (Z.of_nat 2 <? max_iter)%Z with true
    by (symmetry; apply Z.ltb_lt; lia).
  cbv zeta. fold (magnitude_sq (orbit cr ci 2)).
  pose proof (ln_above_16 _ (far_point_second_iterate cr ci H)) as L16.
  pose proof (log2_above_3 (0.5 * ln (magnitude_sq (orbit cr ci 2)))
                           ltac:(lra)) as L3.
  change (Z.of_nat 2) with 2%Z. lra.
Qed.

Lemma calculate_ffpga_negative_witness : V1.calculate_ffpga 82 0 3 < 0.
Proof. apply (calculate_ffpga_negative 82 0 3); [lra | lia]. Defined.
